(** * Simple Matrix: a shallow embedding of [matrix.c]

    The C code works on heap-allocated [MatrixData] structs reached through
    [Matrix] pointers, and several operations are documented to accept the
    same handle as source and as result.  The embedding therefore keeps an
    explicit heap, threads it through a small state-and-fault monad, and
    makes every struct access a dereference that faults on [NULL], on a
    dangling handle and on an out-of-range buffer index.  Five functions
    declare a local array of [MATRIX_SIZE_MAX * MATRIX_SIZE_MAX] doubles; the
    room that the stack has for it is a parameter of their embedding, and a
    call that writes the array without that room faults as well.

    - [double] is Rocq's primitive binary64 [float];
    - [size_t] is a [Z] in [0, 2^64) with the wrap-around written out;
    - [char] is [ascii];
    - the BLAS/LAPACK routines [dgemm_], [dgetrf_] and [dgetri_] are not part
      of the repository and are section variables. *)

From Stdlib Require Import ZArith Lia Ascii PrimFloat.
From stdpp Require Import base option list.

#[local] Open Scope Z_scope.

(** ** Machine integers *)

Definition SIZE_MODULUS : Z := 2 ^ 64.
Definition INT_MODULUS : Z := 2 ^ 32.
Definition SIZEOF_DOUBLE : Z := 8.
Definition SIZEOF_INT : Z := 4.

(** [size_t] arithmetic is modular. *)
Definition size_wrap (x : Z) : Z := x mod SIZE_MODULUS.
Definition size_mul (a b : Z) : Z := size_wrap (a * b).
Definition size_add (a b : Z) : Z := size_wrap (a + b).

(** A [size_t] field read through an [int] pointer, and the conversion
    [size_t -> int]: the low 32 bits, read as a two's complement number. *)
Definition int_of_size (x : Z) : Z :=
  let y := x mod INT_MODULUS in
  if y <? INT_MODULUS / 2 then y else y - INT_MODULUS.

(** The usual arithmetic conversion [int -> size_t] of a mixed comparison. *)
Definition size_of_int (x : Z) : Z := size_wrap x.

(** ** Constants of [matrix.h] *)

Definition MATRIX_SIZE_MAX : Z := 50 * 50.
Definition MATRIX_IDENTITY : ascii := "I"%char.
Definition MATRIX_ZERO : ascii := "0"%char.
Definition MATRIX_TRANSPOSE : ascii := "T"%char.
Definition MATRIX_KEEP : ascii := "N"%char.

(** ** The heap *)

(** [struct _MatrixData].  The [data] pointer is only ever assigned from
    [calloc] and [realloc] and never escapes, so the buffer it owns is stored
    inline; the length of the list is the allocated capacity in doubles. *)
Record MatrixData : Type := mkMatrixData {
  data : list float;
  rowsNumber : Z;
  columnsNumber : Z
}.

(** A [Matrix] is a pointer: [None] is [NULL], [Some l] is the address [l]. *)
Definition Matrix : Type := option nat.

(** Cell [l] of the heap is [Some d] while the struct at address [l] is live
    and [None] once it has been freed. *)
Abbreviation heap := (list (option MatrixData)).

(** The outcome of running a piece of C: it either completes with a value
    and a heap, or it does not complete, because it has undefined behaviour
    or because the process is killed for want of stack. *)
Inductive outcome (A : Type) : Type :=
| Done (a : A) (h : heap)
| Fault.
Arguments Done {A} a h.
Arguments Fault {A}.

Definition M (A : Type) : Type := heap -> outcome A.

Definition ret {A} (a : A) : M A := fun h => Done a h.
Definition fault {A} : M A := fun _ => Fault.
Definition bind {A B} (c : M A) (k : A -> M B) : M B :=
  fun h => match c h with
           | Done a h' => k a h'
           | Fault => Fault
           end.

Notation "'let*' x ':=' c 'in' k" := (bind c (fun x => k))
  (at level 10, x name, c at level 100, k at level 200).
Notation "c ';;' k" := (bind c (fun _ => k))
  (at level 100, k at level 200, right associativity).

(** [for( size_t i = 0; i < bound; i++ ) body], with the local variables the
    body updates carried in [s]. *)
Fixpoint loop_from {S : Type} (n : nat) (i : Z) (body : Z -> S -> M S) (s : S)
  : M S :=
  match n with
  | O => ret s
  | Datatypes.S k => let* s' := body i s in loop_from k (i + 1) body s'
  end.

Definition for_size {S : Type} (bound : Z) (body : Z -> S -> M S) (s : S)
  : M S :=
  loop_from (Z.to_nat bound) 0 body s.

(** *** Struct and buffer accesses *)

Definition deref (m : Matrix) : M MatrixData :=
  fun h => match m with
           | None => Fault
           | Some l => match h !! l with
                       | Some (Some d) => Done d h
                       | _ => Fault
                       end
           end.

Definition assign (m : Matrix) (d : MatrixData) : M unit :=
  fun h => match m with
           | None => Fault
           | Some l => match h !! l with
                       | Some (Some _) => Done tt (<[l := Some d]> h)
                       | _ => Fault
                       end
           end.

Definition get_rows (m : Matrix) : M Z :=
  let* d := deref m in ret (rowsNumber d).
Definition get_columns (m : Matrix) : M Z :=
  let* d := deref m in ret (columnsNumber d).
Definition get_data (m : Matrix) : M (list float) :=
  let* d := deref m in ret (data d).

Definition set_rows (m : Matrix) (v : Z) : M unit :=
  let* d := deref m in assign m (mkMatrixData (data d) v (columnsNumber d)).
Definition set_columns (m : Matrix) (v : Z) : M unit :=
  let* d := deref m in assign m (mkMatrixData (data d) (rowsNumber d) v).
Definition set_data (m : Matrix) (buf : list float) : M unit :=
  let* d := deref m in
  assign m (mkMatrixData buf (rowsNumber d) (columnsNumber d)).

(** [m->data[ i ]] as an rvalue. *)
Definition load (m : Matrix) (i : Z) : M float :=
  let* d := deref m in
  match data d !! Z.to_nat i with
  | Some x => ret x
  | None => fault
  end.

(** [m->data[ i ] = x]. *)
Definition store (m : Matrix) (i : Z) (x : float) : M unit :=
  let* d := deref m in
  if decide (Z.to_nat i < length (data d))%nat
  then set_data m (<[Z.to_nat i := x]> (data d))
  else fault.

(** Reading and writing a caller array of doubles or an array that a
    [memcpy] has filled: an index outside the list is outside what the code
    may touch. *)
Definition read_array {A} (a : list A) (i : Z) : M A :=
  match a !! Z.to_nat i with
  | Some x => ret x
  | None => fault
  end.

Definition write_array {A} (a : list A) (i : Z) (x : A) : M (list A) :=
  if decide (Z.to_nat i < length a)%nat
  then ret (<[Z.to_nat i := x]> a)
  else fault.

(** *** Allocation *)

(** [malloc( sizeof(MatrixData) )]: a fresh address; allocation is taken to
    succeed.  The three fields are indeterminate until assigned; every caller
    assigns all of them before reading any. *)
Definition malloc_MatrixData : M Matrix :=
  fun h => Done (Some (length h)) (h ++ [Some (mkMatrixData [] 0 0)]).

(** [calloc( n, sizeof(double) )]. *)
Definition calloc (n : Z) : list float := replicate (Z.to_nat n) 0%float.

(** [m->data = realloc( m->data, bytes )]: the old contents up to the new
    size.  What lies beyond the old size is indeterminate; the only caller
    zeroes the whole buffer right after. *)
Definition realloc (m : Matrix) (bytes : Z) : M unit :=
  let* d := get_data m in
  set_data m (resize (Z.to_nat (bytes / SIZEOF_DOUBLE)) 0%float d).

(** [free( m->data ); free( m )]. *)
Definition free_MatrixData (m : Matrix) : M unit :=
  fun h => match m with
           | None => Fault
           | Some l => match h !! l with
                       | Some (Some _) => Done tt (<[l := None]> h)
                       | _ => Fault
                       end
           end.

(** *** [memset] and [memcpy] *)

(** [memset( m->data, 0, bytes )]; all-bits-zero is [+0.0]. *)
Definition memset_zero (m : Matrix) (bytes : Z) : M unit :=
  let* d := get_data m in
  let n := Z.to_nat (bytes / SIZEOF_DOUBLE) in
  if decide (n <= length d)%nat
  then set_data m (replicate n 0%float ++ drop n d)
  else fault.

(** [memcpy( dst->data, src, bytes )] from an array [src]. *)
Definition memcpy_from_array (dst : Matrix) (src : list float) (bytes : Z)
  : M unit :=
  let* d := get_data dst in
  let n := Z.to_nat (bytes / SIZEOF_DOUBLE) in
  if decide (n <= length d)%nat then
    if decide (n <= length src)%nat
    then set_data dst (take n src ++ drop n d)
    else fault
  else fault.

(** [memcpy( auxArray, src->data, bytes )] into a local array of [capacity]
    doubles: the result is the part of the array that is initialised. *)
Definition memcpy_to_array (capacity : Z) (src : Matrix) (bytes : Z)
  : M (list float) :=
  let* d := get_data src in
  let n := Z.to_nat (bytes / SIZEOF_DOUBLE) in
  if decide (n <= length d)%nat then
    if decide (Z.of_nat n <= capacity)
    then ret (take n d)
    else fault
  else fault.

(** [memcpy( dst->data, auxArray, bytes )] from a local array of [capacity]
    doubles, [src] being what has been written to it. *)
Definition memcpy_from_scratch (capacity : Z) (dst : Matrix)
    (src : list float) (bytes : Z) : M unit :=
  if decide (bytes / SIZEOF_DOUBLE <= capacity)
  then memcpy_from_array dst src bytes
  else fault.

(** [memcpy( dst->data, src->data, bytes )] between two matrices. *)
Definition memcpy_matrix (dst src : Matrix) (bytes : Z) : M unit :=
  let* s := get_data src in
  memcpy_from_array dst s bytes.

(** The byte count [rows * columns * sizeof(double)]. *)
Definition bytes_of (rows columns : Z) : Z :=
  size_mul (size_mul rows columns) SIZEOF_DOUBLE.

(** *** Local arrays *)

(** Every [auxArray] has [MATRIX_SIZE_MAX * MATRIX_SIZE_MAX] doubles. *)
Definition AUX_CAPACITY : Z := MATRIX_SIZE_MAX * MATRIX_SIZE_MAX.

(** [sizeof( auxArray )]: 50,000,000 bytes. *)
Definition sizeof_auxArray : Z := AUX_CAPACITY * SIZEOF_DOUBLE.

(** [sizeof( pivotArray )], for [int pivotArray[ MATRIX_SIZE_MAX ]]. *)
Definition sizeof_pivotArray : Z := MATRIX_SIZE_MAX * SIZEOF_INT.

(** The local arrays are automatic: they live on the stack of the process.
    [stack] is the room in bytes that the process has for them when the call
    is made, [Some limit] under a stack limit and [None] with the limit
    lifted.  An array takes its room when it is first written: on entry to
    the function for an array declared with an initialiser, at the first
    store into it otherwise.  [claim_stack stack bytes] is the point where
    the arrays in use come to [bytes] bytes; without that room the process is
    killed. *)
Definition claim_stack (stack : option Z) (bytes : Z) : M unit :=
  match stack with
  | None => ret tt
  | Some limit => if decide (bytes <= limit) then ret tt else fault
  end.

(** A local array declared with the initialiser [{ 0 }] and written at
    scattered indices. *)
Definition local_array : Type := Z -> float.

Definition zero_array : local_array := fun _ => 0%float.

Definition write_local (a : local_array) (i : Z) (x : float) : M local_array :=
  if decide (i < AUX_CAPACITY)
  then ret (fun j => if decide (j = i) then x else a j)
  else fault.

(** [memcpy( dst->data, auxArray, bytes )] from such an array. *)
Definition memcpy_from_local (dst : Matrix) (a : local_array) (bytes : Z)
  : M unit :=
  let* d := get_data dst in
  let n := Z.to_nat (bytes / SIZEOF_DOUBLE) in
  if decide (n <= length d)%nat then
    if decide (Z.of_nat n <= AUX_CAPACITY)
    then set_data dst (((fun i => a (Z.of_nat i)) <$> seq 0 n) ++ drop n d)
    else fault
  else fault.

(** ** Storage operations *)

Definition Mat_Clear (matrix : Matrix) : M Matrix :=
  match matrix with
  | None => ret None
  | Some _ =>
      let* rows := get_rows matrix in
      let* columns := get_columns matrix in
      memset_zero matrix (bytes_of rows columns);;
      ret matrix
  end.

Definition Mat_SetData (matrix : Matrix) (src : list float) : M unit :=
  match matrix with
  | None => ret tt
  | Some _ =>
      let* columns := get_columns matrix in
      let* rows := get_rows matrix in
      for_size columns (fun column _ =>
        for_size rows (fun row _ =>
          let* x := read_array src (size_add (size_mul row columns) column) in
          store matrix (size_add (size_mul column rows) row) x) tt) tt
  end.

Definition Mat_Create (src : option (list float)) (rows columns : Z)
  : M Matrix :=
  if (rows >? MATRIX_SIZE_MAX) || (columns >? MATRIX_SIZE_MAX) then ret None
  else
    let* newMatrix := malloc_MatrixData in
    set_data newMatrix (calloc (size_mul rows columns));;
    set_rows newMatrix rows;;
    set_columns newMatrix columns;;
    match src with
    | None => Mat_Clear newMatrix;; ret tt
    | Some values => Mat_SetData newMatrix values
    end;;
    ret newMatrix.

Definition Mat_CreateSquare (size : Z) (type : ascii) : M Matrix :=
  let* newSquareMatrix := Mat_Create None size size in
  (if Ascii.eqb type "I" then
     for_size size (fun line _ =>
       store newSquareMatrix (size_add (size_mul line size) line) 1%float) tt
   else ret tt);;
  ret newSquareMatrix.

Definition Mat_Discard (matrix : Matrix) : M unit :=
  match matrix with
  | None => ret tt
  | Some _ => free_MatrixData matrix
  end.

Definition Mat_Copy (source destination : Matrix) : M Matrix :=
  match source, destination with
  | Some _, Some _ =>
      let* rows := get_rows source in
      set_rows destination rows;;
      let* columns := get_columns source in
      set_columns destination columns;;
      let* dr := get_rows destination in
      let* dc := get_columns destination in
      memcpy_matrix destination source (bytes_of dr dc);;
      ret destination
  | _, _ => ret None
  end.

Definition Mat_GetWidth (matrix : Matrix) : M Z :=
  match matrix with
  | None => ret 0
  | Some _ => get_columns matrix
  end.

Definition Mat_GetHeight (matrix : Matrix) : M Z :=
  match matrix with
  | None => ret 0
  | Some _ => get_rows matrix
  end.

Definition Mat_GetElement (matrix : Matrix) (row column : Z) : M float :=
  match matrix with
  | None => ret 0%float
  | Some _ =>
      let* rows := get_rows matrix in
      let* columns := get_columns matrix in
      if (row >=? rows) || (column >=? columns) then ret 0%float
      else load matrix (size_add (size_mul column rows) row)
  end.

Definition Mat_SetElement (matrix : Matrix) (row column : Z) (value : float)
  : M unit :=
  match matrix with
  | None => ret tt
  | Some _ =>
      let* rows := get_rows matrix in
      let* columns := get_columns matrix in
      if (row >=? rows) || (column >=? columns) then ret tt
      else store matrix (size_add (size_mul column rows) row) value
  end.

(** The result is the returned pointer: [None] for [NULL], otherwise the
    caller's buffer with what it holds on return. *)
Definition Mat_GetData (matrix : Matrix) (buffer : list float)
  : M (option (list float)) :=
  match matrix with
  | None => ret None
  | Some _ =>
      let* rows := get_rows matrix in
      let* columns := get_columns matrix in
      let* filled :=
        for_size rows (fun row buffer =>
          for_size columns (fun column buffer =>
            let* x := load matrix (size_add (size_mul column rows) row) in
            write_array buffer (size_add (size_mul row columns) column) x)
          buffer) buffer in
      ret (Some filled)
  end.

(** In the functions that declare an [auxArray], [stack] is the room on the
    stack at the call.  Each of them has two names here: [..._within stack] is
    the function run with that room, and the plain name is the function run
    with the stack limit lifted. *)
Definition Mat_Resize_within (stack : option Z) (matrix : Matrix)
    (rows columns : Z) : M Matrix :=
  match matrix with
  | None => Mat_Create None rows columns
  | Some _ =>
      let* oldRows := get_rows matrix in
      let* oldColumns := get_columns matrix in
      (if size_mul oldRows oldColumns <? size_mul rows columns
       then realloc matrix (bytes_of rows columns)
       else ret tt);;
      claim_stack stack sizeof_auxArray;;
      let* auxArray :=
        memcpy_to_array AUX_CAPACITY matrix (bytes_of oldRows oldColumns) in
      memset_zero matrix (bytes_of rows columns);;
      for_size oldColumns (fun column _ =>
        for_size oldRows (fun row _ =>
          let* x :=
            read_array auxArray (size_add (size_mul column oldRows) row) in
          store matrix (size_add (size_mul column rows) row) x) tt) tt;;
      set_rows matrix rows;;
      set_columns matrix columns;;
      ret matrix
  end.

Definition Mat_Resize : Matrix -> Z -> Z -> M Matrix := Mat_Resize_within None.

(** ** Algebraic operations that need no external routine *)

Definition Mat_Scale (matrix : Matrix) (scalar : float) (result : Matrix)
  : M Matrix :=
  match matrix with
  | None => ret None
  | Some _ =>
      let* resultRows := get_rows result in
      let* resultColumns := get_columns result in
      let elementsNumber := size_mul resultRows resultColumns in
      for_size elementsNumber (fun elementIndex _ =>
        let* x := load matrix elementIndex in
        store result elementIndex (scalar * x)%float) tt;;
      let* rows := get_rows matrix in
      set_rows result rows;;
      let* columns := get_columns matrix in
      set_columns result columns;;
      ret result
  end.

Definition Mat_Sum (matrix_1 : Matrix) (weight_1 : float)
    (matrix_2 : Matrix) (weight_2 : float) (result : Matrix) : M Matrix :=
  match matrix_1, matrix_2 with
  | Some _, Some _ =>
      let* rows_1 := get_rows matrix_1 in
      let* rows_2 := get_rows matrix_2 in
      let* columns_1 := get_columns matrix_1 in
      let* columns_2 := get_columns matrix_2 in
      if negb (rows_1 =? rows_2) || negb (columns_1 =? columns_2)
      then ret None
      else
        let* rows := get_rows matrix_1 in
        set_rows result rows;;
        let* columns := get_columns matrix_1 in
        set_columns result columns;;
        let* resultRows := get_rows result in
        let* resultColumns := get_columns result in
        let elementsNumber := size_mul resultRows resultColumns in
        for_size elementsNumber (fun elementIndex _ =>
          let* x := load matrix_1 elementIndex in
          let* y := load matrix_2 elementIndex in
          store result elementIndex (weight_1 * x + weight_2 * y)%float) tt;;
        ret result
  | _, _ => ret None
  end.

(** [auxArray] is declared with the initialiser [{ 0 }]: all of it is written
    on entry, before the test of [matrix]. *)
Definition Mat_Transpose_within (stack : option Z) (matrix result : Matrix)
  : M Matrix :=
  claim_stack stack sizeof_auxArray;;
  match matrix with
  | None => ret None
  | Some _ =>
      let* columns := get_columns matrix in
      set_rows result columns;;
      let* rows := get_rows matrix in
      set_columns result rows;;
      let* resultRows := get_rows result in
      let* resultColumns := get_columns result in
      let* auxArray :=
        for_size resultRows (fun row auxArray =>
          for_size resultColumns (fun column auxArray =>
            let* stride := get_rows matrix in
            let* x := load matrix (size_add (size_mul row stride) column) in
            write_local auxArray
              (size_add (size_mul column resultRows) row) x)
          auxArray) zero_array in
      memcpy_from_local result auxArray (bytes_of resultRows resultColumns);;
      ret result
  end.

Definition Mat_Transpose : Matrix -> Matrix -> M Matrix :=
  Mat_Transpose_within None.

(** ** Operations that call BLAS and LAPACK *)

Section Kernels.

(** [dgemm_( tA, tB, m, n, k, alpha, A, ldA, B, ldB, beta, C, ldC )].  The
    code passes an uninitialised [C] together with [beta = 0.0], so the
    routine is a function of the remaining arguments; it yields what it has
    written to [C].  BLAS declares the arrays as [A( ldA, ka )],
    [B( ldB, kb )] and [C( ldC, n )], where [ka] is [k] for an operand taken
    as it is and [m] for a transposed one, and [kb] is [n] or [k]. *)
Variable dgemm_ :
  ascii -> ascii -> Z -> Z -> Z -> float -> list float -> Z ->
  list float -> Z -> float -> Z -> list float.

(** [dgetrf_( M, N, A, ldA, IPIV, INFO )] yields [A], [IPIV] and [INFO] as
    they are on return.  LAPACK declares the arrays as [A( ldA, N )] and
    [IPIV( min( M, N ) )]. *)
Variable dgetrf_ : Z -> Z -> list float -> Z -> list float * list Z * Z.

(** [dgetri_( N, A, ldA, IPIV, WORK, lwork, INFO )] yields [A] and [INFO]
    as they are on return; [WORK( lwork )] is scratch space. *)
Variable dgetri_ : Z -> list float -> Z -> list Z -> Z -> list float * Z.

Definition is_transpose (flag : ascii) : bool := Ascii.eqb flag MATRIX_TRANSPOSE.

(** An array that is shorter than the routine takes it to be is read or
    written past its end.  [dgemm_] is the first to write [auxArray]. *)
Definition Mat_Dot_within (stack : option Z) (matrix_1 : Matrix)
    (transpose_1 : ascii) (matrix_2 : Matrix) (transpose_2 : ascii)
    (result : Matrix) : M Matrix :=
  let alpha := 1%float in
  let beta := 0%float in
  match matrix_1, matrix_2 with
  | Some _, Some _ =>
      let* rows_1 := get_rows matrix_1 in
      let* columns_1 := get_columns matrix_1 in
      let couplingLength :=
        if is_transpose transpose_1 then rows_1 else columns_1 in
      let* rows_2 := get_rows matrix_2 in
      let* columns_2 := get_columns matrix_2 in
      if negb (couplingLength =?
               (if is_transpose transpose_2 then columns_2 else rows_2))
      then ret None
      else
        set_rows result
          (if is_transpose transpose_1 then columns_1 else rows_1);;
        let* rows_2 := get_rows matrix_2 in
        let* columns_2 := get_columns matrix_2 in
        set_columns result
          (if is_transpose transpose_2 then rows_2 else columns_2);;
        let* resultRows := get_rows result in
        let* resultColumns := get_columns result in
        let stride_1 :=
          int_of_size (if is_transpose transpose_1 then couplingLength
                       else resultRows) in
        let stride_2 :=
          int_of_size (if is_transpose transpose_2 then resultColumns
                       else couplingLength) in
        let* A := get_data matrix_1 in
        let* B := get_data matrix_2 in
        let m := int_of_size resultRows in
        let n := int_of_size resultColumns in
        let k := int_of_size couplingLength in
        claim_stack stack sizeof_auxArray;;
        if decide (stride_1 * (if is_transpose transpose_1 then m else k)
                     <= Z.of_nat (length A) /\
                   stride_2 * (if is_transpose transpose_2 then k else n)
                     <= Z.of_nat (length B) /\
                   m * n <= AUX_CAPACITY)
        then
          let auxArray :=
            dgemm_ transpose_1 transpose_2 m n k
              alpha A stride_1 B stride_2 beta m in
          memcpy_from_scratch AUX_CAPACITY result auxArray
            (bytes_of resultRows resultColumns);;
          ret result
        else fault
  | _, _ => ret None
  end.

Definition Mat_Dot :
  Matrix -> ascii -> Matrix -> ascii -> Matrix -> M Matrix :=
  Mat_Dot_within None.

Definition Mat_Determinant_within (stack : option Z) (matrix : Matrix)
  : M float :=
  match matrix with
  | None => ret 0%float
  | Some _ =>
      let* rows := get_rows matrix in
      let* columns := get_columns matrix in
      if negb (rows =? columns) then ret 0%float
      else
        claim_stack stack sizeof_auxArray;;
        let* copied :=
          memcpy_to_array AUX_CAPACITY matrix (bytes_of rows columns) in
        claim_stack stack (sizeof_auxArray + sizeof_pivotArray);;
        let '(auxArray, pivotArray, info) :=
          dgetrf_ (int_of_size rows) (int_of_size columns) copied
            (int_of_size rows) in
        for_size rows (fun pivotIndex determinant =>
          let* x :=
            read_array auxArray
              (size_add (size_mul pivotIndex rows) pivotIndex) in
          let determinant := (determinant * x)%float in
          let* pivot := read_array pivotArray pivotIndex in
          if negb (size_of_int pivot =? pivotIndex)
          then ret (determinant * -1)%float
          else ret determinant) 1%float
  end.

Definition Mat_Determinant : Matrix -> M float := Mat_Determinant_within None.

(** [auxArray] is declared with the initialiser [{ 0 }], as in
    [Mat_Transpose].  [IPIV] is [pivotArray[ MATRIX_SIZE_MAX ]] and [WORK] is
    [auxArray]. *)
Definition Mat_Inverse_within (stack : option Z) (matrix result : Matrix)
  : M Matrix :=
  claim_stack stack sizeof_auxArray;;
  match matrix, result with
  | Some _, Some _ =>
      let* rows := get_rows matrix in
      let* columns := get_columns matrix in
      if negb (rows =? columns) then ret None
      else
        (if decide (matrix = result) then ret tt
         else
           set_rows result rows;;
           set_columns result columns;;
           memcpy_matrix result matrix (bytes_of rows columns));;
        let* resultRows := get_rows result in
        let* resultColumns := get_columns result in
        let* buffer := get_data result in
        claim_stack stack (sizeof_auxArray + sizeof_pivotArray);;
        if decide (int_of_size resultRows * int_of_size resultColumns
                     <= Z.of_nat (length buffer) /\
                   Z.min (int_of_size resultRows) (int_of_size resultColumns)
                     <= MATRIX_SIZE_MAX)
        then
          let '(factors, pivotArray, info) :=
            dgetrf_ (int_of_size resultRows) (int_of_size resultColumns)
              buffer (int_of_size resultRows) in
          set_data result factors;;
          if negb (info =? 0) then ret None
          else
            let workLength :=
              int_of_size (size_mul resultRows resultColumns) in
            if decide (workLength <= AUX_CAPACITY)
            then
              let '(inverse, info) :=
                dgetri_ (int_of_size resultRows) factors
                  (int_of_size resultRows) pivotArray workLength in
              set_data result inverse;;
              if negb (info =? 0) then ret None
              else ret result
            else fault
        else fault
  | _, _ => ret None
  end.

Definition Mat_Inverse : Matrix -> Matrix -> M Matrix :=
  Mat_Inverse_within None.

End Kernels.

(** * Properties *)

(** ** Well-formed matrices *)

(** [m] points to the live struct [d] of heap [h]. *)
Definition points_to (h : heap) (m : Matrix) (d : MatrixData) : Prop :=
  exists l, m = Some l /\ h !! l = Some (Some d).

(** The buffer holds at least [rows * columns] doubles, and its size in
    bytes is a [size_t]. *)
Definition well_formed (d : MatrixData) : Prop :=
  0 <= rowsNumber d /\ 0 <= columnsNumber d /\
  rowsNumber d * columnsNumber d <= Z.of_nat (length (data d)) /\
  Z.of_nat (length (data d)) * SIZEOF_DOUBLE < SIZE_MODULUS.

(** ** The algebraic operations as calls *)

Inductive algebraic_call : Type :=
| Call_Scale (matrix : Matrix) (scalar : float) (result : Matrix)
| Call_Sum (matrix_1 : Matrix) (weight_1 : float)
    (matrix_2 : Matrix) (weight_2 : float) (result : Matrix)
| Call_Dot (matrix_1 : Matrix) (transpose_1 : ascii)
    (matrix_2 : Matrix) (transpose_2 : ascii) (result : Matrix)
| Call_Transpose (matrix result : Matrix)
| Call_Inverse (matrix result : Matrix).

Section Calls.

Variable dgemm_ :
  ascii -> ascii -> Z -> Z -> Z -> float -> list float -> Z ->
  list float -> Z -> float -> Z -> list float.
Variable dgetrf_ : Z -> Z -> list float -> Z -> list float * list Z * Z.
Variable dgetri_ : Z -> list float -> Z -> list Z -> Z -> list float * Z.

(** The call made with [stack] bytes of room on the stack. *)
Definition run_call (stack : option Z) (call : algebraic_call) : M Matrix :=
  match call with
  | Call_Scale matrix scalar result => Mat_Scale matrix scalar result
  | Call_Sum matrix_1 weight_1 matrix_2 weight_2 result =>
      Mat_Sum matrix_1 weight_1 matrix_2 weight_2 result
  | Call_Dot matrix_1 transpose_1 matrix_2 transpose_2 result =>
      Mat_Dot_within dgemm_ stack matrix_1 transpose_1 matrix_2 transpose_2
        result
  | Call_Transpose matrix result => Mat_Transpose_within stack matrix result
  | Call_Inverse matrix result =>
      Mat_Inverse_within dgetrf_ dgetri_ stack matrix result
  end.

End Calls.



(** ** The stack *)

(** The stack has room for [bytes] bytes of local arrays: [sizeof_auxArray]
    in a function that declares [auxArray], and [sizeof_pivotArray] more in
    one that declares [pivotArray] as well. *)
Definition stack_has_room (stack : option Z) (bytes : Z) : Prop :=
  match stack with
  | None => True
  | Some limit => bytes <= limit
  end.


(** The stack limit of a process that has not raised it: 8 MiB. *)
Definition DEFAULT_STACK : Z := 8 * 1024 * 1024.

(** A stack limit raised to 64 MiB. *)
Definition RAISED_STACK : Z := 64 * 1024 * 1024.

(** ** Observations and test values *)

(** The dimensions and the capacity of the matrix an operation returned. *)
Definition shape_of (o : outcome Matrix) : option (Z * Z * nat) :=
  match o with
  | Done (Some l) h =>
      match h !! l with
      | Some (Some d) => Some (rowsNumber d, columnsNumber d, length (data d))
      | _ => None
      end
  | _ => None
  end.

(** The buffer of the matrix an operation returned. *)
Definition contents_of (o : outcome Matrix) : option (list float) :=
  match o with
  | Done (Some l) h =>
      match h !! l with
      | Some (Some d) => Some (data d)
      | _ => None
      end
  | _ => None
  end.

(** What LAPACK's [dgetrf_] returns for a matrix in which no column needs a
    row interchange or an elimination step, as is the case for an identity
    matrix: the factors are the input, pivot [i] is row [i] counted from 1,
    and [INFO] is 0. *)
Definition dgetrf_no_interchange (m n : Z) (a : list float) (lda : Z)
  : list float * list Z * Z :=
  (a, Z.of_nat <$> seq 1 (Z.to_nat (Z.min m n)), 0).

(** The column-major buffer of the identity matrix of order [n]. *)
Definition identity_buffer (n : Z) : list float :=
  (fun k : nat =>
     if Z.of_nat k mod n =? Z.of_nat k / n then 1%float else 0%float)
  <$> seq 0 (Z.to_nat (n * n)).

(** The same with only the first [i] diagonal elements set. *)
Definition partial_identity_buffer (n i : Z) : list float :=
  (fun k : nat =>
     if (Z.of_nat k mod n =? Z.of_nat k / n) && (Z.of_nat k / n <? i)
     then 1%float else 0%float)
  <$> seq 0 (Z.to_nat (n * n)).

(** A command that leaves the heap as it found it whenever it completes. *)
Definition preserves_heap {A} (c : M A) : Prop :=
  forall h a h', c h = Done a h' -> h' = h.

(** The product that [Mat_Determinant] accumulates over the first [k]
    diagonal elements of the factors when every pivot differs from its
    index: each factor comes with a change of sign. *)
Fixpoint flipped_diagonal_product (factors : list float) (n : Z) (k : nat)
  : float :=
  match k with
  | O => 1%float
  | S k' =>
      (flipped_diagonal_product factors n k'
       * default 0%float (factors !! Z.to_nat (Z.of_nat k' * n + Z.of_nat k'))
       * -1)%float
  end.

(** ** Index arithmetic *)

Lemma size_wrap_small x : 0 <= x < SIZE_MODULUS -> size_wrap x = x.
Proof. intros. unfold size_wrap. apply Z.mod_small. assumption. Qed.

Lemma cell_index_bound r c R C :
  0 <= r < R -> 0 <= c < C -> 0 <= c * R + r < R * C.
Proof. intros. nia. Qed.

Lemma cell_index_wrap r c R C :
  0 <= r < R -> 0 <= c < C -> R * C < SIZE_MODULUS ->
  size_add (size_mul c R) r = c * R + r.
Proof.
  intros Hr Hc Hlt.
  pose proof (cell_index_bound r c R C Hr Hc) as Hb.
  unfold size_add, size_mul.
  rewrite (size_wrap_small (c * R)) by nia.
  apply size_wrap_small. lia.
Qed.

Lemma cell_index_inj r c r' c' R :
  0 <= r < R -> 0 <= r' < R -> c * R + r = c' * R + r' -> r = r' /\ c = c'.
Proof.
  intros Hr Hr' He.
  assert (c = c') as ->.
  { destruct (Z.lt_trichotomy c c') as [Hlt|[Heq|Hgt]]; [|exact Heq|].
    - assert (0 <= (c' - c - 1) * R) by (apply Z.mul_nonneg_nonneg; lia). lia.
    - assert (0 <= (c - c' - 1) * R) by (apply Z.mul_nonneg_nonneg; lia). lia. }
  split; [lia|reflexivity].
Qed.

Lemma well_formed_count d :
  well_formed d -> rowsNumber d * columnsNumber d < SIZE_MODULUS.
Proof. unfold well_formed, SIZEOF_DOUBLE. intros (? & ? & ? & ?). lia. Qed.

(** ** Running the monad *)

Lemma bind_Done {A B} (c : M A) (k : A -> M B) h a h' :
  c h = Done a h' -> bind c k h = k a h'.
Proof. unfold bind. intros ->. reflexivity. Qed.

(** Run the first command of a sequence, given what it evaluates to. *)
Tactic Notation "step" uconstr(H) := rewrite (bind_Done _ _ _ _ _ H).

Lemma deref_live h l d :
  h !! l = Some (Some d) -> deref (Some l) h = Done d h.
Proof. unfold deref. intros ->. reflexivity. Qed.

Lemma get_rows_live h l d :
  h !! l = Some (Some d) -> get_rows (Some l) h = Done (rowsNumber d) h.
Proof. intros H. unfold get_rows. step (deref_live _ _ _ H). reflexivity. Qed.

Lemma get_columns_live h l d :
  h !! l = Some (Some d) -> get_columns (Some l) h = Done (columnsNumber d) h.
Proof. intros H. unfold get_columns. step (deref_live _ _ _ H). reflexivity. Qed.

Lemma load_live h l d i x :
  h !! l = Some (Some d) -> data d !! Z.to_nat i = Some x ->
  load (Some l) i h = Done x h.
Proof.
  intros H Hx. unfold load.
  rewrite (bind_Done _ _ _ _ _ (deref_live _ _ _ H)), Hx. reflexivity.
Qed.

Lemma store_live h l d i x :
  h !! l = Some (Some d) -> (Z.to_nat i < length (data d))%nat ->
  store (Some l) i x h =
  Done tt (<[l := Some (mkMatrixData (<[Z.to_nat i := x]> (data d))
                          (rowsNumber d) (columnsNumber d))]> h).
Proof.
  intros H Hi. unfold store.
  step (deref_live _ _ _ H).
  destruct (decide _) as [_|]; [|contradiction].
  unfold set_data. step (deref_live _ _ _ H).
  unfold assign. rewrite H. reflexivity.
Qed.

(** A loop runs to completion and establishes its invariant when every
    iteration does. *)
Lemma loop_from_inv {S : Type} (I : Z -> S -> heap -> Prop)
    (body : Z -> S -> M S) (n : nat) :
  forall i s h,
    I i s h ->
    (forall j s h, i <= j < i + Z.of_nat n -> I j s h ->
       exists s' h', body j s h = Done s' h' /\ I (j + 1) s' h') ->
    exists s' h', loop_from n i body s h = Done s' h' /\
                  I (i + Z.of_nat n) s' h'.
Proof.
  induction n as [|n IH]; intros i s h Hi Hstep.
  - exists s, h. split; [reflexivity|]. replace (i + Z.of_nat 0) with i by lia. exact Hi.
  - destruct (Hstep i s h ltac:(lia) Hi) as (s1 & h1 & Hb & Hi1).
    destruct (IH (i + 1) s1 h1 Hi1) as (s2 & h2 & Hl & Hi2).
    { intros j s' h' Hj. apply Hstep. lia. }
    exists s2, h2. split.
    + cbn [loop_from]. step Hb. exact Hl.
    + replace (i + Z.of_nat (Datatypes.S n)) with (i + 1 + Z.of_nat n) by lia.
      exact Hi2.
Qed.

Lemma for_size_inv {S : Type} (I : Z -> S -> heap -> Prop)
    (body : Z -> S -> M S) (bound : Z) s h :
  0 <= bound ->
  I 0 s h ->
  (forall j s h, 0 <= j < bound -> I j s h ->
     exists s' h', body j s h = Done s' h' /\ I (j + 1) s' h') ->
  exists s' h', for_size bound body s h = Done s' h' /\ I bound s' h'.
Proof.
  intros Hb H0 Hstep. unfold for_size.
  destruct (loop_from_inv I body (Z.to_nat bound) 0 s h H0) as (s' & h' & Hl & Hi).
  { intros j s1 h1 Hj. apply Hstep. lia. }
  exists s', h'. split; [exact Hl|].
  replace (0 + Z.of_nat (Z.to_nat bound)) with bound in Hi by lia. exact Hi.
Qed.

Lemma Mat_GetElement_in_bounds h l d r c x :
  h !! l = Some (Some d) -> well_formed d ->
  0 <= r < rowsNumber d -> 0 <= c < columnsNumber d ->
  data d !! Z.to_nat (c * rowsNumber d + r) = Some x ->
  Mat_GetElement (Some l) r c h = Done x h.
Proof.
  intros Hl Hwf Hr Hc Hx. unfold Mat_GetElement.
  step (get_rows_live _ _ _ Hl).
  step (get_columns_live _ _ _ Hl).
  replace (r >=? rowsNumber d) with false by lia.
  replace (c >=? columnsNumber d) with false by lia.
  cbn [orb].
  rewrite (cell_index_wrap r c _ _ Hr Hc (well_formed_count d Hwf)).
  apply (load_live _ _ _ _ _ Hl Hx).
Qed.

Lemma Mat_GetElement_out_of_bounds h l d r c :
  h !! l = Some (Some d) ->
  rowsNumber d <= r \/ columnsNumber d <= c ->
  Mat_GetElement (Some l) r c h = Done 0%float h.
Proof.
  intros Hl Hout. unfold Mat_GetElement.
  step (get_rows_live _ _ _ Hl).
  step (get_columns_live _ _ _ Hl).
  destruct Hout.
  - replace (r >=? rowsNumber d) with true by lia. reflexivity.
  - replace (c >=? columnsNumber d) with true by lia.
    rewrite orb_true_r. reflexivity.
Qed.

Lemma cell_in_buffer d r c :
  well_formed d -> 0 <= r < rowsNumber d -> 0 <= c < columnsNumber d ->
  (Z.to_nat (c * rowsNumber d + r) < length (data d))%nat.
Proof.
  intros (_ & _ & Hlen & _) Hr Hc.
  pose proof (cell_index_bound r c _ _ Hr Hc). lia.
Qed.

(** C10: after [Mat_SetElement] at an in-bounds position of a live matrix,
    [Mat_GetElement] at that position returns the stored value, while
    [Mat_GetElement] at every other position, and the dimensions, are what
    they were before. *)
Theorem Mat_SetElement_then_GetElement :
  forall (h : heap) (m : Matrix) (d : MatrixData) (row column : Z) (v : float),
    points_to h m d -> well_formed d ->
    0 <= row < rowsNumber d -> 0 <= column < columnsNumber d ->
    exists h',
      Mat_SetElement m row column v h = Done tt h' /\
      Mat_GetElement m row column h' = Done v h' /\
      (forall r c, 0 <= r -> 0 <= c -> (r, c) <> (row, column) ->
         exists x, Mat_GetElement m r c h = Done x h /\
                   Mat_GetElement m r c h' = Done x h') /\
      Mat_GetHeight m h' = Done (rowsNumber d) h' /\
      Mat_GetWidth m h' = Done (columnsNumber d) h'.
Proof.
  intros h m d row column v (l & -> & Hl) Hwf Hrow Hcol.
  set (idx := column * rowsNumber d + row).
  set (d' := mkMatrixData (<[Z.to_nat idx := v]> (data d))
               (rowsNumber d) (columnsNumber d)).
  pose proof (cell_in_buffer d row column Hwf Hrow Hcol) as Hidx.
  assert (Hl' : <[l := Some d']> h !! l = Some (Some d')).
  { apply list_lookup_insert_eq. eapply lookup_lt_Some. exact Hl. }
  assert (Hwf' : well_formed d').
  { unfold well_formed, d'. cbn. rewrite length_insert. exact Hwf. }
  exists (<[l := Some d']> h). repeat split.
  - unfold Mat_SetElement.
    step (get_rows_live _ _ _ Hl).
    step (get_columns_live _ _ _ Hl).
    replace (row >=? rowsNumber d) with false by lia.
    replace (column >=? columnsNumber d) with false by lia.
    cbn [orb].
    rewrite (cell_index_wrap row column _ _ Hrow Hcol (well_formed_count d Hwf)).
    apply (store_live _ _ _ _ _ Hl Hidx).
  - apply (Mat_GetElement_in_bounds _ _ d'); try assumption.
    cbn. apply list_lookup_insert_eq. exact Hidx.
  - intros r c Hr Hc Hne.
    destruct (Z_lt_le_dec r (rowsNumber d)) as [Hr'|Hr'];
      [destruct (Z_lt_le_dec c (columnsNumber d)) as [Hc'|Hc']|].
    + pose proof (cell_in_buffer d r c Hwf ltac:(lia) ltac:(lia)) as Hin.
      destruct (lookup_lt_is_Some_2 _ _ Hin) as [x Hx].
      exists x. split.
      * apply (Mat_GetElement_in_bounds _ _ d); try assumption; lia.
      * apply (Mat_GetElement_in_bounds _ _ d'); try assumption; try (cbn; lia).
        cbn. rewrite list_lookup_insert_ne; [exact Hx|].
        intros Heq. apply Hne.
        assert (idx = c * rowsNumber d + r) as Hi.
        { pose proof (cell_index_bound r c _ _ ltac:(split; [exact Hr|exact Hr']) ltac:(split; [exact Hc|exact Hc'])).
          pose proof (cell_index_bound row column _ _ Hrow Hcol).
          unfold idx in *. lia. }
        unfold idx in Hi.
        destruct (cell_index_inj row column r c (rowsNumber d)) as [-> ->];
          [lia|lia|exact Hi|reflexivity].
    + exists 0%float. split.
      * apply (Mat_GetElement_out_of_bounds _ _ d); [assumption|]. right. lia.
      * apply (Mat_GetElement_out_of_bounds _ _ d'); [assumption|]. right. cbn. lia.
    + exists 0%float. split.
      * apply (Mat_GetElement_out_of_bounds _ _ d); [assumption|]. left. lia.
      * apply (Mat_GetElement_out_of_bounds _ _ d'); [assumption|]. left. cbn. lia.
  - unfold Mat_GetHeight. apply (get_rows_live _ _ d'). exact Hl'.
  - unfold Mat_GetWidth. apply (get_columns_live _ _ d'). exact Hl'.
Qed.

(** The theorem at the cell (1, 0) of a 2 x 2 matrix. *)
Lemma Mat_SetElement_then_GetElement_witness :
  let d := mkMatrixData [1; 2; 3; 4]%float 2 2 in
  exists h',
    Mat_SetElement (Some 0%nat) 1 0 9%float [Some d] = Done tt h' /\
    Mat_GetElement (Some 0%nat) 1 0 h' = Done 9%float h' /\
    (forall r c, 0 <= r -> 0 <= c -> (r, c) <> (1, 0) ->
       exists x, Mat_GetElement (Some 0%nat) r c [Some d] = Done x [Some d] /\
                 Mat_GetElement (Some 0%nat) r c h' = Done x h') /\
    Mat_GetHeight (Some 0%nat) h' = Done 2 h' /\
    Mat_GetWidth (Some 0%nat) h' = Done 2 h'.
Proof.
  intros d.
  apply (Mat_SetElement_then_GetElement [Some d] (Some 0%nat) d 1 0 9%float).
  - exists 0%nat. split; reflexivity.
  - unfold well_formed. cbn. unfold SIZEOF_DOUBLE, SIZE_MODULUS. lia.
  - cbn. lia.
  - cbn. lia.
Defined.

Lemma claim_stack_fits stack bytes h :
  stack_has_room stack bytes -> claim_stack stack bytes h = Done tt h.
Proof.
  intros Hroom. destruct stack as [limit|]; [|reflexivity].
  unfold claim_stack. cbn in Hroom.
  destruct (decide _); [reflexivity|contradiction].
Qed.

Lemma claim_stack_room stack h :
  stack_has_room stack sizeof_auxArray ->
  claim_stack stack sizeof_auxArray h = Done tt h.
Proof. apply claim_stack_fits. Qed.

Lemma claim_stack_room_pivots stack h :
  stack_has_room stack (sizeof_auxArray + sizeof_pivotArray) ->
  claim_stack stack (sizeof_auxArray + sizeof_pivotArray) h = Done tt h.
Proof. apply claim_stack_fits. Qed.

Lemma stack_has_room_auxArray stack :
  stack_has_room stack (sizeof_auxArray + sizeof_pivotArray) ->
  stack_has_room stack sizeof_auxArray.
Proof.
  destruct stack as [limit|]; [|trivial]. cbn.
  assert (0 <= sizeof_pivotArray) by (vm_compute; discriminate). lia.
Qed.

Lemma claim_stack_short limit h :
  limit < sizeof_auxArray -> claim_stack (Some limit) sizeof_auxArray h = Fault.
Proof.
  intros Hshort. unfold claim_stack.
  destruct (decide _); [lia|reflexivity].
Qed.



(** ** Bulk import and export *)

Lemma read_array_Some {A} (a : list A) i x :
  a !! Z.to_nat i = Some x -> forall h, read_array a i h = Done x h.
Proof. intros Hx h. unfold read_array. rewrite Hx. reflexivity. Qed.

Lemma write_array_in {A} (a : list A) i x :
  (Z.to_nat i < length a)%nat ->
  forall h, write_array a i x h = Done (<[Z.to_nat i := x]> a) h.
Proof.
  intros Hi h. unfold write_array.
  destruct (decide _); [reflexivity|contradiction].
Qed.

Lemma heap_insert_live (h : heap) l (d d' : MatrixData) :
  h !! l = Some (Some d) -> <[l := Some d']> h !! l = Some (Some d').
Proof. intros H. apply list_lookup_insert_eq. eapply lookup_lt_Some, H. Qed.

(** [Mat_SetData] stores element [(r, c)] of the row-major array at offset
    [c * rows + r] and keeps the capacity and the dimensions. *)
Lemma Mat_SetData_spec h l d (X : list float) :
  h !! l = Some (Some d) -> well_formed d ->
  rowsNumber d * columnsNumber d <= Z.of_nat (length X) ->
  exists buf,
    Mat_SetData (Some l) X h =
      Done tt (<[l := Some (mkMatrixData buf (rowsNumber d) (columnsNumber d))]> h) /\
    length buf = length (data d) /\
    forall r c, 0 <= r < rowsNumber d -> 0 <= c < columnsNumber d ->
      buf !! Z.to_nat (c * rowsNumber d + r) =
      X !! Z.to_nat (r * columnsNumber d + c).
Proof.
  intros Hl Hwf HX.
  pose proof (well_formed_count d Hwf) as Hcount.
  destruct Hwf as (HR & HC & Hlen & Hbytes).
  set (R := rowsNumber d) in *. set (C := columnsNumber d) in *.
  unfold Mat_SetData.
  step (get_columns_live _ _ _ Hl).
  step (get_rows_live _ _ _ Hl).
  fold R C.
  set (filled := fun (c0 r0 : Z) (buf : list float) =>
    forall r c, 0 <= r < R -> 0 <= c ->
      c < c0 \/ (c = c0 /\ r < r0) ->
      buf !! Z.to_nat (c * R + r) = X !! Z.to_nat (r * C + c)).
  set (Inv := fun (c0 r0 : Z) (_ : unit) (h1 : heap) =>
    exists buf, h1 = <[l := Some (mkMatrixData buf R C)]> h /\
                length buf = length (data d) /\ filled c0 r0 buf).
  destruct (for_size_inv (fun c0 => Inv c0 0) 
              (fun column (_ : unit) =>
                 for_size R (fun row (_ : unit) =>
                   let* x := read_array X (size_add (size_mul row C) column) in
                   store (Some l) (size_add (size_mul column R) row) x) tt)
              C tt h HC) as ([] & h' & Hrun & buf & -> & Hlenb & Hfill).
  - exists (data d). split; [|split; [reflexivity|]].
    + symmetry. apply list_insert_id. rewrite Hl. destruct d; reflexivity.
    + intros r c Hr Hc [Hlt|[_ Hlt]]; lia.
  - intros c0 [] h1 Hc0 Hinv.
    destruct (for_size_inv (fun r0 => Inv c0 r0)
                (fun row (_ : unit) =>
                   let* x := read_array X (size_add (size_mul row C) c0) in
                   store (Some l) (size_add (size_mul c0 R) row) x)
                R tt h1 HR Hinv) as ([] & h2 & Hrun & buf & -> & Hlenb & Hfill).
    + intros r0 [] h2 Hr0 (buf & -> & Hlenb & Hfill).
      pose proof (cell_index_bound r0 c0 R C Hr0 Hc0) as Hb.
      pose proof (cell_index_bound c0 r0 C R Hc0 Hr0) as Hb'.
      rewrite (cell_index_wrap c0 r0 C R Hc0 Hr0) by lia.
      rewrite (cell_index_wrap r0 c0 R C Hr0 Hc0) by lia.
      destruct (lookup_lt_is_Some_2 X (Z.to_nat (r0 * C + c0)) ltac:(lia)) as [x Hx].
      exists tt. eexists. split.
      * step (read_array_Some _ _ _ Hx _).
        apply (store_live _ _ _ _ _ (heap_insert_live _ _ _ _ Hl)). cbn. lia.
      * cbn [data rowsNumber columnsNumber].
        exists (<[Z.to_nat (c0 * R + r0) := x]> buf).
        split; [apply list_insert_insert_eq|].
        split; [rewrite length_insert; exact Hlenb|].
        intros r c Hr Hc Hcase.
        destruct (decide (c = c0 /\ r = r0)) as [[-> ->]|Hne].
        -- rewrite list_lookup_insert_eq by lia. symmetry. exact Hx.
        -- rewrite list_lookup_insert_ne.
           ++ apply Hfill; [assumption|assumption|]. lia.
           ++ intros Heq. apply Hne.
              assert (c0 * R + r0 = c * R + r) as Hi.
              { assert (0 <= c * R) by (apply Z.mul_nonneg_nonneg; lia). lia. }
              destruct (cell_index_inj r0 c0 r c R) as [-> ->];
                [lia|lia|exact Hi|split; reflexivity].
    + exists tt, (<[l := Some (mkMatrixData buf R C)]> h). split; [exact Hrun|].
      exists buf. split; [reflexivity|]. split; [exact Hlenb|].
      intros r c Hr Hc Hcase. apply Hfill; [assumption|assumption|]. lia.
  - exists buf. split; [exact Hrun|]. split; [exact Hlenb|].
    intros r c Hr Hc. apply Hfill; [assumption|lia|]. lia.
Qed.

(** [Mat_GetData] writes the element stored at offset [c * rows + r] to
    position [r * columns + c] of the buffer, touches nothing past
    [rows * columns] and leaves the heap alone. *)
Lemma Mat_GetData_spec h l d (buffer : list float) :
  h !! l = Some (Some d) -> well_formed d ->
  rowsNumber d * columnsNumber d <= Z.of_nat (length buffer) ->
  exists out,
    Mat_GetData (Some l) buffer h = Done (Some out) h /\
    length out = length buffer /\
    (forall r c, 0 <= r < rowsNumber d -> 0 <= c < columnsNumber d ->
       out !! Z.to_nat (r * columnsNumber d + c) =
       data d !! Z.to_nat (c * rowsNumber d + r)) /\
    (forall i : nat, rowsNumber d * columnsNumber d <= Z.of_nat i ->
       out !! i = buffer !! i).
Proof.
  intros Hl Hwf Hbuf.
  pose proof (well_formed_count d Hwf) as Hcount.
  pose proof Hwf as (HR & HC & Hlen & Hbytes).
  set (R := rowsNumber d) in *. set (C := columnsNumber d) in *.
  unfold Mat_GetData.
  step (get_rows_live _ _ _ Hl).
  step (get_columns_live _ _ _ Hl).
  fold R C.
  set (Inv := fun (r0 c0 : Z) (out : list float) (h1 : heap) =>
    h1 = h /\ length out = length buffer /\
    (forall r c, 0 <= r -> 0 <= c < C ->
       r < r0 \/ (r = r0 /\ c < c0) ->
       out !! Z.to_nat (r * C + c) = data d !! Z.to_nat (c * R + r)) /\
    (forall i : nat, r0 * C + c0 <= Z.of_nat i -> out !! i = buffer !! i)).
  destruct (for_size_inv (fun r0 => Inv r0 0)
              (fun row buffer =>
                 for_size C (fun column buffer =>
                   let* x := load (Some l) (size_add (size_mul column R) row) in
                   write_array buffer (size_add (size_mul row C) column) x)
                 buffer)
              R buffer h HR) as (out & h' & Hrun & -> & Hleno & Hfill & Hrest).
  - split; [reflexivity|]. split; [reflexivity|]. split.
    + intros r c Hr Hc [Hlt|[_ Hlt]]; lia.
    + reflexivity.
  - intros r0 out h1 Hr0 Hinv.
    destruct (for_size_inv (fun c0 => Inv r0 c0)
                (fun column buffer =>
                   let* x := load (Some l) (size_add (size_mul column R) r0) in
                   write_array buffer (size_add (size_mul r0 C) column) x)
                C out h1 HC Hinv)
      as (out' & h2 & Hrun & -> & Hleno & Hfill & Hrest).
    + intros c0 out1 h2 Hc0 (-> & Hleno & Hfill & Hrest).
      pose proof (cell_index_bound r0 c0 R C Hr0 Hc0) as Hb.
      pose proof (cell_index_bound c0 r0 C R Hc0 Hr0) as Hb'.
      rewrite (cell_index_wrap c0 r0 C R Hc0 Hr0) by lia.
      rewrite (cell_index_wrap r0 c0 R C Hr0 Hc0) by lia.
      destruct (lookup_lt_is_Some_2 (data d) (Z.to_nat (c0 * R + r0))
                  ltac:(lia)) as [x Hx].
      exists (<[Z.to_nat (r0 * C + c0) := x]> out1), h. split.
      * step (load_live _ _ _ _ _ Hl Hx).
        apply write_array_in. lia.
      * split; [reflexivity|]. split; [rewrite length_insert; exact Hleno|].
        split.
        -- intros r c Hr Hc Hcase.
           destruct (decide (r = r0 /\ c = c0)) as [[-> ->]|Hne].
           ++ rewrite list_lookup_insert_eq by lia. symmetry. exact Hx.
           ++ rewrite list_lookup_insert_ne.
              ** apply Hfill; [assumption|assumption|]. lia.
              ** intros Heq. apply Hne.
                 assert (r0 * C + c0 = r * C + c) as Hi.
                 { assert (0 <= r * C) by (apply Z.mul_nonneg_nonneg; lia).
                   lia. }
                 destruct (cell_index_inj c0 r0 c r C) as [-> ->];
                   [lia|lia|exact Hi|split; reflexivity].
        -- intros i Hi. rewrite list_lookup_insert_ne by lia.
           apply Hrest. lia.
    + exists out', h. split; [exact Hrun|].
      split; [reflexivity|]. split; [exact Hleno|]. split.
      * intros r c Hr Hc Hcase. apply Hfill; [assumption|assumption|]. lia.
      * intros i Hi. apply Hrest. lia.
  - exists out. split.
    + step Hrun. reflexivity.
    + split; [exact Hleno|]. split.
      * intros r c Hr Hc. apply Hfill; [lia|assumption|]. lia.
      * intros i Hi. apply Hrest. lia.
Qed.

(** Every offset below [R * C] is the row-major offset of a cell. *)
Lemma row_major_cell (i R C : Z) :
  0 <= i < R * C -> 0 <= R -> 0 <= C ->
  exists r c, 0 <= r < R /\ 0 <= c < C /\ i = r * C + c.
Proof.
  intros Hi HR HC.
  assert (0 < C) by nia.
  exists (i / C), (i mod C).
  pose proof (Z.mod_pos_bound i C ltac:(lia)).
  pose proof (Z.div_mod i C ltac:(lia)).
  pose proof (Z.div_pos i C ltac:(lia) ltac:(lia)).
  assert (i / C < R) by (apply Z.div_lt_upper_bound; nia).
  repeat split; lia.
Qed.

(** C8: on a live matrix of [rows x columns], [Mat_SetData] of a row-major
    array [X] of [rows * columns] doubles followed by [Mat_GetData] into a
    buffer fills the buffer with exactly the values of [X], in the same
    order, and leaves the rest of the buffer alone. *)
Theorem Mat_SetData_then_GetData :
  forall (h : heap) (m : Matrix) (d : MatrixData) (X buffer : list float),
    points_to h m d -> well_formed d ->
    Z.of_nat (length X) = rowsNumber d * columnsNumber d ->
    (length X <= length buffer)%nat ->
    exists h' out,
      (Mat_SetData m X;; Mat_GetData m buffer) h = Done (Some out) h' /\
      take (length X) out = X /\
      drop (length X) out = drop (length X) buffer.
Proof.
  intros h m d X buffer (l & -> & Hl) Hwf HX Hbuf.
  destruct (Mat_SetData_spec h l d X Hl Hwf ltac:(lia))
    as (buf & Hset & Hlenb & Hfill).
  set (d' := mkMatrixData buf (rowsNumber d) (columnsNumber d)) in *.
  pose proof (heap_insert_live h l d d' Hl) as Hl'.
  assert (Hwf' : well_formed d').
  { unfold well_formed, d'. cbn. rewrite Hlenb. exact Hwf. }
  destruct (Mat_GetData_spec _ l d' buffer Hl' Hwf' ltac:(cbn; lia))
    as (out & Hget & Hleno & Hcells & Hrest).
  cbn [rowsNumber columnsNumber data d'] in Hcells, Hrest.
  exists (<[l := Some d']> h), out. split; [|split].
  - step Hset. exact Hget.
  - apply list_eq. intros i.
    destruct (decide (i < length X)%nat) as [Hi|Hi].
    + rewrite lookup_take_lt by exact Hi.
      destruct (row_major_cell (Z.of_nat i) (rowsNumber d) (columnsNumber d))
        as (r & c & Hr & Hc & Ei); [lia|apply Hwf|apply Hwf|].
      replace i with (Z.to_nat (r * columnsNumber d + c)) by lia.
      rewrite (Hcells r c Hr Hc). apply Hfill; assumption.
    + rewrite lookup_take_ge by lia. symmetry. apply lookup_ge_None_2. lia.
  - apply list_eq. intros i. rewrite !lookup_drop. apply Hrest. lia.
Qed.

(** The theorem at a 2 x 3 matrix and a buffer of seven doubles. *)
Lemma Mat_SetData_then_GetData_witness :
  let d := mkMatrixData [0; 0; 0; 0; 0; 0]%float 2 3 in
  let X := [1; 2; 3; 4; 5; 6]%float in
  let buffer := [9; 9; 9; 9; 9; 9; 9]%float in
  exists h' out,
    (Mat_SetData (Some 0%nat) X;; Mat_GetData (Some 0%nat) buffer) [Some d] =
      Done (Some out) h' /\
    take (length X) out = X /\
    drop (length X) out = drop (length X) buffer.
Proof.
  intros d X buffer.
  apply (Mat_SetData_then_GetData [Some d] (Some 0%nat) d X buffer).
  - exists 0%nat. split; reflexivity.
  - unfold well_formed. cbn. unfold SIZEOF_DOUBLE, SIZE_MODULUS. lia.
  - reflexivity.
  - cbn. lia.
Defined.

(** ** Scaling *)

Lemma set_rows_live h l d v :
  h !! l = Some (Some d) ->
  set_rows (Some l) v h =
  Done tt (<[l := Some (mkMatrixData (data d) v (columnsNumber d))]> h).
Proof.
  intros H. unfold set_rows.
  step (deref_live _ _ _ H).
  unfold assign. rewrite H. reflexivity.
Qed.

Lemma set_columns_live h l d v :
  h !! l = Some (Some d) ->
  set_columns (Some l) v h =
  Done tt (<[l := Some (mkMatrixData (data d) (rowsNumber d) v)]> h).
Proof.
  intros H. unfold set_columns.
  step (deref_live _ _ _ H).
  unfold assign. rewrite H. reflexivity.
Qed.

(** What [Mat_Scale] does, aliased or not: it scales the first [n] elements,
    where [n] is the element count the result has on entry, leaves the rest
    of the result's buffer alone, and records the dimensions of the
    matrix. *)
Lemma Mat_Scale_spec h l lr d dr (k : float) :
  h !! l = Some (Some d) -> h !! lr = Some (Some dr) ->
  let n := rowsNumber dr * columnsNumber dr in
  0 <= n < SIZE_MODULUS ->
  n <= Z.of_nat (length (data d)) -> n <= Z.of_nat (length (data dr)) ->
  exists buf,
    Mat_Scale (Some l) k (Some lr) h =
      Done (Some lr)
        (<[lr := Some (mkMatrixData buf (rowsNumber d) (columnsNumber d))]> h) /\
    length buf = length (data dr) /\
    (forall i : nat, Z.of_nat i < n ->
       buf !! i = (fun x => (k * x)%float) <$> data d !! i) /\
    (forall i : nat, n <= Z.of_nat i -> buf !! i = data dr !! i).
Proof.
  intros Hl Hlr n Hn Hnd Hndr.
  assert (Hsame : l = lr -> d = dr) by (intros ->; congruence).
  unfold Mat_Scale.
  step (get_rows_live _ _ _ Hlr).
  step (get_columns_live _ _ _ Hlr).
  change (size_mul (rowsNumber dr) (columnsNumber dr)) with (size_wrap n).
  rewrite (size_wrap_small n Hn).
  set (cell := fun buf => Some (mkMatrixData buf (rowsNumber dr) (columnsNumber dr))).
  set (Inv := fun (i : Z) (_ : unit) (h1 : heap) =>
    exists buf, h1 = <[lr := cell buf]> h /\ length buf = length (data dr) /\
      (forall j : nat, Z.of_nat j < i ->
         buf !! j = (fun x => (k * x)%float) <$> data d !! j) /\
      (forall j : nat, i <= Z.of_nat j -> buf !! j = data dr !! j)).
  destruct (for_size_inv Inv
              (fun elementIndex (_ : unit) =>
                 let* x := load (Some l) elementIndex in
                 store (Some lr) elementIndex (k * x)%float)
              n tt h ltac:(lia)) as ([] & h' & Hrun & buf & -> & Hlenb & Hlo & Hhi).
  - exists (data dr). split; [|split; [reflexivity|split]].
    + symmetry. apply list_insert_id. rewrite Hlr. destruct dr; reflexivity.
    + intros j Hj. lia.
    + reflexivity.
  - intros i [] h1 Hi (buf & -> & Hlenb & Hlo & Hhi).
    destruct (lookup_lt_is_Some_2 (data d) (Z.to_nat i) ltac:(lia)) as [x Hx].
    assert (Hload : load (Some l) i (<[lr := cell buf]> h) =
                    Done x (<[lr := cell buf]> h)).
    { destruct (decide (l = lr)) as [->|Hne].
      - apply (load_live _ _ (mkMatrixData buf (rowsNumber dr) (columnsNumber dr))).
        + apply (heap_insert_live _ _ _ _ Hlr).
        + cbn. rewrite Hhi by lia. rewrite <- (Hsame eq_refl). exact Hx.
      - apply (load_live _ _ d); [|exact Hx].
        rewrite list_lookup_insert_ne by congruence. exact Hl. }
    exists tt. eexists. split.
    + step Hload.
      apply (store_live _ _ _ _ _ (heap_insert_live _ _ _ _ Hlr)). cbn. lia.
    + cbn [data rowsNumber columnsNumber].
      exists (<[Z.to_nat i := (k * x)%float]> buf).
      split; [apply list_insert_insert_eq|].
      split; [rewrite length_insert; exact Hlenb|]. split.
      * intros j Hj. destruct (decide (j = Z.to_nat i)) as [->|Hne].
        -- rewrite list_lookup_insert_eq by lia. rewrite Hx. reflexivity.
        -- rewrite list_lookup_insert_ne by congruence. apply Hlo. lia.
      * intros j Hj. rewrite list_lookup_insert_ne by lia. apply Hhi. lia.
  - exists buf. subst cell. cbn beta in *.
    set (db := mkMatrixData buf (rowsNumber dr) (columnsNumber dr)) in *.
    assert (Hres : <[lr := Some db]> h !! lr = Some (Some db))
      by apply (heap_insert_live _ _ _ _ Hlr).
    assert (Hmat : exists dm, <[lr := Some db]> h !! l = Some (Some dm) /\
              rowsNumber dm = rowsNumber d /\ columnsNumber dm = columnsNumber d).
    { destruct (decide (l = lr)) as [->|Hne].
      - eexists. split; [exact Hres|]. rewrite (Hsame eq_refl). split; reflexivity.
      - exists d. rewrite list_lookup_insert_ne by congruence.
        split; [exact Hl|split; reflexivity]. }
    destruct Hmat as (dm & Hdm & Hrows & Hcols).
    split; [|split; [exact Hlenb|split; [exact Hlo|exact Hhi]]].
    step Hrun.
    step (get_rows_live _ _ _ Hdm).
    step (set_rows_live _ _ _ _ Hres).
    rewrite list_insert_insert_eq. cbn [data columnsNumber db].
    assert (Hdm' : exists dm', <[lr := Some (mkMatrixData buf (rowsNumber dm) (columnsNumber dr))]> h !! l = Some (Some dm') /\
              columnsNumber dm' = columnsNumber d).
    { destruct (decide (l = lr)) as [->|Hne].
      - eexists. split; [apply (heap_insert_live _ _ _ _ Hlr)|].
        cbn. rewrite (Hsame eq_refl). reflexivity.
      - exists d. rewrite list_lookup_insert_ne by congruence.
        split; [exact Hl|reflexivity]. }
    destruct Hdm' as (dm' & Hdm' & Hcols').
    step (get_columns_live _ _ _ Hdm').
    rewrite (bind_Done _ _ _ _ _
               (set_columns_live _ _ _ _ (heap_insert_live _ _ _ _ Hlr))).
    rewrite list_insert_insert_eq. cbn [data rowsNumber].
    rewrite Hrows, Hcols'. reflexivity.
Qed.

(** ** Transposition *)

Lemma bytes_of_count R C :
  0 <= R * C -> R * C * SIZEOF_DOUBLE < SIZE_MODULUS ->
  bytes_of R C / SIZEOF_DOUBLE = R * C.
Proof.
  unfold bytes_of, size_mul, SIZEOF_DOUBLE. intros H0 H1.
  rewrite (size_wrap_small (R * C)) by lia.
  rewrite size_wrap_small by lia.
  apply Z.div_mul. lia.
Qed.

Lemma AUX_CAPACITY_bytes n :
  n <= AUX_CAPACITY -> n * SIZEOF_DOUBLE < SIZE_MODULUS.
Proof. unfold AUX_CAPACITY, MATRIX_SIZE_MAX, SIZEOF_DOUBLE, SIZE_MODULUS. lia. Qed.

Lemma write_local_in (a : local_array) i x h :
  i < AUX_CAPACITY ->
  write_local a i x h = Done (fun j => if decide (j = i) then x else a j) h.
Proof.
  intros Hi. unfold write_local.
  destruct (decide _); [reflexivity|contradiction].
Qed.

Lemma get_data_live h l d :
  h !! l = Some (Some d) -> get_data (Some l) h = Done (data d) h.
Proof.
  intros H. unfold get_data.
  step (deref_live _ _ _ H). reflexivity.
Qed.

Lemma set_data_live h l d buf :
  h !! l = Some (Some d) ->
  set_data (Some l) buf h =
  Done tt (<[l := Some (mkMatrixData buf (rowsNumber d) (columnsNumber d))]> h).
Proof.
  intros H. unfold set_data.
  step (deref_live _ _ _ H).
  unfold assign. rewrite H. reflexivity.
Qed.

Lemma memcpy_from_local_live h l d (a : local_array) bytes n :
  h !! l = Some (Some d) ->
  bytes / SIZEOF_DOUBLE = n ->
  (Z.to_nat n <= length (data d))%nat -> n <= AUX_CAPACITY ->
  memcpy_from_local (Some l) a bytes h =
  Done tt
    (<[l := Some (mkMatrixData
                    (((fun i => a (Z.of_nat i)) <$> seq 0 (Z.to_nat n)) ++
                     drop (Z.to_nat n) (data d))
                    (rowsNumber d) (columnsNumber d))]> h).
Proof.
  intros H Hn Hcap Haux. unfold memcpy_from_local.
  step (get_data_live _ _ _ H). rewrite Hn.
  destruct (decide (Z.to_nat n <= length (data d))%nat); [|contradiction].
  destruct (decide (Z.of_nat (Z.to_nat n) <= AUX_CAPACITY)) as [_|Hbad].
  - apply (set_data_live _ _ _ _ H).
  - exfalso. apply Hbad.
    assert (0 <= AUX_CAPACITY) by (unfold AUX_CAPACITY, MATRIX_SIZE_MAX; lia).
    lia.
Qed.

(** What [Mat_Transpose] does with room on the stack when the handles are
    distinct, or when they are the same and the matrix is square: element
    [(r, c)] of the matrix ends up as element [(c, r)] of the result, whose
    shape is the swapped one. *)
Lemma Mat_Transpose_spec stack h l lr d dr :
  stack_has_room stack sizeof_auxArray ->
  h !! l = Some (Some d) -> h !! lr = Some (Some dr) ->
  (l = lr -> rowsNumber d = columnsNumber d) ->
  0 <= rowsNumber d -> 0 <= columnsNumber d ->
  rowsNumber d * columnsNumber d <= Z.of_nat (length (data d)) ->
  rowsNumber d * columnsNumber d <= Z.of_nat (length (data dr)) ->
  rowsNumber d * columnsNumber d <= AUX_CAPACITY ->
  exists buf,
    Mat_Transpose_within stack (Some l) (Some lr) h =
      Done (Some lr)
        (<[lr := Some (mkMatrixData buf (columnsNumber d) (rowsNumber d))]> h) /\
    length buf = length (data dr) /\
    (forall r c, 0 <= r < rowsNumber d -> 0 <= c < columnsNumber d ->
       buf !! Z.to_nat (r * columnsNumber d + c) =
       data d !! Z.to_nat (c * rowsNumber d + r)) /\
    (forall i : nat, rowsNumber d * columnsNumber d <= Z.of_nat i ->
       buf !! i = data dr !! i).
Proof.
  intros Hstack Hl Hlr Hsq HR HC Hlen Hlenr Haux.
  assert (Hsame : l = lr -> d = dr) by (intros ->; congruence).
  pose proof (AUX_CAPACITY_bytes _ Haux) as Hbytes.
  set (R := rowsNumber d) in *. set (C := columnsNumber d) in *.
  assert (Hcount : R * C < SIZE_MODULUS) by (unfold SIZEOF_DOUBLE in Hbytes; nia).
  set (h2 := <[lr := Some (mkMatrixData (data dr) C R)]> h).
  assert (Hres : h2 !! lr = Some (Some (mkMatrixData (data dr) C R)))
    by apply (heap_insert_live _ _ _ _ Hlr).
  assert (Hmat : exists dm, h2 !! l = Some (Some dm) /\
                   rowsNumber dm = R /\ data dm = data d).
  { destruct (decide (l = lr)) as [->|Hne].
    - eexists. split; [exact Hres|]. cbn. rewrite (Hsame eq_refl).
      split; [|reflexivity]. symmetry. apply Hsq. reflexivity.
    - exists d. unfold h2. rewrite list_lookup_insert_ne by congruence.
      split; [exact Hl|split; reflexivity]. }
  destruct Hmat as (dm & Hdm & Hdmr & Hdmd).
  unfold Mat_Transpose_within.
  step (claim_stack_room _ _ Hstack).
  step (get_columns_live _ _ _ Hl). fold C.
  step (set_rows_live _ _ _ _ Hlr).
  assert (Hrows1 : get_rows (Some l)
            (<[lr := Some (mkMatrixData (data dr) C (columnsNumber dr))]> h) =
          Done R (<[lr := Some (mkMatrixData (data dr) C (columnsNumber dr))]> h)).
  { destruct (decide (l = lr)) as [->|Hne].
    - rewrite (get_rows_live _ _ _ (heap_insert_live _ _ _ _ Hlr)). cbn.
      rewrite <- (Hsq eq_refl). reflexivity.
    - apply (get_rows_live _ _ d).
      rewrite list_lookup_insert_ne by congruence. exact Hl. }
  step Hrows1.
  rewrite (bind_Done _ _ _ _ _
             (set_columns_live _ _ _ _ (heap_insert_live _ _ _ _ Hlr))).
  rewrite list_insert_insert_eq. cbn [data rowsNumber]. fold h2.
  step (get_rows_live _ _ _ Hres).
  step (get_columns_live _ _ _ Hres).
  cbn [rowsNumber columnsNumber].
  set (Inv := fun (c0 r0 : Z) (aux : local_array) (h1 : heap) =>
    h1 = h2 /\
    forall r c, 0 <= r < R -> 0 <= c ->
      c < c0 \/ (c = c0 /\ r < r0) ->
      data d !! Z.to_nat (c * R + r) = Some (aux (r * C + c))).
  destruct (for_size_inv (fun c0 => Inv c0 0)
              (fun row auxArray =>
                 for_size R (fun column auxArray =>
                   let* stride := get_rows (Some l) in
                   let* x := load (Some l) (size_add (size_mul row stride) column) in
                   write_local auxArray (size_add (size_mul column C) row) x)
                 auxArray)
              C zero_array h2 HC) as (aux & h' & Hrun & -> & Hfill).
  - split; [reflexivity|]. intros r c Hr Hc [Hlt|[_ Hlt]]; lia.
  - intros c0 aux h1 Hc0 Hinv.
    destruct (for_size_inv (fun r0 => Inv c0 r0)
                (fun column auxArray =>
                   let* stride := get_rows (Some l) in
                   let* x := load (Some l) (size_add (size_mul c0 stride) column) in
                   write_local auxArray (size_add (size_mul column C) c0) x)
                R aux h1 HR Hinv) as (aux' & h3 & Hrun & -> & Hfill).
    + intros r0 aux1 h3 Hr0 (-> & Hfill).
      pose proof (cell_index_bound r0 c0 R C Hr0 Hc0) as Hb.
      pose proof (cell_index_bound c0 r0 C R Hc0 Hr0) as Hb'.
      step (get_rows_live _ _ _ Hdm). rewrite Hdmr.
      rewrite (cell_index_wrap r0 c0 R C Hr0 Hc0) by lia.
      rewrite (cell_index_wrap c0 r0 C R Hc0 Hr0) by lia.
      destruct (lookup_lt_is_Some_2 (data d) (Z.to_nat (c0 * R + r0))
                  ltac:(lia)) as [x Hx].
      eexists. exists h2. split.
      * step (load_live _ _ dm _ x Hdm ltac:(rewrite Hdmd; exact Hx)).
        apply write_local_in. lia.
      * split; [reflexivity|]. intros r c Hr Hc Hcase. cbn beta.
        destruct (decide (r * C + c = r0 * C + c0)) as [Heq|Hne].
        -- destruct (cell_index_inj c r c0 r0 C) as [-> ->]; [lia|lia|exact Heq|].
           exact Hx.
        -- apply Hfill; [assumption|assumption|].
           destruct Hcase as [?|[-> ?]]; [left; assumption|].
           right. split; [reflexivity|].
           destruct (decide (r = r0)) as [->|]; [contradiction Hne; reflexivity|lia].
    + exists aux', h2. split; [exact Hrun|]. split; [reflexivity|].
      intros r c Hr Hc Hcase. apply Hfill; [assumption|assumption|]. lia.
  - set (n := Z.to_nat (C * R)).
    exists (((fun i => aux (Z.of_nat i)) <$> seq 0 n) ++ drop n (data dr)).
    split; [|split; [|split]].
    + step Hrun.
      rewrite (bind_Done _ _ _ _ _
                 (memcpy_from_local_live _ _ _ aux _ (C * R) Hres
                    ltac:(apply bytes_of_count; lia) ltac:(cbn; lia)
                    ltac:(lia))).
      cbn [data rowsNumber columnsNumber]. fold n.
      unfold h2. rewrite list_insert_insert_eq. reflexivity.
    + rewrite length_app, length_fmap, length_seq, length_drop. lia.
    + intros r c Hr Hc.
      pose proof (cell_index_bound c r C R Hc Hr) as Hb.
      rewrite lookup_app_l by (rewrite length_fmap, length_seq; lia).
      rewrite list_lookup_fmap, lookup_seq_lt by lia. cbn.
      rewrite Z2Nat.id by lia. symmetry. apply Hfill; [assumption|lia|lia].
    + intros i Hi.
      rewrite lookup_app_r by (rewrite length_fmap, length_seq; lia).
      rewrite length_fmap, length_seq, lookup_drop. f_equal. lia.
Qed.

(** X15: with room on the stack for [auxArray], transposing twice gives back
    the elements and the shape of the matrix, whichever of the three handles
    coincide, as long as a handle that is transposed onto itself holds a
    square matrix. *)
Lemma Mat_Transpose_twice stack h l lb lc d db dc :
  stack_has_room stack sizeof_auxArray ->
  h !! l = Some (Some d) -> h !! lb = Some (Some db) ->
  h !! lc = Some (Some dc) ->
  (l = lb -> rowsNumber d = columnsNumber d) ->
  (lb = lc -> rowsNumber d = columnsNumber d) ->
  0 <= rowsNumber d -> 0 <= columnsNumber d ->
  rowsNumber d * columnsNumber d <= Z.of_nat (length (data d)) ->
  rowsNumber d * columnsNumber d <= Z.of_nat (length (data db)) ->
  rowsNumber d * columnsNumber d <= Z.of_nat (length (data dc)) ->
  rowsNumber d * columnsNumber d <= AUX_CAPACITY ->
  exists h' buf,
    (let* b := Mat_Transpose_within stack (Some l) (Some lb) in
     Mat_Transpose_within stack b (Some lc)) h = Done (Some lc) h' /\
    h' !! lc =
      Some (Some (mkMatrixData buf (rowsNumber d) (columnsNumber d))) /\
    forall r c, 0 <= r < rowsNumber d -> 0 <= c < columnsNumber d ->
      buf !! Z.to_nat (c * rowsNumber d + r) =
      data d !! Z.to_nat (c * rowsNumber d + r).
Proof.
  intros Hstack Hl Hlb Hlc Hsq1 Hsq2 HR HC Hlen Hlenb Hlenc Haux.
  destruct (Mat_Transpose_spec stack h l lb d db Hstack Hl Hlb Hsq1 HR HC Hlen
              Hlenb Haux)
    as (bufb & Hrun1 & Hlenbuf & Hcells1 & _).
  set (R := rowsNumber d) in *. set (C := columnsNumber d) in *.
  set (d1 := mkMatrixData bufb C R) in *.
  set (h1 := <[lb := Some d1]> h) in *.
  assert (Hb1 : h1 !! lb = Some (Some d1))
    by apply (heap_insert_live _ _ _ _ Hlb).
  assert (Hc1 : exists dc1, h1 !! lc = Some (Some dc1) /\
                  R * C <= Z.of_nat (length (data dc1))).
  { destruct (decide (lb = lc)) as [<-|Hne].
    - exists d1. split; [exact Hb1|]. cbn. lia.
    - exists dc. unfold h1. rewrite list_lookup_insert_ne by congruence.
      split; [exact Hlc|exact Hlenc]. }
  destruct Hc1 as (dc1 & Hc1 & Hlenc1).
  destruct (Mat_Transpose_spec stack h1 lb lc d1 dc1 Hstack Hb1 Hc1)
    as (bufc & Hrun2 & _ & Hcells2 & _); cbn [rowsNumber columnsNumber data d1].
  - intros E. symmetry. apply Hsq2, E.
  - exact HC.
  - exact HR.
  - lia.
  - lia.
  - lia.
  - cbn [rowsNumber columnsNumber data d1] in *.
    exists (<[lc := Some (mkMatrixData bufc R C)]> h1), bufc.
    split; [|split].
    + step Hrun1. exact Hrun2.
    + apply (heap_insert_live _ _ _ _ Hc1).
    + intros r c Hr Hc.
      rewrite (Hcells2 c r Hc Hr). apply Hcells1; assumption.
Qed.

(** X16: with a destination whose element count on entry is that of the source,
    [Mat_Scale] yields the same elements and the same shape whether the
    destination is the source itself or a distinct matrix; so does
    [Mat_Transpose] for a square source when the stack has room for its
    [auxArray]. *)
Lemma aliased_result_agrees stack h l lr d dr (k : float) :
  h !! l = Some (Some d) -> h !! lr = Some (Some dr) -> well_formed d ->
  rowsNumber dr * columnsNumber dr = rowsNumber d * columnsNumber d ->
  rowsNumber d * columnsNumber d <= Z.of_nat (length (data dr)) ->
  (exists ha hb bufa bufb,
     Mat_Scale (Some l) k (Some l) h = Done (Some l) ha /\
     Mat_Scale (Some l) k (Some lr) h = Done (Some lr) hb /\
     ha !! l = Some (Some (mkMatrixData bufa (rowsNumber d) (columnsNumber d))) /\
     hb !! lr = Some (Some (mkMatrixData bufb (rowsNumber d) (columnsNumber d))) /\
     forall i : nat, Z.of_nat i < rowsNumber d * columnsNumber d ->
       bufa !! i = bufb !! i) /\
  (stack_has_room stack sizeof_auxArray ->
   rowsNumber d = columnsNumber d ->
   rowsNumber d * columnsNumber d <= AUX_CAPACITY ->
   exists ha hb bufa bufb,
     Mat_Transpose_within stack (Some l) (Some l) h = Done (Some l) ha /\
     Mat_Transpose_within stack (Some l) (Some lr) h = Done (Some lr) hb /\
     ha !! l = Some (Some (mkMatrixData bufa (columnsNumber d) (rowsNumber d))) /\
     hb !! lr = Some (Some (mkMatrixData bufb (columnsNumber d) (rowsNumber d))) /\
     forall i : nat, Z.of_nat i < rowsNumber d * columnsNumber d ->
       bufa !! i = bufb !! i).
Proof.
  intros Hl Hlr Hwf Hcount Hlenr.
  pose proof (well_formed_count d Hwf) as Hlt.
  destruct Hwf as (HR & HC & Hlen & Hbytes).
  split.
  - destruct (Mat_Scale_spec h l l d d k Hl Hl ltac:(cbn; nia) Hlen Hlen)
      as (bufa & Hruna & _ & Hloa & _).
    destruct (Mat_Scale_spec h l lr d dr k Hl Hlr ltac:(cbn; nia)
                ltac:(cbn; lia) ltac:(cbn; lia))
      as (bufb & Hrunb & _ & Hlob & _).
    do 2 eexists. exists bufa, bufb.
    split; [exact Hruna|]. split; [exact Hrunb|].
    split; [apply (heap_insert_live _ _ _ _ Hl)|].
    split; [apply (heap_insert_live _ _ _ _ Hlr)|].
    intros i Hi. rewrite Hloa by exact Hi. rewrite Hlob by lia. reflexivity.
  - intros Hstack Hsq Haux.
    destruct (Mat_Transpose_spec stack h l l d d Hstack Hl Hl (fun _ => Hsq)
                HR HC Hlen Hlen Haux)
      as (bufa & Hruna & _ & Hcellsa & _).
    destruct (Mat_Transpose_spec stack h l lr d dr Hstack Hl Hlr
                (fun _ => Hsq) HR HC Hlen Hlenr Haux)
      as (bufb & Hrunb & _ & Hcellsb & _).
    do 2 eexists. exists bufa, bufb.
    split; [exact Hruna|]. split; [exact Hrunb|].
    split; [apply (heap_insert_live _ _ _ _ Hl)|].
    split; [apply (heap_insert_live _ _ _ _ Hlr)|].
    intros i Hi.
    destruct (row_major_cell (Z.of_nat i) (rowsNumber d) (columnsNumber d))
      as (r & c & Hr & Hc & Ei); [lia|exact HR|exact HC|].
    replace i with (Z.to_nat (r * columnsNumber d + c)) by lia.
    rewrite (Hcellsa r c Hr Hc), (Hcellsb r c Hr Hc). reflexivity.
Qed.

(** ** Creation *)

Lemma heap_fresh_lookup (h : heap) (x : option MatrixData) :
  (h ++ [x]) !! length h = Some x.
Proof. apply list_lookup_middle. reflexivity. Qed.

Lemma heap_fresh_insert (h : heap) (x y : option MatrixData) :
  <[length h := y]> (h ++ [x]) = h ++ [y].
Proof.
  replace (length h) with (length h + 0)%nat at 1 by lia.
  rewrite insert_app_r. reflexivity.
Qed.

Lemma memset_zero_live h l d bytes n :
  h !! l = Some (Some d) -> bytes / SIZEOF_DOUBLE = n ->
  (Z.to_nat n <= length (data d))%nat ->
  memset_zero (Some l) bytes h =
  Done tt
    (<[l := Some (mkMatrixData
                    (replicate (Z.to_nat n) 0%float ++ drop (Z.to_nat n) (data d))
                    (rowsNumber d) (columnsNumber d))]> h).
Proof.
  intros H Hn Hcap. unfold memset_zero.
  step (get_data_live _ _ _ H). rewrite Hn.
  destruct (decide _); [|contradiction].
  apply (set_data_live _ _ _ _ H).
Qed.

Lemma MATRIX_SIZE_MAX_bytes R C :
  0 <= R <= MATRIX_SIZE_MAX -> 0 <= C <= MATRIX_SIZE_MAX ->
  0 <= R * C <= AUX_CAPACITY /\ R * C * SIZEOF_DOUBLE < SIZE_MODULUS.
Proof.
  unfold AUX_CAPACITY, MATRIX_SIZE_MAX, SIZEOF_DOUBLE, SIZE_MODULUS.
  intros HR HC. nia.
Qed.

(** The guard of [Mat_Create] looks at each dimension on its own. *)
Lemma Mat_Create_refuses (h : heap) src R C :
  MATRIX_SIZE_MAX < R \/ MATRIX_SIZE_MAX < C ->
  Mat_Create src R C h = Done None h.
Proof.
  intros Hbig. unfold Mat_Create.
  destruct Hbig.
  - replace (R >? MATRIX_SIZE_MAX) with true by lia. reflexivity.
  - replace (C >? MATRIX_SIZE_MAX) with true by lia.
    rewrite orb_true_r. reflexivity.
Qed.

(** [Mat_Create( NULL, R, C )] with both dimensions up to [MATRIX_SIZE_MAX]
    allocates a zeroed [R x C] matrix at a fresh address. *)
Lemma Mat_Create_zero (h : heap) R C :
  0 <= R <= MATRIX_SIZE_MAX -> 0 <= C <= MATRIX_SIZE_MAX ->
  Mat_Create None R C h =
  Done (Some (length h))
    (h ++ [Some (mkMatrixData (replicate (Z.to_nat (R * C)) 0%float) R C)]).
Proof.
  intros HR HC.
  destruct (MATRIX_SIZE_MAX_bytes R C HR HC) as [Hcount Hbytes].
  unfold Mat_Create.
  replace (R >? MATRIX_SIZE_MAX) with false by lia.
  replace (C >? MATRIX_SIZE_MAX) with false by lia.
  cbn [orb].
  assert (Hm : malloc_MatrixData h =
               Done (Some (length h)) (h ++ [Some (mkMatrixData [] 0 0)]))
    by reflexivity.
  step Hm.
  step (set_data_live _ _ _ _ (heap_fresh_lookup _ _)).
  rewrite heap_fresh_insert.
  step (set_rows_live _ _ _ _ (heap_fresh_lookup _ _)).
  rewrite heap_fresh_insert.
  step (set_columns_live _ _ _ _ (heap_fresh_lookup _ _)).
  rewrite heap_fresh_insert.
  cbn [data rowsNumber columnsNumber].
  unfold calloc, size_mul. rewrite (size_wrap_small (R * C)) by (unfold SIZEOF_DOUBLE in *; lia).
  set (zeros := replicate (Z.to_nat (R * C)) 0%float).
  assert (Hclear : Mat_Clear (Some (length h))
                     (h ++ [Some (mkMatrixData zeros R C)]) =
                   Done (Some (length h)) (h ++ [Some (mkMatrixData zeros R C)])).
  { unfold Mat_Clear.
    step (get_rows_live _ _ _ (heap_fresh_lookup _ _)).
    step (get_columns_live _ _ _ (heap_fresh_lookup _ _)).
    cbn [rowsNumber columnsNumber].
    assert (Hroom : (Z.to_nat (R * C) <= length (data (mkMatrixData zeros R C)))%nat)
      by (cbn [data]; unfold zeros; rewrite length_replicate; lia).
    rewrite (bind_Done _ _ _ _ _
               (memset_zero_live _ _ _ _ (R * C) (heap_fresh_lookup _ _)
                  (bytes_of_count R C ltac:(lia) ltac:(lia)) Hroom)).
    rewrite heap_fresh_insert. cbn [data rowsNumber columnsNumber].
    rewrite (drop_ge zeros) by (unfold zeros; rewrite length_replicate; lia).
    rewrite app_nil_r. reflexivity. }
  assert (Hfill : (Mat_Clear (Some (length h));; ret tt)
                    (h ++ [Some (mkMatrixData zeros R C)]) =
                  Done tt (h ++ [Some (mkMatrixData zeros R C)]))
    by (step Hclear; reflexivity).
  step Hfill.
  reflexivity.
Qed.

Lemma lookup_tabulate {A} (f : nat -> A) (m k : nat) :
  (k < m)%nat -> (f <$> seq 0 m) !! k = Some (f k).
Proof. intros Hk. rewrite list_lookup_fmap, lookup_seq_lt by exact Hk. reflexivity. Qed.

Lemma tabulate_ext {A} (f g : nat -> A) (m : nat) :
  (forall k, (k < m)%nat -> f k = g k) -> f <$> seq 0 m = g <$> seq 0 m.
Proof.
  intros Hfg. apply list_eq. intros k.
  destruct (decide (k < m)%nat) as [Hk|Hk].
  - rewrite !lookup_tabulate by exact Hk. f_equal. apply Hfg, Hk.
  - rewrite !lookup_ge_None_2; [reflexivity| |];
      rewrite length_fmap, length_seq; lia.
Qed.

Lemma tabulate_insert {A} (f : nat -> A) (m j : nat) (x : A) :
  <[j := x]> (f <$> seq 0 m) =
  (fun k => if decide (k = j) then x else f k) <$> seq 0 m.
Proof.
  apply list_eq. intros k.
  destruct (decide (k < m)%nat) as [Hk|Hk].
  - rewrite lookup_tabulate by exact Hk.
    destruct (decide (k = j)) as [->|Hne].
    + apply list_lookup_insert_eq. rewrite length_fmap, length_seq. exact Hk.
    + rewrite list_lookup_insert_ne by congruence. apply lookup_tabulate, Hk.
  - rewrite !lookup_ge_None_2; [reflexivity| |];
      rewrite ?length_insert, length_fmap, length_seq; lia.
Qed.

Lemma diagonal_index n i :
  0 <= i < n -> (i * n + i) / n = i /\ (i * n + i) mod n = i.
Proof.
  intros Hi. split.
  - rewrite Z.add_comm, Z.div_add by lia. rewrite Z.div_small by lia. lia.
  - rewrite Z.add_comm, Z.mod_add by lia. apply Z.mod_small. lia.
Qed.

Lemma memcpy_to_array_live h l d capacity bytes n :
  h !! l = Some (Some d) -> bytes / SIZEOF_DOUBLE = n ->
  (Z.to_nat n <= length (data d))%nat -> 0 <= n <= capacity ->
  memcpy_to_array capacity (Some l) bytes h =
  Done (take (Z.to_nat n) (data d)) h.
Proof.
  intros H Hn Hroom Hcap. unfold memcpy_to_array.
  step (get_data_live _ _ _ H). rewrite Hn.
  destruct (decide _); [|contradiction].
  destruct (decide _) as [_|Hbad]; [reflexivity|]. exfalso. lia.
Qed.

Lemma int_of_size_small x : 0 <= x < INT_MODULUS / 2 -> int_of_size x = x.
Proof.
  intros Hx. unfold int_of_size.
  assert (Hhalf : INT_MODULUS / 2 <= INT_MODULUS) by (vm_compute; discriminate).
  rewrite Z.mod_small by lia. cbv zeta.
  destruct (Z.ltb_spec x (INT_MODULUS / 2)); [reflexivity|lia].
Qed.

(** [Mat_CreateSquare( n, MATRIX_IDENTITY )] with [n] up to
    [MATRIX_SIZE_MAX] allocates the identity matrix of order [n]. *)
Lemma Mat_CreateSquare_identity (h : heap) n :
  0 <= n <= MATRIX_SIZE_MAX ->
  Mat_CreateSquare n MATRIX_IDENTITY h =
  Done (Some (length h)) (h ++ [Some (mkMatrixData (identity_buffer n) n n)]).
Proof.
  intros Hn.
  destruct (MATRIX_SIZE_MAX_bytes n n Hn Hn) as [Hcount Hbytes].
  assert (Hmod : n * n < SIZE_MODULUS) by (unfold SIZEOF_DOUBLE in Hbytes; lia).
  unfold Mat_CreateSquare.
  step (Mat_Create_zero h n n Hn Hn).
  change (Ascii.eqb MATRIX_IDENTITY "I") with true. cbv iota.
  set (Inv := fun (i : Z) (_ : unit) (h1 : heap) =>
    h1 = h ++ [Some (mkMatrixData (partial_identity_buffer n i) n n)]).
  destruct (for_size_inv Inv
              (fun line (_ : unit) =>
                 store (Some (length h)) (size_add (size_mul line n) line) 1%float)
              n tt
              (h ++ [Some (mkMatrixData (replicate (Z.to_nat (n * n)) 0%float) n n)])
              ltac:(lia)) as ([] & h' & Hrun & ->).
  - unfold Inv. do 3 f_equal. f_equal.
    apply list_eq. intros k.
    destruct (decide (k < Z.to_nat (n * n))%nat) as [Hk|Hk].
    + unfold partial_identity_buffer.
      rewrite lookup_replicate_2, lookup_tabulate by exact Hk.
      assert (0 <= Z.of_nat k / n) by (apply Z.div_pos; lia).
      replace (Z.of_nat k / n <? 0) with false by lia.
      rewrite andb_false_r. reflexivity.
    + unfold partial_identity_buffer.
      rewrite !lookup_ge_None_2; [reflexivity| |];
        rewrite ?length_fmap, ?length_seq, ?length_replicate; lia.
  - intros i [] h1 Hi ->.
    pose proof (cell_index_bound i i n n Hi Hi) as Hb.
    rewrite (cell_index_wrap i i n n Hi Hi Hmod).
    exists tt. eexists. split.
    + apply (store_live _ _ _ _ _ (heap_fresh_lookup _ _)). cbn [data].
      unfold partial_identity_buffer. rewrite length_fmap, length_seq. lia.
    + unfold Inv. rewrite heap_fresh_insert. cbn [data rowsNumber columnsNumber].
      do 3 f_equal. f_equal.
      unfold partial_identity_buffer. rewrite tabulate_insert.
      apply tabulate_ext. intros k Hk.
      destruct (diagonal_index n i Hi) as [Hdiv Hrem].
      destruct (decide (k = Z.to_nat (i * n + i))) as [->|Hne].
      * rewrite Z2Nat.id by lia. rewrite Hdiv, Hrem.
        replace (i =? i) with true by lia.
        replace (i <? i + 1) with true by lia. reflexivity.
      * destruct (Z.eqb_spec (Z.of_nat k mod n) (Z.of_nat k / n)) as [E|E];
          [|reflexivity].
        cbn [andb].
        destruct (Z.ltb_spec (Z.of_nat k / n) i) as [Hlt|Hge].
        -- replace (Z.of_nat k / n <? i + 1) with true by lia. reflexivity.
        -- destruct (Z.ltb_spec (Z.of_nat k / n) (i + 1)) as [Hlt'|_];
             [|reflexivity].
           exfalso. apply Hne.
           pose proof (Z.div_mod (Z.of_nat k) n ltac:(lia)) as Hdm.
           assert (Z.of_nat k / n = i) as Hq by lia.
           rewrite E, Hq in Hdm. lia.
  - step Hrun. unfold ret. do 4 f_equal. f_equal.
    unfold partial_identity_buffer, identity_buffer.
    apply tabulate_ext. intros k Hk.
    assert (Z.of_nat k / n < n) by (apply Z.div_lt_upper_bound; lia).
    replace (Z.of_nat k / n <? n) with true by lia.
    rewrite andb_true_r. reflexivity.
Qed.

(** ** Where the code departs from its documentation *)

(** The evaluations below run [Mat_Resize], [Mat_Dot], [Mat_Determinant] and
    [Mat_Transpose] with the stack limit lifted, so that the calls get as far
    as the behaviour in question.  C7 is about what the limit itself does. *)

(** C1: [Mat_Create], [Mat_CreateSquare] and [Mat_Resize] all hand out a live
    51 x 51 matrix, that is 2601 elements, more than [MATRIX_SIZE_MAX]. *)
Theorem creation_beyond_MATRIX_SIZE_MAX :
  MATRIX_SIZE_MAX < 51 * 51 /\
  shape_of (Mat_Create None 51 51 []) = Some (51, 51, 2601%nat) /\
  shape_of (Mat_CreateSquare 51 MATRIX_ZERO []) = Some (51, 51, 2601%nat) /\
  shape_of ((let* m := Mat_Create None 1 1 in Mat_Resize m 51 51) []) =
    Some (51, 51, 2601%nat).
Proof. repeat split; vm_compute; reflexivity. Qed.

(** C2: when [dgetrf_] reports the pivots of the identity matrix the way
    LAPACK does, counted from 1, [Mat_Determinant] of the identity matrix of
    order [n] is -1 for every odd [n] and 1 for every even [n]: each of the
    [n] pivots differs from its 0-based index and flips the sign. *)
Theorem Mat_Determinant_identity :
  forall (dgetrf_ : Z -> Z -> list float -> Z -> list float * list Z * Z)
         (h : heap) (n : Z),
    0 <= n <= MATRIX_SIZE_MAX ->
    dgetrf_ n n (identity_buffer n) n =
      (identity_buffer n, Z.of_nat <$> seq 1 (Z.to_nat n), 0) ->
    (let* m := Mat_CreateSquare n MATRIX_IDENTITY in
     Mat_Determinant dgetrf_ m) h =
    Done (if Z.odd n then (-1)%float else 1%float)
      (h ++ [Some (mkMatrixData (identity_buffer n) n n)]).
Proof.
  intros dgetrf_ h n Hn Hlu.
  destruct (MATRIX_SIZE_MAX_bytes n n Hn Hn) as [Hcount Hbytes].
  assert (Hmod : n * n < SIZE_MODULUS) by (unfold SIZEOF_DOUBLE in Hbytes; lia).
  assert (Hlenid : length (identity_buffer n) = Z.to_nat (n * n))
    by (unfold identity_buffer; rewrite length_fmap, length_seq; reflexivity).
  step (Mat_CreateSquare_identity h n Hn).
  set (hh := h ++ [Some (mkMatrixData (identity_buffer n) n n)]).
  unfold Mat_Determinant, Mat_Determinant_within.
  set (id := mkMatrixData (identity_buffer n) n n) in *.
  assert (Hlive : hh !! length h = Some (Some id)) by apply heap_fresh_lookup.
  step (get_rows_live _ _ _ Hlive).
  step (get_columns_live _ _ _ Hlive).
  cbn [rowsNumber columnsNumber id]. rewrite Z.eqb_refl. cbn [negb].
  step (claim_stack_room None hh I).
  assert (Hroom : (Z.to_nat (n * n) <= length (data id))%nat)
    by (cbn [data id]; lia).
  rewrite (bind_Done _ _ _ _ _
             (memcpy_to_array_live _ _ _ AUX_CAPACITY _ (n * n) Hlive
                (bytes_of_count n n ltac:(lia) ltac:(lia)) Hroom Hcount)).
  step (claim_stack_room_pivots None hh I).
  cbn [data id]. rewrite take_ge by lia.
  rewrite (int_of_size_small n)
    by (split; [lia|]; apply Z.le_lt_trans with MATRIX_SIZE_MAX;
        [lia|vm_compute; reflexivity]).
  rewrite Hlu.
  destruct (for_size_inv
              (fun i det h1 =>
                 h1 = hh /\ det = if Z.odd i then (-1)%float else 1%float)
              (fun pivotIndex determinant =>
                 let* x :=
                   read_array (identity_buffer n)
                     (size_add (size_mul pivotIndex n) pivotIndex) in
                 let determinant := (determinant * x)%float in
                 let* pivot :=
                   read_array (Z.of_nat <$> seq 1 (Z.to_nat n)) pivotIndex in
                 if negb (size_of_int pivot =? pivotIndex)
                 then ret (determinant * -1)%float
                 else ret determinant)
              n 1%float hh ltac:(lia)) as (det & h' & Hrun & -> & ->).
  - split; reflexivity.
  - intros i det h1 Hi (-> & ->).
    pose proof (cell_index_bound i i n n Hi Hi) as Hb.
    destruct (diagonal_index n i Hi) as [Hdiv Hrem].
    rewrite (cell_index_wrap i i n n Hi Hi Hmod).
    assert (Hone : identity_buffer n !! Z.to_nat (i * n + i) = Some 1%float).
    { unfold identity_buffer. rewrite lookup_tabulate by lia.
      rewrite Z2Nat.id by lia. rewrite Hdiv, Hrem, Z.eqb_refl. reflexivity. }
    assert (Hpiv : (Z.of_nat <$> seq 1 (Z.to_nat n)) !! Z.to_nat i =
                   Some (i + 1)).
    { rewrite list_lookup_fmap, lookup_seq_lt by lia. cbn. f_equal. lia. }
    step (read_array_Some _ _ _ Hone _).
    step (read_array_Some _ _ _ Hpiv _).
    unfold size_of_int. rewrite size_wrap_small by lia.
    replace (i + 1 =? i) with false by lia. cbn [negb].
    eexists. exists hh. split; [reflexivity|]. split; [reflexivity|].
    rewrite Z.odd_add. change (Z.odd 1) with true. rewrite xorb_true_r.
    destruct (Z.odd i); reflexivity.
  - exact Hrun.
Qed.

(** The theorem at order 1, with the stand-in for [dgetrf_]: the determinant
    of the 1 x 1 identity matrix comes out as -1. *)
Lemma Mat_Determinant_identity_witness :
  (let* m := Mat_CreateSquare 1 MATRIX_IDENTITY in
   Mat_Determinant dgetrf_no_interchange m) [] =
  Done (-1)%float [Some (mkMatrixData [1%float] 1 1)].
Proof.
  apply (Mat_Determinant_identity dgetrf_no_interchange [] 1).
  - unfold MATRIX_SIZE_MAX. lia.
  - reflexivity.
Defined.

(** C3: scaling a 2 x 2 matrix into a result whose recorded shape is 1 x 1,
    with room for four elements, writes one element only: the loop runs over
    the element count the result had on entry. *)
Theorem Mat_Scale_counts_result_elements :
  contents_of
    ((let* a := Mat_Create (Some [1; 2; 3; 4]%float) 2 2 in
      let* b := Mat_Create None 2 2 in
      let* b := Mat_Resize b 1 1 in
      Mat_Scale a 2%float b) []) = Some [2; 0; 0; 0]%float /\
  contents_of
    ((let* a := Mat_Create (Some [1; 2; 3; 4]%float) 2 2 in
      let* b := Mat_Create None 2 2 in
      Mat_Scale a 2%float b) []) = Some [2; 6; 4; 8]%float.
Proof. split; vm_compute; reflexivity. Qed.

(** C4: resizing the 3 x 1 matrix [1; 2; 3] to 2 x 2 leaves 3 in the new
    cell (0, 1), because the copy loop runs over the old row count. *)
Theorem Mat_Resize_new_cell_not_zero :
  (let* a := Mat_Create (Some [1; 2; 3]%float) 3 1 in
   let* r := Mat_Resize a 2 2 in
   Mat_GetElement r 0 1) [] =
  Done 3%float [Some (mkMatrixData [1; 2; 3; 0]%float 2 2)].
Proof. vm_compute. reflexivity. Qed.

(** C5: [Mat_Scale], [Mat_Sum], [Mat_Dot] and [Mat_Transpose] dereference a
    [NULL] result, and [Mat_CreateSquare] dereferences the [NULL] that
    [Mat_Create] returns for a size above [MATRIX_SIZE_MAX]. *)
Theorem null_result_is_dereferenced :
  forall dgemm_,
    (let* a := Mat_Create (Some [1; 2; 3; 4]%float) 2 2 in
     Mat_Scale a 2%float None) [] = Fault /\
    (let* a := Mat_Create (Some [1; 2; 3; 4]%float) 2 2 in
     Mat_Sum a 1%float a 1%float None) [] = Fault /\
    (let* a := Mat_Create (Some [1; 2; 3; 4]%float) 2 2 in
     Mat_Dot dgemm_ a MATRIX_KEEP a MATRIX_KEEP None) [] = Fault /\
    (let* a := Mat_Create (Some [1; 2; 3; 4]%float) 2 2 in
     Mat_Transpose a None) [] = Fault /\
    Mat_CreateSquare 2501 MATRIX_IDENTITY [] = Fault.
Proof. intros dgemm_. repeat split; vm_compute; reflexivity. Qed.

(** C6: [Mat_Scale] of a 2 x 2 matrix onto itself scales all four elements,
    while the same call with a distinct result of recorded shape 1 x 1 and
    room for four elements scales one. *)
Theorem Mat_Scale_aliased_differs :
  contents_of
    ((let* a := Mat_Create (Some [1; 2; 3; 4]%float) 2 2 in
      Mat_Scale a 2%float a) []) = Some [2; 6; 4; 8]%float /\
  contents_of
    ((let* a := Mat_Create (Some [1; 2; 3; 4]%float) 2 2 in
      let* b := Mat_Create None 2 2 in
      let* b := Mat_Resize b 1 1 in
      Mat_Scale a 2%float b) []) = Some [2; 0; 0; 0]%float /\
  [2; 6; 4; 8]%float <> [2; 0; 0; 0]%float.
Proof.
  split; [vm_compute; reflexivity|]. split; [vm_compute; reflexivity|].
  intros Heq.
  assert (Hlt : (0 <? 6)%float = (0 <? 0)%float) by congruence.
  vm_compute in Hlt. discriminate.
Qed.

(** C7: with less room on the stack than [auxArray] takes, as under the
    default limit of 8 MiB, [Mat_Transpose] and [Mat_Inverse] called with a
    [NULL] matrix do not return [NULL]: the array is initialised on entry,
    before the test of the argument, and the process is killed. *)
Theorem auxArray_initialised_before_null_test :
  forall dgemm_ dgetrf_ dgetri_ (limit : Z) (h : heap) (result : Matrix),
    limit < sizeof_auxArray ->
    run_call dgemm_ dgetrf_ dgetri_ (Some limit)
      (Call_Transpose None result) h = Fault /\
    run_call dgemm_ dgetrf_ dgetri_ (Some limit)
      (Call_Inverse None result) h = Fault.
Proof.
  intros dgemm_ dgetrf_ dgetri_ limit h result Hshort.
  cbn [run_call]. unfold Mat_Transpose_within, Mat_Inverse_within, bind.
  rewrite (claim_stack_short _ _ Hshort). split; reflexivity.
Qed.

(** The theorem under the default stack limit, the result being a live
    2 x 2 matrix. *)
Lemma auxArray_initialised_before_null_test_witness :
  let h := [Some (mkMatrixData [1; 2; 3; 4]%float 2 2)] in
  run_call (fun _ _ _ _ _ _ _ _ _ _ _ _ => []) dgetrf_no_interchange
    (fun _ a _ _ _ => (a, 0)) (Some DEFAULT_STACK)
    (Call_Transpose None (Some 0%nat)) h = Fault /\
  run_call (fun _ _ _ _ _ _ _ _ _ _ _ _ => []) dgetrf_no_interchange
    (fun _ a _ _ _ => (a, 0)) (Some DEFAULT_STACK)
    (Call_Inverse None (Some 0%nat)) h = Fault.
Proof.
  intros h.
  apply auxArray_initialised_before_null_test.
  vm_compute. reflexivity.
Defined.

(** C9: transposing the 2 x 1 matrix [1; 2] onto itself twice yields a 1 x 1
    matrix: the row count is overwritten before it is read. *)
Theorem Mat_Transpose_aliased_twice :
  (let* a := Mat_Create (Some [1; 2]%float) 2 1 in
   let* b := Mat_Transpose a a in
   Mat_Transpose b b) [] =
  Done (Some 0%nat) [Some (mkMatrixData [1; 2]%float 1 1)].
Proof. vm_compute. reflexivity. Qed.
(** * Further properties of the storage operations *)

(** ** Creation *)

(** [Mat_Create] with both dimensions up to [MATRIX_SIZE_MAX]: the zeroed
    matrix is in place at a fresh address when the contents are filled in. *)
Lemma Mat_Create_allocates (h : heap) src R C :
  0 <= R <= MATRIX_SIZE_MAX -> 0 <= C <= MATRIX_SIZE_MAX ->
  Mat_Create src R C h =
  ((match src with
    | None => Mat_Clear (Some (length h));; ret tt
    | Some values => Mat_SetData (Some (length h)) values
    end;;
    ret (Some (length h)))
     (h ++ [Some (mkMatrixData (replicate (Z.to_nat (R * C)) 0%float) R C)])).
Proof.
  intros HR HC.
  destruct (MATRIX_SIZE_MAX_bytes R C HR HC) as [Hcount Hbytes].
  unfold Mat_Create.
  replace (R >? MATRIX_SIZE_MAX) with false by lia.
  replace (C >? MATRIX_SIZE_MAX) with false by lia.
  cbn [orb].
  assert (Hm : malloc_MatrixData h =
               Done (Some (length h)) (h ++ [Some (mkMatrixData [] 0 0)]))
    by reflexivity.
  step Hm.
  step (set_data_live _ _ _ _ (heap_fresh_lookup _ _)).
  rewrite heap_fresh_insert.
  step (set_rows_live _ _ _ _ (heap_fresh_lookup _ _)).
  rewrite heap_fresh_insert.
  step (set_columns_live _ _ _ _ (heap_fresh_lookup _ _)).
  rewrite heap_fresh_insert.
  cbn [data rowsNumber columnsNumber].
  unfold calloc, size_mul.
  rewrite (size_wrap_small (R * C)) by (unfold SIZEOF_DOUBLE in *; lia).
  reflexivity.
Qed.

Lemma zero_matrix_well_formed R C :
  0 <= R <= MATRIX_SIZE_MAX -> 0 <= C <= MATRIX_SIZE_MAX ->
  well_formed (mkMatrixData (replicate (Z.to_nat (R * C)) 0%float) R C).
Proof.
  intros HR HC. destruct (MATRIX_SIZE_MAX_bytes R C HR HC) as [Hcount Hbytes].
  unfold well_formed. cbn. rewrite length_replicate.
  repeat split; try lia. rewrite Z2Nat.id by lia. exact Hbytes.
Qed.

Lemma heap_fresh_old (h : heap) (x : option MatrixData) (l : nat) :
  (l < length h)%nat -> (h ++ [x]) !! l = h !! l.
Proof. intros Hl. apply lookup_app_l, Hl. Qed.

(** X1: [Mat_Create( NULL, R, C )] returns [NULL] and changes nothing when a
    dimension exceeds [MATRIX_SIZE_MAX]; otherwise it returns a fresh handle
    to a well-formed [R x C] matrix whose height and width are [R] and [C]
    and whose every element reads 0, and it leaves all other matrices as
    they were. *)
Theorem Mat_Create_zero_matrix :
  forall (h : heap) (R C : Z),
    0 <= R -> 0 <= C ->
    (MATRIX_SIZE_MAX < R \/ MATRIX_SIZE_MAX < C ->
     Mat_Create None R C h = Done None h) /\
    (R <= MATRIX_SIZE_MAX -> C <= MATRIX_SIZE_MAX ->
     exists h' d,
       Mat_Create None R C h = Done (Some (length h)) h' /\
       h' !! length h = Some (Some d) /\ well_formed d /\
       (forall l, (l < length h)%nat -> h' !! l = h !! l) /\
       Mat_GetHeight (Some (length h)) h' = Done R h' /\
       Mat_GetWidth (Some (length h)) h' = Done C h' /\
       forall r c, 0 <= r -> 0 <= c ->
         Mat_GetElement (Some (length h)) r c h' = Done 0%float h').
Proof.
  intros h R C HR0 HC0. split.
  - apply Mat_Create_refuses.
  - intros HR HC.
    set (d := mkMatrixData (replicate (Z.to_nat (R * C)) 0%float) R C).
    assert (Hwf : well_formed d) by (apply zero_matrix_well_formed; lia).
    assert (Hl : (h ++ [Some d]) !! length h = Some (Some d))
      by apply heap_fresh_lookup.
    exists (h ++ [Some d]), d.
    split; [apply Mat_Create_zero; lia|].
    split; [exact Hl|]. split; [exact Hwf|].
    split; [intros l Hlt; apply heap_fresh_old, Hlt|].
    split; [apply (get_rows_live _ _ d Hl)|].
    split; [apply (get_columns_live _ _ d Hl)|].
    intros r c Hr Hc.
    destruct (Z_lt_le_dec r R) as [Hr'|Hr'];
      [destruct (Z_lt_le_dec c C) as [Hc'|Hc']|].
    + apply (Mat_GetElement_in_bounds _ _ d); try assumption; cbn; try lia.
      apply lookup_replicate_2.
      pose proof (cell_index_bound r c R C ltac:(lia) ltac:(lia)). lia.
    + apply (Mat_GetElement_out_of_bounds _ _ d _ _ Hl). right. cbn. lia.
    + apply (Mat_GetElement_out_of_bounds _ _ d _ _ Hl). left. cbn. lia.
Qed.

(** The theorem at a 2 x 3 request on a heap that holds one matrix. *)
Lemma Mat_Create_zero_matrix_witness :
  let h := [Some (mkMatrixData [7%float] 1 1)] in
  (MATRIX_SIZE_MAX < 2 \/ MATRIX_SIZE_MAX < 3 ->
   Mat_Create None 2 3 h = Done None h) /\
  (2 <= MATRIX_SIZE_MAX -> 3 <= MATRIX_SIZE_MAX ->
   exists h' d,
     Mat_Create None 2 3 h = Done (Some (length h)) h' /\
     h' !! length h = Some (Some d) /\ well_formed d /\
     (forall l, (l < length h)%nat -> h' !! l = h !! l) /\
     Mat_GetHeight (Some (length h)) h' = Done 2 h' /\
     Mat_GetWidth (Some (length h)) h' = Done 3 h' /\
     forall r c, 0 <= r -> 0 <= c ->
       Mat_GetElement (Some (length h)) r c h' = Done 0%float h').
Proof.
  intros h. apply (Mat_Create_zero_matrix h 2 3); lia.
Defined.

(** X2: [Mat_Create( X, R, C )] with a row-major array [X] of at least
    [R * C] doubles returns a fresh [R x C] matrix in which element [(r, c)]
    is [X[ r * C + c ]]. *)
Theorem Mat_Create_imports_row_major :
  forall (h : heap) (X : list float) (R C : Z),
    0 <= R <= MATRIX_SIZE_MAX -> 0 <= C <= MATRIX_SIZE_MAX ->
    R * C <= Z.of_nat (length X) ->
    exists h',
      Mat_Create (Some X) R C h = Done (Some (length h)) h' /\
      Mat_GetHeight (Some (length h)) h' = Done R h' /\
      Mat_GetWidth (Some (length h)) h' = Done C h' /\
      (forall l, (l < length h)%nat -> h' !! l = h !! l) /\
      forall r c, 0 <= r < R -> 0 <= c < C ->
        exists x, X !! Z.to_nat (r * C + c) = Some x /\
                  Mat_GetElement (Some (length h)) r c h' = Done x h'.
Proof.
  intros h X R C HR HC HX.
  set (d := mkMatrixData (replicate (Z.to_nat (R * C)) 0%float) R C).
  assert (Hwf : well_formed d) by (apply zero_matrix_well_formed; lia).
  assert (Hl : (h ++ [Some d]) !! length h = Some (Some d))
    by apply heap_fresh_lookup.
  destruct (Mat_SetData_spec _ _ d X Hl Hwf HX) as (buf & Hset & Hlenb & Hcells).
  rewrite heap_fresh_insert in Hset. cbn [rowsNumber columnsNumber d] in *.
  set (d' := mkMatrixData buf R C) in *.
  assert (Hl' : (h ++ [Some d']) !! length h = Some (Some d'))
    by apply heap_fresh_lookup.
  assert (Hwf' : well_formed d').
  { unfold well_formed, d'. cbn. rewrite Hlenb. exact Hwf. }
  exists (h ++ [Some d']).
  split.
  { rewrite Mat_Create_allocates by assumption. fold d. step Hset. reflexivity. }
  split; [apply (get_rows_live _ _ d' Hl')|].
  split; [apply (get_columns_live _ _ d' Hl')|].
  split; [intros l Hlt; apply heap_fresh_old, Hlt|].
  intros r c Hr Hc.
  pose proof (cell_index_bound c r C R Hc Hr) as Hb.
  destruct (lookup_lt_is_Some_2 X (Z.to_nat (r * C + c)) ltac:(lia)) as [x Hx].
  exists x. split; [exact Hx|].
  apply (Mat_GetElement_in_bounds _ _ d' _ _ _ Hl' Hwf' Hr Hc).
  cbn. rewrite Hcells by assumption. exact Hx.
Qed.

(** The theorem at the 2 x 2 matrix of the rows [1 2] and [3 4]. *)
Lemma Mat_Create_imports_row_major_witness :
  exists h',
    Mat_Create (Some [1; 2; 3; 4]%float) 2 2 [] = Done (Some 0%nat) h' /\
    Mat_GetHeight (Some 0%nat) h' = Done 2 h' /\
    Mat_GetWidth (Some 0%nat) h' = Done 2 h' /\
    (forall l, (l < 0)%nat -> h' !! l = ([] : heap) !! l) /\
    forall r c, 0 <= r < 2 -> 0 <= c < 2 ->
      exists x, [1; 2; 3; 4]%float !! Z.to_nat (r * 2 + c) = Some x /\
                Mat_GetElement (Some 0%nat) r c h' = Done x h'.
Proof.
  apply (Mat_Create_imports_row_major [] [1; 2; 3; 4]%float 2 2).
  - unfold MATRIX_SIZE_MAX. lia.
  - unfold MATRIX_SIZE_MAX. lia.
  - cbn. lia.
Defined.

(** X3: [Mat_CreateSquare( n, MATRIX_IDENTITY )] with [n] up to
    [MATRIX_SIZE_MAX] returns a fresh [n x n] matrix whose element [(r, c)]
    reads 1 on the diagonal and 0 elsewhere; with any other type it is
    [Mat_Create( NULL, n, n )]. *)
Theorem Mat_CreateSquare_elements :
  forall (h : heap) (n : Z) (type : ascii),
    0 <= n <= MATRIX_SIZE_MAX ->
    (type <> MATRIX_IDENTITY ->
     Mat_CreateSquare n type h = Mat_Create None n n h) /\
    exists h',
      Mat_CreateSquare n MATRIX_IDENTITY h = Done (Some (length h)) h' /\
      Mat_GetHeight (Some (length h)) h' = Done n h' /\
      Mat_GetWidth (Some (length h)) h' = Done n h' /\
      forall r c, 0 <= r < n -> 0 <= c < n ->
        Mat_GetElement (Some (length h)) r c h' =
        Done (if r =? c then 1%float else 0%float) h'.
Proof.
  intros h n type Hn. split.
  - intros Htype. unfold Mat_CreateSquare.
    step (Mat_Create_zero h n n Hn Hn).
    rewrite (Mat_Create_zero h n n Hn Hn).
    destruct (Ascii.eqb_spec type "I") as [E|_]; [contradiction|].
    reflexivity.
  - destruct (MATRIX_SIZE_MAX_bytes n n Hn Hn) as [Hcount Hbytes].
    set (d := mkMatrixData (identity_buffer n) n n).
    assert (Hl : (h ++ [Some d]) !! length h = Some (Some d))
      by apply heap_fresh_lookup.
    assert (Hlen : length (identity_buffer n) = Z.to_nat (n * n))
      by (unfold identity_buffer; rewrite length_fmap, length_seq; reflexivity).
    assert (Hwf : well_formed d).
    { unfold well_formed, d. cbn. rewrite Hlen.
      repeat split; try lia. rewrite Z2Nat.id by lia. exact Hbytes. }
    exists (h ++ [Some d]).
    split; [apply Mat_CreateSquare_identity, Hn|].
    split; [apply (get_rows_live _ _ d Hl)|].
    split; [apply (get_columns_live _ _ d Hl)|].
    intros r c Hr Hc.
    pose proof (cell_index_bound r c n n Hr Hc) as Hb.
    apply (Mat_GetElement_in_bounds _ _ d _ _ _ Hl Hwf Hr Hc). cbn.
    unfold identity_buffer. rewrite lookup_tabulate by lia.
    rewrite Z2Nat.id by lia.
    replace ((c * n + r) mod n) with r
      by (rewrite Z.add_comm, Z.mod_add by lia; symmetry; apply Z.mod_small; lia).
    replace ((c * n + r) / n) with c
      by (rewrite Z.add_comm, Z.div_add by lia; rewrite Z.div_small by lia; lia).
    reflexivity.
Qed.

(** The theorem at order 3. *)
Lemma Mat_CreateSquare_elements_witness :
  (MATRIX_ZERO <> MATRIX_IDENTITY ->
   Mat_CreateSquare 3 MATRIX_ZERO [] = Mat_Create None 3 3 []) /\
  exists h',
    Mat_CreateSquare 3 MATRIX_IDENTITY [] = Done (Some 0%nat) h' /\
    Mat_GetHeight (Some 0%nat) h' = Done 3 h' /\
    Mat_GetWidth (Some 0%nat) h' = Done 3 h' /\
    forall r c, 0 <= r < 3 -> 0 <= c < 3 ->
      Mat_GetElement (Some 0%nat) r c h' =
      Done (if r =? c then 1%float else 0%float) h'.
Proof.
  apply (Mat_CreateSquare_elements [] 3 MATRIX_ZERO).
  unfold MATRIX_SIZE_MAX. lia.
Defined.

(** X4: for a size above [MATRIX_SIZE_MAX], [Mat_CreateSquare] returns
    [NULL] when the type is not the identity and stores through the [NULL]
    that [Mat_Create] returned when it is. *)
Theorem Mat_CreateSquare_over_limit :
  forall (h : heap) (n : Z) (type : ascii),
    MATRIX_SIZE_MAX < n ->
    Mat_CreateSquare n type h =
    if Ascii.eqb type MATRIX_IDENTITY then Fault else Done None h.
Proof.
  intros h n type Hn. unfold Mat_CreateSquare.
  step (Mat_Create_refuses h None n n (or_introl Hn)).
  change MATRIX_IDENTITY with "I"%char.
  destruct (Ascii.eqb type "I"); [|reflexivity].
  unfold for_size.
  assert (0 < n) by (unfold MATRIX_SIZE_MAX in Hn; lia).
  destruct (Z.to_nat n) as [|k] eqn:E; [lia|]. reflexivity.
Qed.

(** The theorem at size 2501. *)
Lemma Mat_CreateSquare_over_limit_witness :
  Mat_CreateSquare 2501 MATRIX_ZERO [] = Done None [] /\
  Mat_CreateSquare 2501 MATRIX_IDENTITY [] = Fault.
Proof.
  split.
  - apply (Mat_CreateSquare_over_limit [] 2501 MATRIX_ZERO).
    unfold MATRIX_SIZE_MAX. lia.
  - apply (Mat_CreateSquare_over_limit [] 2501 MATRIX_IDENTITY).
    unfold MATRIX_SIZE_MAX. lia.
Defined.

(** ** Clearing and copying *)

Lemma Mat_GetElement_reads h l d r c x :
  h !! l = Some (Some d) ->
  rowsNumber d * columnsNumber d < SIZE_MODULUS ->
  0 <= r < rowsNumber d -> 0 <= c < columnsNumber d ->
  data d !! Z.to_nat (c * rowsNumber d + r) = Some x ->
  Mat_GetElement (Some l) r c h = Done x h.
Proof.
  intros Hl Hcount Hr Hc Hx. unfold Mat_GetElement.
  step (get_rows_live _ _ _ Hl). step (get_columns_live _ _ _ Hl).
  replace (r >=? rowsNumber d) with false by lia.
  replace (c >=? columnsNumber d) with false by lia.
  cbn [orb]. rewrite (cell_index_wrap r c _ _ Hr Hc Hcount).
  apply (load_live _ _ _ _ _ Hl Hx).
Qed.

Lemma well_formed_bytes d :
  well_formed d ->
  0 <= rowsNumber d * columnsNumber d /\
  rowsNumber d * columnsNumber d * SIZEOF_DOUBLE < SIZE_MODULUS /\
  bytes_of (rowsNumber d) (columnsNumber d) / SIZEOF_DOUBLE =
    rowsNumber d * columnsNumber d.
Proof.
  intros (HR & HC & Hlen & Hbytes).
  assert (H0 : 0 <= rowsNumber d * columnsNumber d) by nia.
  assert (H1 : rowsNumber d * columnsNumber d * SIZEOF_DOUBLE < SIZE_MODULUS)
    by (unfold SIZEOF_DOUBLE in *; lia).
  split; [exact H0|]. split; [exact H1|]. apply bytes_of_count; assumption.
Qed.

(** X5: [Mat_Clear] on a live, well-formed matrix returns the handle, keeps
    the dimensions, makes every element read 0 and leaves every other
    matrix as it was; on [NULL] it returns [NULL]. *)
Theorem Mat_Clear_zeroes :
  forall (h : heap) (l : nat) (d : MatrixData),
    Mat_Clear None h = Done None h /\
    (h !! l = Some (Some d) -> well_formed d ->
     exists h',
       Mat_Clear (Some l) h = Done (Some l) h' /\
       Mat_GetHeight (Some l) h' = Done (rowsNumber d) h' /\
       Mat_GetWidth (Some l) h' = Done (columnsNumber d) h' /\
       (forall l', l' <> l -> h' !! l' = h !! l') /\
       forall r c, 0 <= r -> 0 <= c ->
         Mat_GetElement (Some l) r c h' = Done 0%float h').
Proof.
  intros h l d. split; [reflexivity|]. intros Hl Hwf.
  destruct (well_formed_bytes d Hwf) as (H0 & H1 & Hbytes).
  set (n := Z.to_nat (rowsNumber d * columnsNumber d)).
  set (d' := mkMatrixData (replicate n 0%float ++ drop n (data d))
               (rowsNumber d) (columnsNumber d)).
  assert (Hn : (n <= length (data d))%nat) by (destruct Hwf as (_ & _ & ? & _); lia).
  assert (Hl' : <[l := Some d']> h !! l = Some (Some d'))
    by apply (heap_insert_live _ _ _ _ Hl).
  assert (Hwf' : well_formed d').
  { unfold well_formed, d'. cbn.
    rewrite length_app, length_replicate, length_drop.
    replace (n + (length (data d) - n))%nat with (length (data d)) by lia.
    exact Hwf. }
  exists (<[l := Some d']> h).
  split.
  { unfold Mat_Clear.
    step (get_rows_live _ _ _ Hl). step (get_columns_live _ _ _ Hl).
    step (memset_zero_live _ _ _ _ _ Hl Hbytes Hn). reflexivity. }
  split; [apply (get_rows_live _ _ d' Hl')|].
  split; [apply (get_columns_live _ _ d' Hl')|].
  split; [intros l' Hne; apply list_lookup_insert_ne; congruence|].
  intros r c Hr Hc.
  destruct (Z_lt_le_dec r (rowsNumber d)) as [Hr'|Hr'];
    [destruct (Z_lt_le_dec c (columnsNumber d)) as [Hc'|Hc']|].
  - pose proof (cell_index_bound r c _ _ (conj Hr Hr') (conj Hc Hc')) as Hb.
    apply (Mat_GetElement_in_bounds _ _ d' _ _ _ Hl' Hwf'); cbn; try lia.
    rewrite lookup_app_l by (rewrite length_replicate; lia).
    apply lookup_replicate_2. lia.
  - apply (Mat_GetElement_out_of_bounds _ _ d' _ _ Hl'). right. cbn. lia.
  - apply (Mat_GetElement_out_of_bounds _ _ d' _ _ Hl'). left. cbn. lia.
Qed.

(** The theorem at a 2 x 2 matrix. *)
Lemma Mat_Clear_zeroes_witness :
  let d := mkMatrixData [1; 2; 3; 4]%float 2 2 in
  exists h',
    Mat_Clear (Some 0%nat) [Some d] = Done (Some 0%nat) h' /\
    Mat_GetHeight (Some 0%nat) h' = Done 2 h' /\
    Mat_GetWidth (Some 0%nat) h' = Done 2 h' /\
    (forall l', l' <> 0%nat -> h' !! l' = [Some d] !! l') /\
    forall r c, 0 <= r -> 0 <= c ->
      Mat_GetElement (Some 0%nat) r c h' = Done 0%float h'.
Proof.
  intros d.
  apply (Mat_Clear_zeroes [Some d] 0%nat d).
  - reflexivity.
  - unfold well_formed. cbn. unfold SIZEOF_DOUBLE, SIZE_MODULUS. lia.
Defined.

Lemma memcpy_from_array_live h l d (src : list float) bytes n :
  h !! l = Some (Some d) -> bytes / SIZEOF_DOUBLE = n ->
  memcpy_from_array (Some l) src bytes h =
  if decide (Z.to_nat n <= length (data d))%nat then
    if decide (Z.to_nat n <= length src)%nat then
      Done tt
        (<[l := Some (mkMatrixData
                        (take (Z.to_nat n) src ++ drop (Z.to_nat n) (data d))
                        (rowsNumber d) (columnsNumber d))]> h)
    else Fault
  else Fault.
Proof.
  intros H Hn. unfold memcpy_from_array.
  step (get_data_live _ _ _ H). rewrite Hn.
  destruct (decide _); [|reflexivity].
  destruct (decide _); [|reflexivity].
  apply (set_data_live _ _ _ _ H).
Qed.

(** [Mat_Copy] on live handles: the dimensions are recorded first, then the
    source's elements are copied over. *)
Lemma Mat_Copy_runs h l ld d dd :
  h !! l = Some (Some d) -> h !! ld = Some (Some dd) ->
  Mat_Copy (Some l) (Some ld) h =
  (memcpy_from_array (Some ld) (data d)
     (bytes_of (rowsNumber d) (columnsNumber d));;
   ret (Some ld))
    (<[ld := Some (mkMatrixData (data dd) (rowsNumber d) (columnsNumber d))]> h).
Proof.
  intros Hl Hld.
  assert (Hsame : l = ld -> d = dd) by (intros ->; congruence).
  unfold Mat_Copy.
  step (get_rows_live _ _ _ Hl). step (set_rows_live _ _ _ _ Hld).
  set (h1 := <[ld := Some (mkMatrixData (data dd) (rowsNumber d) (columnsNumber dd))]> h).
  assert (Hcols : get_columns (Some l) h1 = Done (columnsNumber d) h1).
  { destruct (decide (l = ld)) as [->|Hne].
    - unfold h1.
      rewrite (get_columns_live _ _ _ (heap_insert_live _ _ _ _ Hld)). cbn.
      rewrite (Hsame eq_refl). reflexivity.
    - apply (get_columns_live _ _ d). unfold h1.
      rewrite list_lookup_insert_ne by congruence. exact Hl. }
  step Hcols. unfold h1.
  step (set_columns_live _ _ _ _ (heap_insert_live _ _ _ _ Hld)).
  rewrite list_insert_insert_eq. cbn [data rowsNumber].
  set (h2 := <[ld := Some (mkMatrixData (data dd) (rowsNumber d) (columnsNumber d))]> h).
  assert (Hres : h2 !! ld =
            Some (Some (mkMatrixData (data dd) (rowsNumber d) (columnsNumber d))))
    by apply (heap_insert_live _ _ _ _ Hld).
  step (get_rows_live _ _ _ Hres). step (get_columns_live _ _ _ Hres).
  cbn [rowsNumber columnsNumber].
  assert (Hsrc : get_data (Some l) h2 = Done (data d) h2).
  { destruct (decide (l = ld)) as [->|Hne].
    - rewrite (get_data_live _ _ _ Hres). cbn. rewrite (Hsame eq_refl). reflexivity.
    - apply (get_data_live _ _ d). unfold h2.
      rewrite list_lookup_insert_ne by congruence. exact Hl. }
  unfold memcpy_matrix.
  unfold bind at 1 2. rewrite Hsrc. reflexivity.
Qed.

(** X6: [Mat_Copy] between live handles, when the destination's buffer has
    room for the source's elements, returns the destination, gives it the
    source's dimensions and elements, and leaves every other matrix, the
    source included, as it was; with a [NULL] handle it returns [NULL]. *)
Theorem Mat_Copy_copies :
  forall (h : heap) (l ld : nat) (d dd : MatrixData) (m : Matrix),
    Mat_Copy None m h = Done None h /\ Mat_Copy m None h = Done None h /\
    (h !! l = Some (Some d) -> h !! ld = Some (Some dd) -> well_formed d ->
     rowsNumber d * columnsNumber d <= Z.of_nat (length (data dd)) ->
     exists h',
       Mat_Copy (Some l) (Some ld) h = Done (Some ld) h' /\
       Mat_GetHeight (Some ld) h' = Done (rowsNumber d) h' /\
       Mat_GetWidth (Some ld) h' = Done (columnsNumber d) h' /\
       (forall l', l' <> ld -> h' !! l' = h !! l') /\
       forall r c, 0 <= r -> 0 <= c ->
         exists x, Mat_GetElement (Some l) r c h = Done x h /\
                   Mat_GetElement (Some ld) r c h' = Done x h').
Proof.
  intros h l ld d dd m.
  split; [reflexivity|]. split; [destruct m; reflexivity|].
  intros Hl Hld Hwf Hroom.
  destruct (well_formed_bytes d Hwf) as (H0 & H1 & Hbytes).
  pose proof (well_formed_count d Hwf) as Hcount.
  pose proof Hwf as (HR & HC & Hlen & _).
  set (n := Z.to_nat (rowsNumber d * columnsNumber d)).
  set (d' := mkMatrixData (take n (data d) ++ drop n (data dd))
               (rowsNumber d) (columnsNumber d)).
  assert (Hl' : <[ld := Some d']> h !! ld = Some (Some d'))
    by apply (heap_insert_live _ _ _ _ Hld).
  exists (<[ld := Some d']> h).
  split.
  { rewrite (Mat_Copy_runs h l ld d dd Hl Hld).
    set (h2 := <[ld := _]> h).
    assert (Hcopy : memcpy_from_array (Some ld) (data d)
                      (bytes_of (rowsNumber d) (columnsNumber d)) h2 =
                    Done tt (<[ld := Some d']> h)).
    { rewrite (memcpy_from_array_live h2 ld _ _ _ _
                 (heap_insert_live _ _ _ _ Hld) Hbytes).
      cbn [data rowsNumber columnsNumber]. fold n.
      destruct (decide (n <= length (data dd))%nat); [|lia].
      destruct (decide (n <= length (data d))%nat); [|lia].
      unfold h2. rewrite list_insert_insert_eq. reflexivity. }
    step Hcopy. reflexivity. }
  split; [apply (get_rows_live _ _ d' Hl')|].
  split; [apply (get_columns_live _ _ d' Hl')|].
  split; [intros l' Hne; apply list_lookup_insert_ne; congruence|].
  intros r c Hr Hc.
  destruct (Z_lt_le_dec r (rowsNumber d)) as [Hr'|Hr'];
    [destruct (Z_lt_le_dec c (columnsNumber d)) as [Hc'|Hc']|].
  - pose proof (cell_index_bound r c _ _ (conj Hr Hr') (conj Hc Hc')) as Hb.
    destruct (lookup_lt_is_Some_2 (data d)
                (Z.to_nat (c * rowsNumber d + r)) ltac:(lia)) as [x Hx].
    exists x. split.
    + apply (Mat_GetElement_in_bounds _ _ d); try assumption; lia.
    + apply (Mat_GetElement_reads _ _ d'); cbn; try assumption; try lia.
      rewrite lookup_app_l by (rewrite length_take; lia).
      rewrite lookup_take_lt by lia. exact Hx.
  - exists 0%float. split.
    + apply (Mat_GetElement_out_of_bounds _ _ d _ _ Hl). right. lia.
    + apply (Mat_GetElement_out_of_bounds _ _ d' _ _ Hl'). right. cbn. lia.
  - exists 0%float. split.
    + apply (Mat_GetElement_out_of_bounds _ _ d _ _ Hl). left. lia.
    + apply (Mat_GetElement_out_of_bounds _ _ d' _ _ Hl'). left. cbn. lia.
Qed.

(** The theorem at a 2 x 2 source and a 1 x 4 destination. *)
Lemma Mat_Copy_copies_witness :
  let d := mkMatrixData [1; 2; 3; 4]%float 2 2 in
  let dd := mkMatrixData [0; 0; 0; 0]%float 1 4 in
  exists h',
    Mat_Copy (Some 0%nat) (Some 1%nat) [Some d; Some dd] = Done (Some 1%nat) h' /\
    Mat_GetHeight (Some 1%nat) h' = Done 2 h' /\
    Mat_GetWidth (Some 1%nat) h' = Done 2 h' /\
    (forall l', l' <> 1%nat -> h' !! l' = [Some d; Some dd] !! l') /\
    forall r c, 0 <= r -> 0 <= c ->
      exists x, Mat_GetElement (Some 0%nat) r c [Some d; Some dd] =
                  Done x [Some d; Some dd] /\
                Mat_GetElement (Some 1%nat) r c h' = Done x h'.
Proof.
  intros d dd.
  apply (Mat_Copy_copies [Some d; Some dd] 0%nat 1%nat d dd None).
  - reflexivity.
  - reflexivity.
  - unfold well_formed. cbn. unfold SIZEOF_DOUBLE, SIZE_MODULUS. lia.
  - cbn. lia.
Defined.

(** X7: [Mat_Copy] does not resize: into a live destination whose buffer is
    smaller than the source's element count it writes past the buffer. *)
Theorem Mat_Copy_overflows :
  forall (h : heap) (l ld : nat) (d dd : MatrixData),
    h !! l = Some (Some d) -> h !! ld = Some (Some dd) -> well_formed d ->
    Z.of_nat (length (data dd)) < rowsNumber d * columnsNumber d ->
    Mat_Copy (Some l) (Some ld) h = Fault.
Proof.
  intros h l ld d dd Hl Hld Hwf Hsmall.
  destruct (well_formed_bytes d Hwf) as (H0 & H1 & Hbytes).
  rewrite (Mat_Copy_runs h l ld d dd Hl Hld).
  unfold bind.
  rewrite (memcpy_from_array_live _ ld _ _ _ _
             (heap_insert_live _ _ _ _ Hld) Hbytes).
  cbn [data].
  destruct (decide _) as [Hbad|]; [lia|reflexivity].
Qed.

(** The theorem at a 2 x 2 source and a 1 x 1 destination. *)
Lemma Mat_Copy_overflows_witness :
  Mat_Copy (Some 0%nat) (Some 1%nat)
    [Some (mkMatrixData [1; 2; 3; 4]%float 2 2);
     Some (mkMatrixData [0%float] 1 1)] = Fault.
Proof.
  apply (Mat_Copy_overflows _ 0%nat 1%nat
           (mkMatrixData [1; 2; 3; 4]%float 2 2) (mkMatrixData [0%float] 1 1)).
  - reflexivity.
  - reflexivity.
  - unfold well_formed. cbn. unfold SIZEOF_DOUBLE, SIZE_MODULUS. lia.
  - cbn. lia.
Defined.

(** ** Element access and bulk transfer *)

(** X8: access outside the matrix is silent.  For a live matrix and a
    position whose row is at least the row count or whose column is at
    least the column count, [Mat_GetElement] returns 0 and
    [Mat_SetElement] leaves the heap as it was; so do both on [NULL]. *)
Theorem element_access_out_of_bounds :
  forall (h : heap) (l : nat) (d : MatrixData) (row column : Z) (v : float),
    Mat_GetElement None row column h = Done 0%float h /\
    Mat_SetElement None row column v h = Done tt h /\
    (h !! l = Some (Some d) ->
     rowsNumber d <= row \/ columnsNumber d <= column ->
     Mat_GetElement (Some l) row column h = Done 0%float h /\
     Mat_SetElement (Some l) row column v h = Done tt h).
Proof.
  intros h l d row column v.
  split; [reflexivity|]. split; [reflexivity|].
  intros Hl Hout. split.
  - apply (Mat_GetElement_out_of_bounds _ _ d _ _ Hl Hout).
  - unfold Mat_SetElement.
    step (get_rows_live _ _ _ Hl). step (get_columns_live _ _ _ Hl).
    destruct Hout.
    + replace (row >=? rowsNumber d) with true by lia. reflexivity.
    + replace (column >=? columnsNumber d) with true by lia.
      rewrite orb_true_r. reflexivity.
Qed.

(** The theorem one row past the end of a 2 x 2 matrix. *)
Lemma element_access_out_of_bounds_witness :
  let d := mkMatrixData [1; 2; 3; 4]%float 2 2 in
  Mat_GetElement (Some 0%nat) 2 0 [Some d] = Done 0%float [Some d] /\
  Mat_SetElement (Some 0%nat) 2 0 9%float [Some d] = Done tt [Some d].
Proof.
  intros d.
  apply (element_access_out_of_bounds [Some d] 0%nat d 2 0 9%float).
  - reflexivity.
  - left. cbn. lia.
Defined.

(** X9: [Mat_GetData] exports in row-major order.  For a live, well-formed
    matrix and a buffer with room for its elements, position
    [r * columns + c] of the filled buffer holds what [Mat_GetElement]
    returns for [(r, c)]; the rest of the buffer and the heap are as
    before.  On [NULL] it returns [NULL]. *)
Theorem Mat_GetData_row_major :
  forall (h : heap) (l : nat) (d : MatrixData) (buffer : list float),
    Mat_GetData None buffer h = Done None h /\
    (h !! l = Some (Some d) -> well_formed d ->
     rowsNumber d * columnsNumber d <= Z.of_nat (length buffer) ->
     exists out,
       Mat_GetData (Some l) buffer h = Done (Some out) h /\
       length out = length buffer /\
       (forall r c, 0 <= r < rowsNumber d -> 0 <= c < columnsNumber d ->
          exists x, out !! Z.to_nat (r * columnsNumber d + c) = Some x /\
                    Mat_GetElement (Some l) r c h = Done x h) /\
       forall i : nat, rowsNumber d * columnsNumber d <= Z.of_nat i ->
         out !! i = buffer !! i).
Proof.
  intros h l d buffer. split; [reflexivity|]. intros Hl Hwf Hroom.
  destruct (Mat_GetData_spec h l d buffer Hl Hwf Hroom)
    as (out & Hrun & Hlen & Hcells & Hrest).
  exists out. split; [exact Hrun|]. split; [exact Hlen|]. split; [|exact Hrest].
  intros r c Hr Hc.
  destruct (lookup_lt_is_Some_2 (data d) (Z.to_nat (c * rowsNumber d + r))
              (cell_in_buffer d r c Hwf Hr Hc)) as [x Hx].
  exists x. split.
  - rewrite (Hcells r c Hr Hc). exact Hx.
  - apply (Mat_GetElement_in_bounds _ _ d _ _ _ Hl Hwf Hr Hc Hx).
Qed.

(** The theorem at a 2 x 3 matrix and a buffer of seven doubles. *)
Lemma Mat_GetData_row_major_witness :
  let d := mkMatrixData [1; 4; 2; 5; 3; 6]%float 2 3 in
  let buffer := [9; 9; 9; 9; 9; 9; 9]%float in
  exists out,
    Mat_GetData (Some 0%nat) buffer [Some d] = Done (Some out) [Some d] /\
    length out = length buffer /\
    (forall r c, 0 <= r < 2 -> 0 <= c < 3 ->
       exists x, out !! Z.to_nat (r * 3 + c) = Some x /\
                 Mat_GetElement (Some 0%nat) r c [Some d] = Done x [Some d]) /\
    forall i : nat, 2 * 3 <= Z.of_nat i -> out !! i = buffer !! i.
Proof.
  intros d buffer.
  apply (Mat_GetData_row_major [Some d] 0%nat d buffer).
  - reflexivity.
  - unfold well_formed. cbn. unfold SIZEOF_DOUBLE, SIZE_MODULUS. lia.
  - cbn. lia.
Defined.

(** X10: [Mat_SetData] imports in row-major order.  On a live, well-formed
    matrix and an array [X] of at least [rows * columns] doubles it keeps the
    dimensions, makes [Mat_GetElement] return [X[ r * columns + c ]] for
    every in-bounds [(r, c)], and leaves every other matrix as it was.  On
    [NULL] it does nothing. *)
Theorem Mat_SetData_row_major :
  forall (h : heap) (l : nat) (d : MatrixData) (X : list float),
    Mat_SetData None X h = Done tt h /\
    (h !! l = Some (Some d) -> well_formed d ->
     rowsNumber d * columnsNumber d <= Z.of_nat (length X) ->
     exists h',
       Mat_SetData (Some l) X h = Done tt h' /\
       Mat_GetHeight (Some l) h' = Done (rowsNumber d) h' /\
       Mat_GetWidth (Some l) h' = Done (columnsNumber d) h' /\
       (forall l', l' <> l -> h' !! l' = h !! l') /\
       forall r c, 0 <= r < rowsNumber d -> 0 <= c < columnsNumber d ->
         exists x, X !! Z.to_nat (r * columnsNumber d + c) = Some x /\
                   Mat_GetElement (Some l) r c h' = Done x h').
Proof.
  intros h l d X. split; [reflexivity|]. intros Hl Hwf HX.
  destruct (Mat_SetData_spec h l d X Hl Hwf HX) as (buf & Hset & Hlenb & Hcells).
  set (d' := mkMatrixData buf (rowsNumber d) (columnsNumber d)) in *.
  assert (Hl' : <[l := Some d']> h !! l = Some (Some d'))
    by apply (heap_insert_live _ _ _ _ Hl).
  assert (Hwf' : well_formed d').
  { unfold well_formed, d'. cbn. rewrite Hlenb. exact Hwf. }
  exists (<[l := Some d']> h).
  split; [exact Hset|].
  split; [apply (get_rows_live _ _ d' Hl')|].
  split; [apply (get_columns_live _ _ d' Hl')|].
  split; [intros l' Hne; apply list_lookup_insert_ne; congruence|].
  intros r c Hr Hc.
  pose proof (cell_index_bound c r _ _ Hc Hr) as Hb.
  destruct (lookup_lt_is_Some_2 X (Z.to_nat (r * columnsNumber d + c))
              ltac:(lia)) as [x Hx].
  exists x. split; [exact Hx|].
  apply (Mat_GetElement_in_bounds _ _ d' _ _ _ Hl' Hwf' Hr Hc).
  cbn. rewrite (Hcells r c Hr Hc). exact Hx.
Qed.

(** The theorem at a 2 x 3 matrix. *)
Lemma Mat_SetData_row_major_witness :
  let d := mkMatrixData [0; 0; 0; 0; 0; 0]%float 2 3 in
  let X := [1; 2; 3; 4; 5; 6]%float in
  exists h',
    Mat_SetData (Some 0%nat) X [Some d] = Done tt h' /\
    Mat_GetHeight (Some 0%nat) h' = Done 2 h' /\
    Mat_GetWidth (Some 0%nat) h' = Done 3 h' /\
    (forall l', l' <> 0%nat -> h' !! l' = [Some d] !! l') /\
    forall r c, 0 <= r < 2 -> 0 <= c < 3 ->
      exists x, X !! Z.to_nat (r * 3 + c) = Some x /\
                Mat_GetElement (Some 0%nat) r c h' = Done x h'.
Proof.
  intros d X.
  apply (Mat_SetData_row_major [Some d] 0%nat d X).
  - reflexivity.
  - unfold well_formed. cbn. unfold SIZEOF_DOUBLE, SIZE_MODULUS. lia.
  - cbn. lia.
Defined.

(** ** Resizing *)

Lemma realloc_live h l d bytes n :
  h !! l = Some (Some d) -> bytes / SIZEOF_DOUBLE = n ->
  realloc (Some l) bytes h =
  Done tt
    (<[l := Some (mkMatrixData (resize (Z.to_nat n) 0%float (data d))
                    (rowsNumber d) (columnsNumber d))]> h).
Proof.
  intros H Hn. unfold realloc.
  step (get_data_live _ _ _ H). rewrite Hn.
  apply (set_data_live _ _ _ _ H).
Qed.

Lemma store_index_wrap c r R bound :
  0 <= c -> 0 <= r -> 0 <= R -> c * R + r < bound -> bound <= SIZE_MODULUS ->
  size_add (size_mul c R) r = c * R + r.
Proof.
  intros Hc Hr HR Hlt Hb.
  assert (0 <= c * R) by (apply Z.mul_nonneg_nonneg; assumption).
  unfold size_add, size_mul.
  rewrite (size_wrap_small (c * R)) by lia.
  apply size_wrap_small. lia.
Qed.

(** The steps of [Mat_Resize] before its copy loop, with room on the stack:
    the buffer has its final capacity and is zero below the new element
    count, and the local array holds the old elements. *)
Lemma Mat_Resize_prepares stack h l d R C :
  stack_has_room stack sizeof_auxArray ->
  h !! l = Some (Some d) -> well_formed d ->
  0 <= R -> 0 <= C -> R * C * SIZEOF_DOUBLE < SIZE_MODULUS ->
  rowsNumber d * columnsNumber d <= AUX_CAPACITY ->
  exists zeroed aux,
    (forall (B : Type) (k : list float -> M B),
       ((if size_mul (rowsNumber d) (columnsNumber d) <? size_mul R C
         then realloc (Some l) (bytes_of R C) else ret tt);;
        claim_stack stack sizeof_auxArray;;
        let* auxArray :=
          memcpy_to_array AUX_CAPACITY (Some l)
            (bytes_of (rowsNumber d) (columnsNumber d)) in
        memset_zero (Some l) (bytes_of R C);; k auxArray) h =
       k aux
         (<[l := Some (mkMatrixData zeroed (rowsNumber d) (columnsNumber d))]> h)) /\
    R * C <= Z.of_nat (length zeroed) /\
    rowsNumber d * columnsNumber d <= Z.of_nat (length zeroed) /\
    Z.of_nat (length zeroed) * SIZEOF_DOUBLE < SIZE_MODULUS /\
    (rowsNumber d * columnsNumber d < R * C ->
     Z.of_nat (length zeroed) = R * C) /\
    (forall i : nat, Z.of_nat i < R * C -> zeroed !! i = Some 0%float) /\
    (forall i : nat, Z.of_nat i < rowsNumber d * columnsNumber d ->
       aux !! i = data d !! i).
Proof.
  intros Hstack Hl Hwf HR HC Hnew Haux.
  destruct (well_formed_bytes d Hwf) as (H0 & H1 & Hbytes0).
  pose proof Hwf as (HR0 & HC0 & Hlen & Hcap).
  assert (Hn0 : 0 <= R * C) by (apply Z.mul_nonneg_nonneg; assumption).
  pose proof (bytes_of_count R C Hn0 Hnew) as Hbytes.
  set (R0 := rowsNumber d) in *. set (C0 := columnsNumber d) in *.
  unfold size_mul.
  rewrite (size_wrap_small (R0 * C0)) by (unfold SIZEOF_DOUBLE in *; lia).
  rewrite (size_wrap_small (R * C)) by (unfold SIZEOF_DOUBLE in *; lia).
  set (n := Z.to_nat (R * C)). set (n0 := Z.to_nat (R0 * C0)).
  set (grown := if R0 * C0 <? R * C then resize n 0%float (data d) else data d).
  assert (Hgrow : (if R0 * C0 <? R * C
                   then realloc (Some l) (bytes_of R C) else ret tt) h =
                  Done tt (<[l := Some (mkMatrixData grown R0 C0)]> h)).
  { unfold grown. destruct (R0 * C0 <? R * C).
    - apply (realloc_live _ _ _ _ _ Hl Hbytes).
    - unfold ret. f_equal. symmetry. apply list_insert_id.
      rewrite Hl. destruct d; reflexivity. }
  assert (Hglen : R * C <= Z.of_nat (length grown) /\
                  R0 * C0 <= Z.of_nat (length grown) /\
                  Z.of_nat (length grown) * SIZEOF_DOUBLE < SIZE_MODULUS).
  { unfold grown. destruct (Z.ltb_spec (R0 * C0) (R * C)).
    - rewrite length_resize. unfold n. rewrite Z2Nat.id by lia. lia.
    - lia. }
  destruct Hglen as (Hg1 & Hg2 & Hg3).
  assert (Hgold : forall i : nat, Z.of_nat i < R0 * C0 -> grown !! i = data d !! i).
  { intros i Hi. unfold grown. destruct (Z.ltb_spec (R0 * C0) (R * C)).
    - apply lookup_resize; lia.
    - reflexivity. }
  set (hg := <[l := Some (mkMatrixData grown R0 C0)]> h).
  assert (Hlg : hg !! l = Some (Some (mkMatrixData grown R0 C0)))
    by apply (heap_insert_live _ _ _ _ Hl).
  exists (replicate n 0%float ++ drop n grown), (take n0 grown).
  split; [|split; [|split; [|split; [|split; [|split]]]]].
  - intros B k. step Hgrow. fold hg.
    step (claim_stack_room _ hg Hstack).
    assert (Hroom : (Z.to_nat (R0 * C0) <= length (data (mkMatrixData grown R0 C0)))%nat)
      by (cbn [data]; lia).
    step (memcpy_to_array_live hg l _ AUX_CAPACITY _ (R0 * C0) Hlg Hbytes0
            Hroom (conj H0 Haux)).
    assert (Hroom' : (Z.to_nat (R * C) <= length (data (mkMatrixData grown R0 C0)))%nat)
      by (cbn [data]; lia).
    step (memset_zero_live hg l _ _ (R * C) Hlg Hbytes Hroom').
    cbn [data rowsNumber columnsNumber]. unfold hg.
    rewrite list_insert_insert_eq. reflexivity.
  - rewrite length_app, length_replicate, length_drop. lia.
  - rewrite length_app, length_replicate, length_drop. lia.
  - rewrite length_app, length_replicate, length_drop.
    replace (n + (length grown - n))%nat with (length grown) by lia. exact Hg3.
  - intros Hgrows. rewrite length_app, length_replicate, length_drop.
    assert (length grown = n) as ->; [|lia].
    unfold grown. replace (R0 * C0 <? R * C) with true by lia.
    apply length_resize.
  - intros i Hi. rewrite lookup_app_l by (rewrite length_replicate; lia).
    apply lookup_replicate_2. lia.
  - intros i Hi. rewrite lookup_take_lt by lia. apply Hgold, Hi.
Qed.

(** What [Mat_Resize] does to a live matrix, with room on the stack, when the
    columns do not shrink or the rows do not grow: it completes, the buffer
    has room for the new shape, and every element whose position exists in
    both shapes keeps its value; when moreover the rows do not shrink, every
    position that is new holds 0. *)
Lemma Mat_Resize_spec stack h l d R C :
  stack_has_room stack sizeof_auxArray ->
  h !! l = Some (Some d) -> well_formed d ->
  0 <= R -> 0 <= C -> R * C * SIZEOF_DOUBLE < SIZE_MODULUS ->
  rowsNumber d * columnsNumber d <= AUX_CAPACITY ->
  columnsNumber d <= C \/ R <= rowsNumber d ->
  exists buf,
    Mat_Resize_within stack (Some l) R C h =
      Done (Some l) (<[l := Some (mkMatrixData buf R C)]> h) /\
    well_formed (mkMatrixData buf R C) /\
    (forall r c, 0 <= r < R -> 0 <= c < C ->
       r < rowsNumber d -> c < columnsNumber d ->
       buf !! Z.to_nat (c * R + r) = data d !! Z.to_nat (c * rowsNumber d + r)) /\
    (rowsNumber d <= R ->
     forall r c, 0 <= r < R -> 0 <= c < C ->
       rowsNumber d <= r \/ columnsNumber d <= c ->
       buf !! Z.to_nat (c * R + r) = Some 0%float).
Proof.
  intros Hstack Hl Hwf HR HC Hnew Haux Hshape.
  destruct (Mat_Resize_prepares stack h l d R C Hstack Hl Hwf HR HC Hnew Haux)
    as (zeroed & aux & Hprep & Hz1 & Hz2 & Hz3 & _ & Hzero & Hold).
  pose proof Hwf as (HR0 & HC0 & Hlen & Hcap).
  pose proof (well_formed_count d Hwf) as Hcount.
  set (R0 := rowsNumber d) in *. set (C0 := columnsNumber d) in *.
  assert (Hmod : Z.of_nat (length zeroed) <= SIZE_MODULUS)
    by (unfold SIZEOF_DOUBLE in Hz3; lia).
  set (h0 := <[l := Some (mkMatrixData zeroed R0 C0)]> h) in *.
  assert (Hidx : forall r c, 0 <= r < R0 -> 0 <= c < C0 ->
            c * R + r < Z.of_nat (length zeroed)).
  { intros r c Hr Hc. destruct (Z_le_gt_dec R R0) as [Hle|Hgt].
    - assert (c * R <= c * R0) by (apply Z.mul_le_mono_nonneg_l; lia).
      pose proof (cell_index_bound r c R0 C0 Hr Hc). lia.
    - destruct Hshape as [Hcols|Hrows]; [|lia].
      assert ((c + 1) * R <= C * R) by (apply Z.mul_le_mono_nonneg_r; lia).
      lia. }
  set (Inv := fun (c0 r0 : Z) (_ : unit) (h1 : heap) =>
    exists buf, h1 = <[l := Some (mkMatrixData buf R0 C0)]> h /\
      length buf = length zeroed /\
      (forall r c, 0 <= r < R -> r < R0 -> 0 <= c ->
         c < c0 \/ (c = c0 /\ r < r0) ->
         buf !! Z.to_nat (c * R + r) = data d !! Z.to_nat (c * R0 + r)) /\
      (R0 <= R -> forall r c, 0 <= r < R -> 0 <= c < C ->
         R0 <= r \/ C0 <= c -> buf !! Z.to_nat (c * R + r) = Some 0%float)).
  assert (Hloop : exists buf,
            for_size C0 (fun column (_ : unit) =>
              for_size R0 (fun row (_ : unit) =>
                let* x := read_array aux (size_add (size_mul column R0) row) in
                store (Some l) (size_add (size_mul column R) row) x) tt) tt h0 =
            Done tt (<[l := Some (mkMatrixData buf R0 C0)]> h) /\
            length buf = length zeroed /\
            (forall r c, 0 <= r < R -> r < R0 -> 0 <= c < C0 ->
               buf !! Z.to_nat (c * R + r) = data d !! Z.to_nat (c * R0 + r)) /\
            (R0 <= R -> forall r c, 0 <= r < R -> 0 <= c < C ->
               R0 <= r \/ C0 <= c -> buf !! Z.to_nat (c * R + r) = Some 0%float)).
  { destruct (for_size_inv (fun c0 => Inv c0 0)
                (fun column (_ : unit) =>
                   for_size R0 (fun row (_ : unit) =>
                     let* x := read_array aux (size_add (size_mul column R0) row) in
                     store (Some l) (size_add (size_mul column R) row) x) tt)
                C0 tt h0 HC0) as ([] & h' & Hrun & buf & -> & Hlenb & Hkeep & Hnew0).
    - exists zeroed. split; [reflexivity|]. split; [reflexivity|]. split.
      + intros r c Hr Hr0 Hc [Hlt|[_ Hlt]]; lia.
      + intros HRR r c Hr Hc Hcase. apply Hzero.
        pose proof (cell_index_bound r c R C Hr Hc). lia.
    - intros c0 [] h1 Hc0 Hinv.
      destruct (for_size_inv (fun r0 => Inv c0 r0)
                  (fun row (_ : unit) =>
                     let* x := read_array aux (size_add (size_mul c0 R0) row) in
                     store (Some l) (size_add (size_mul c0 R) row) x)
                  R0 tt h1 HR0 Hinv)
        as ([] & h2 & Hrun & buf & -> & Hlenb & Hkeep & Hnew0).
      + intros r0 [] h2 Hr0 (buf & -> & Hlenb & Hkeep & Hnew0).
        pose proof (cell_index_bound r0 c0 R0 C0 Hr0 Hc0) as Hb.
        pose proof (Hidx r0 c0 Hr0 Hc0) as Hi.
        rewrite (cell_index_wrap r0 c0 R0 C0 Hr0 Hc0 Hcount).
        rewrite (store_index_wrap c0 r0 R _ ltac:(lia) ltac:(lia) HR Hi Hmod).
        destruct (lookup_lt_is_Some_2 (data d) (Z.to_nat (c0 * R0 + r0))
                    ltac:(lia)) as [x Hx].
        assert (Hax : aux !! Z.to_nat (c0 * R0 + r0) = Some x)
          by (rewrite Hold by lia; exact Hx).
        assert (0 <= c0 * R) by (apply Z.mul_nonneg_nonneg; lia).
        exists tt. eexists. split.
        * step (read_array_Some _ _ _ Hax _).
          apply (store_live _ _ _ _ _ (heap_insert_live _ _ _ _ Hl)). cbn. lia.
        * cbn [data rowsNumber columnsNumber].
          exists (<[Z.to_nat (c0 * R + r0) := x]> buf).
          split; [apply list_insert_insert_eq|].
          split; [rewrite length_insert; exact Hlenb|]. split.
          -- intros r c Hr Hrr Hc Hcase.
             assert (0 <= c * R) by (apply Z.mul_nonneg_nonneg; lia).
             destruct (decide (c = c0 /\ r = r0)) as [[-> ->]|Hne].
             ++ rewrite list_lookup_insert_eq by lia. symmetry. exact Hx.
             ++ rewrite list_lookup_insert_ne.
                ** apply Hkeep; [assumption|assumption|assumption|]. lia.
                ** intros Heq. apply Hne.
                   assert (c <= c0) by lia.
                   destruct (decide (c = c0)) as [->|Hcne]; [split; [reflexivity|lia]|].
                   exfalso.
                   assert ((c + 1) * R <= c0 * R)
                     by (apply Z.mul_le_mono_nonneg_r; lia).
                   lia.
          -- intros HRR r c Hr Hc Hcase.
             assert (0 <= c * R) by (apply Z.mul_nonneg_nonneg; lia).
             rewrite list_lookup_insert_ne; [apply Hnew0; assumption|].
             intros Heq.
             destruct (cell_index_inj r0 c0 r c R) as [-> ->]; [lia|lia|lia|].
             lia.
      + exists tt, (<[l := Some (mkMatrixData buf R0 C0)]> h).
        split; [exact Hrun|].
        exists buf. split; [reflexivity|]. split; [exact Hlenb|]. split.
        * intros r c Hr Hrr Hc Hcase. apply Hkeep; [assumption|assumption|assumption|]. lia.
        * exact Hnew0.
    - exists buf. split; [exact Hrun|]. split; [exact Hlenb|]. split.
      + intros r c Hr Hrr Hc. apply Hkeep; [assumption|assumption|lia|]. lia.
      + exact Hnew0. }
  destruct Hloop as (buf & Hrun & Hlenb & Hkeep & Hnew0).
  exists buf. split; [|split; [|split]].
  - unfold Mat_Resize_within.
    step (get_rows_live _ _ _ Hl). step (get_columns_live _ _ _ Hl).
    fold R0 C0. rewrite Hprep. fold h0.
    step Hrun.
    step (set_rows_live _ _ _ _ (heap_insert_live _ _ _ _ Hl)).
    rewrite list_insert_insert_eq.
    step (set_columns_live _ _ _ _ (heap_insert_live _ _ _ _ Hl)).
    rewrite list_insert_insert_eq. reflexivity.
  - unfold well_formed. cbn. rewrite Hlenb. repeat split; assumption.
  - intros r c Hr Hc Hr0 Hc0'. apply Hkeep; [assumption|assumption|lia].
  - exact Hnew0.
Qed.

(** X11: when the stack has room for [auxArray], [Mat_Resize] of a live,
    well-formed matrix to a shape with both dimensions up to
    [MATRIX_SIZE_MAX], whose columns do not shrink or whose rows do not grow,
    returns the handle with the new dimensions; every position present in
    both shapes reads the value it had, and if the rows do not shrink every
    new position reads 0.  On [NULL] it is
    [Mat_Create( NULL, rows, columns )]. *)
Theorem Mat_Resize_keeps_elements :
  forall (stack : option Z) (h : heap) (l : nat) (d : MatrixData) (R C : Z),
    stack_has_room stack sizeof_auxArray ->
    Mat_Resize_within stack None R C h = Mat_Create None R C h /\
    (h !! l = Some (Some d) -> well_formed d ->
     0 <= R <= MATRIX_SIZE_MAX -> 0 <= C <= MATRIX_SIZE_MAX ->
     rowsNumber d * columnsNumber d <= AUX_CAPACITY ->
     columnsNumber d <= C \/ R <= rowsNumber d ->
     exists h',
       Mat_Resize_within stack (Some l) R C h = Done (Some l) h' /\
       Mat_GetHeight (Some l) h' = Done R h' /\
       Mat_GetWidth (Some l) h' = Done C h' /\
       (forall l', l' <> l -> h' !! l' = h !! l') /\
       (forall r c, 0 <= r < R -> 0 <= c < C ->
          r < rowsNumber d -> c < columnsNumber d ->
          exists x, Mat_GetElement (Some l) r c h = Done x h /\
                    Mat_GetElement (Some l) r c h' = Done x h') /\
       (rowsNumber d <= R ->
        forall r c, 0 <= r < R -> 0 <= c < C ->
          rowsNumber d <= r \/ columnsNumber d <= c ->
          Mat_GetElement (Some l) r c h' = Done 0%float h')).
Proof.
  intros stack h l d R C Hstack. split; [reflexivity|].
  intros Hl Hwf HRmax HCmax Haux Hshape.
  destruct (MATRIX_SIZE_MAX_bytes R C HRmax HCmax) as [_ Hnew].
  assert (HR : 0 <= R) by lia. assert (HC : 0 <= C) by lia.
  destruct (Mat_Resize_spec stack h l d R C Hstack Hl Hwf HR HC Hnew Haux
              Hshape)
    as (buf & Hrun & Hwf' & Hkeep & Hzero).
  set (d' := mkMatrixData buf R C) in *.
  assert (Hl' : <[l := Some d']> h !! l = Some (Some d'))
    by apply (heap_insert_live _ _ _ _ Hl).
  exists (<[l := Some d']> h).
  split; [exact Hrun|].
  split; [apply (get_rows_live _ _ d' Hl')|].
  split; [apply (get_columns_live _ _ d' Hl')|].
  split; [intros l' Hne; apply list_lookup_insert_ne; congruence|].
  split.
  - intros r c Hr Hc Hr0 Hc0.
    destruct (lookup_lt_is_Some_2 (data d) (Z.to_nat (c * rowsNumber d + r))
                (cell_in_buffer d r c Hwf ltac:(lia) ltac:(lia))) as [x Hx].
    exists x. split.
    + apply (Mat_GetElement_in_bounds _ _ d _ _ _ Hl Hwf); [lia|lia|exact Hx].
    + apply (Mat_GetElement_in_bounds _ _ d' _ _ _ Hl' Hwf' Hr Hc).
      cbn. rewrite (Hkeep r c Hr Hc Hr0 Hc0). exact Hx.
  - intros HRR r c Hr Hc Hcase.
    apply (Mat_GetElement_in_bounds _ _ d' _ _ _ Hl' Hwf' Hr Hc).
    cbn. apply (Hzero HRR r c Hr Hc Hcase).
Qed.

(** The theorem at a 2 x 2 matrix grown to 3 x 3 under a stack limit of
    64 MiB. *)
Lemma Mat_Resize_keeps_elements_witness :
  let d := mkMatrixData [1; 2; 3; 4]%float 2 2 in
  exists h',
    Mat_Resize_within (Some RAISED_STACK) (Some 0%nat) 3 3 [Some d] =
      Done (Some 0%nat) h' /\
    Mat_GetHeight (Some 0%nat) h' = Done 3 h' /\
    Mat_GetWidth (Some 0%nat) h' = Done 3 h' /\
    (forall l', l' <> 0%nat -> h' !! l' = [Some d] !! l') /\
    (forall r c, 0 <= r < 3 -> 0 <= c < 3 -> r < 2 -> c < 2 ->
       exists x, Mat_GetElement (Some 0%nat) r c [Some d] = Done x [Some d] /\
                 Mat_GetElement (Some 0%nat) r c h' = Done x h') /\
    (2 <= 3 ->
     forall r c, 0 <= r < 3 -> 0 <= c < 3 -> 2 <= r \/ 2 <= c ->
       Mat_GetElement (Some 0%nat) r c h' = Done 0%float h').
Proof.
  intros d.
  apply (Mat_Resize_keeps_elements (Some RAISED_STACK) [Some d] 0%nat d 3 3).
  - vm_compute. discriminate.
  - reflexivity.
  - unfold well_formed. cbn. unfold SIZEOF_DOUBLE, SIZE_MODULUS. lia.
  - unfold MATRIX_SIZE_MAX. lia.
  - unfold MATRIX_SIZE_MAX. lia.
  - cbn. unfold AUX_CAPACITY, MATRIX_SIZE_MAX. lia.
  - left. cbn. lia.
Defined.

(** ** Algebra *)

(** X12: [Mat_Scale] into a live result whose element count on entry is the
    matrix's, with room for it, returns the result with the matrix's
    dimensions, every element being the scalar times the matrix's element,
    and leaves every other matrix as it was; the result may be the matrix
    itself.  On a [NULL] matrix it returns [NULL]. *)
Theorem Mat_Scale_scales :
  forall (h : heap) (l lr : nat) (d dr : MatrixData) (k : float) (m : Matrix),
    Mat_Scale None k m h = Done None h /\
    (h !! l = Some (Some d) -> h !! lr = Some (Some dr) -> well_formed d ->
     rowsNumber dr * columnsNumber dr = rowsNumber d * columnsNumber d ->
     rowsNumber d * columnsNumber d <= Z.of_nat (length (data dr)) ->
     exists h',
       Mat_Scale (Some l) k (Some lr) h = Done (Some lr) h' /\
       Mat_GetHeight (Some lr) h' = Done (rowsNumber d) h' /\
       Mat_GetWidth (Some lr) h' = Done (columnsNumber d) h' /\
       (forall l', l' <> lr -> h' !! l' = h !! l') /\
       forall r c, 0 <= r < rowsNumber d -> 0 <= c < columnsNumber d ->
         exists x, Mat_GetElement (Some l) r c h = Done x h /\
                   Mat_GetElement (Some lr) r c h' = Done (k * x)%float h').
Proof.
  intros h l lr d dr k m. split; [reflexivity|].
  intros Hl Hlr Hwf Hcount Hroom.
  pose proof (well_formed_count d Hwf) as Hlt.
  pose proof Hwf as (HR & HC & Hlen & _).
  destruct (Mat_Scale_spec h l lr d dr k Hl Hlr ltac:(cbn; nia)
              ltac:(cbn; lia) ltac:(cbn; lia))
    as (buf & Hrun & _ & Hlo & _).
  set (d' := mkMatrixData buf (rowsNumber d) (columnsNumber d)) in *.
  assert (Hl' : <[lr := Some d']> h !! lr = Some (Some d'))
    by apply (heap_insert_live _ _ _ _ Hlr).
  exists (<[lr := Some d']> h).
  split; [exact Hrun|].
  split; [apply (get_rows_live _ _ d' Hl')|].
  split; [apply (get_columns_live _ _ d' Hl')|].
  split; [intros l' Hne; apply list_lookup_insert_ne; congruence|].
  intros r c Hr Hc.
  pose proof (cell_index_bound r c _ _ Hr Hc) as Hb.
  destruct (lookup_lt_is_Some_2 (data d) (Z.to_nat (c * rowsNumber d + r))
              (cell_in_buffer d r c Hwf Hr Hc)) as [x Hx].
  exists x. split.
  - apply (Mat_GetElement_in_bounds _ _ d _ _ _ Hl Hwf Hr Hc Hx).
  - apply (Mat_GetElement_reads _ _ d' _ _ _ Hl' Hlt Hr Hc).
    cbn. rewrite Hlo by lia. rewrite Hx. reflexivity.
Qed.

(** The theorem at a 2 x 2 matrix scaled onto itself. *)
Lemma Mat_Scale_scales_witness :
  let d := mkMatrixData [1; 2; 3; 4]%float 2 2 in
  exists h',
    Mat_Scale (Some 0%nat) 2%float (Some 0%nat) [Some d] = Done (Some 0%nat) h' /\
    Mat_GetHeight (Some 0%nat) h' = Done 2 h' /\
    Mat_GetWidth (Some 0%nat) h' = Done 2 h' /\
    (forall l', l' <> 0%nat -> h' !! l' = [Some d] !! l') /\
    forall r c, 0 <= r < 2 -> 0 <= c < 2 ->
      exists x, Mat_GetElement (Some 0%nat) r c [Some d] = Done x [Some d] /\
                Mat_GetElement (Some 0%nat) r c h' = Done (2 * x)%float h'.
Proof.
  intros d.
  apply (Mat_Scale_scales [Some d] 0%nat 0%nat d d 2%float None).
  - reflexivity.
  - reflexivity.
  - unfold well_formed. cbn. unfold SIZEOF_DOUBLE, SIZE_MODULUS. lia.
  - reflexivity.
  - cbn. lia.
Defined.

(** X14: when the stack has room for [auxArray], [Mat_Transpose] of a live
    matrix into a live result with room for its elements, the result being a
    distinct handle or the matrix being square, returns the result with the
    swapped dimensions; element [(c, r)] of the result is element [(r, c)] of
    the matrix, and every other matrix is as it was.  On a [NULL] matrix it
    returns [NULL]. *)
Theorem Mat_Transpose_swaps :
  forall (stack : option Z) (h : heap) (l lr : nat) (d dr : MatrixData)
         (m : Matrix),
    stack_has_room stack sizeof_auxArray ->
    Mat_Transpose_within stack None m h = Done None h /\
    (h !! l = Some (Some d) -> h !! lr = Some (Some dr) -> well_formed d ->
     (l = lr -> rowsNumber d = columnsNumber d) ->
     rowsNumber d * columnsNumber d <= Z.of_nat (length (data dr)) ->
     rowsNumber d * columnsNumber d <= AUX_CAPACITY ->
     exists h',
       Mat_Transpose_within stack (Some l) (Some lr) h = Done (Some lr) h' /\
       Mat_GetHeight (Some lr) h' = Done (columnsNumber d) h' /\
       Mat_GetWidth (Some lr) h' = Done (rowsNumber d) h' /\
       (forall l', l' <> lr -> h' !! l' = h !! l') /\
       forall r c, 0 <= r < rowsNumber d -> 0 <= c < columnsNumber d ->
         exists x, Mat_GetElement (Some l) r c h = Done x h /\
                   Mat_GetElement (Some lr) c r h' = Done x h').
Proof.
  intros stack h l lr d dr m Hstack. split.
  { unfold Mat_Transpose_within.
    step (claim_stack_room _ _ Hstack). reflexivity. }
  intros Hl Hlr Hwf Hsq Hroom Haux.
  pose proof (well_formed_count d Hwf) as Hlt.
  pose proof Hwf as (HR & HC & Hlen & _).
  destruct (Mat_Transpose_spec stack h l lr d dr Hstack Hl Hlr Hsq HR HC Hlen
              Hroom Haux)
    as (buf & Hrun & _ & Hcells & _).
  set (d' := mkMatrixData buf (columnsNumber d) (rowsNumber d)) in *.
  assert (Hl' : <[lr := Some d']> h !! lr = Some (Some d'))
    by apply (heap_insert_live _ _ _ _ Hlr).
  exists (<[lr := Some d']> h).
  split; [exact Hrun|].
  split; [apply (get_rows_live _ _ d' Hl')|].
  split; [apply (get_columns_live _ _ d' Hl')|].
  split; [intros l' Hne; apply list_lookup_insert_ne; congruence|].
  intros r c Hr Hc.
  destruct (lookup_lt_is_Some_2 (data d) (Z.to_nat (c * rowsNumber d + r))
              (cell_in_buffer d r c Hwf Hr Hc)) as [x Hx].
  exists x. split.
  - apply (Mat_GetElement_in_bounds _ _ d _ _ _ Hl Hwf Hr Hc Hx).
  - apply (Mat_GetElement_reads _ _ d' _ _ _ Hl'); cbn; try assumption; try lia.
    rewrite (Hcells r c Hr Hc). exact Hx.
Qed.

(** The theorem at a 2 x 3 matrix and a distinct result under a stack limit
    of 64 MiB. *)
Lemma Mat_Transpose_swaps_witness :
  let d := mkMatrixData [1; 4; 2; 5; 3; 6]%float 2 3 in
  let dr := mkMatrixData [0; 0; 0; 0; 0; 0]%float 1 1 in
  exists h',
    Mat_Transpose_within (Some RAISED_STACK) (Some 0%nat) (Some 1%nat)
      [Some d; Some dr] = Done (Some 1%nat) h' /\
    Mat_GetHeight (Some 1%nat) h' = Done 3 h' /\
    Mat_GetWidth (Some 1%nat) h' = Done 2 h' /\
    (forall l', l' <> 1%nat -> h' !! l' = [Some d; Some dr] !! l') /\
    forall r c, 0 <= r < 2 -> 0 <= c < 3 ->
      exists x, Mat_GetElement (Some 0%nat) r c [Some d; Some dr] =
                  Done x [Some d; Some dr] /\
                Mat_GetElement (Some 1%nat) c r h' = Done x h'.
Proof.
  intros d dr.
  apply (Mat_Transpose_swaps (Some RAISED_STACK) [Some d; Some dr] 0%nat
           1%nat d dr None).
  - vm_compute. discriminate.
  - reflexivity.
  - reflexivity.
  - unfold well_formed. cbn. unfold SIZEOF_DOUBLE, SIZE_MODULUS. lia.
  - intros E. discriminate E.
  - cbn. lia.
  - cbn. unfold AUX_CAPACITY, MATRIX_SIZE_MAX. lia.
Defined.

(** What [Mat_Sum] does on live matrices of one shape, whichever handles
    coincide: the first [rows * columns] elements of the result become the
    weighted sums, the rest of its buffer is untouched, and it takes the
    shape of the operands. *)
Lemma Mat_Sum_spec h l1 l2 lr d1 d2 dr (w1 w2 : float) :
  h !! l1 = Some (Some d1) -> h !! l2 = Some (Some d2) ->
  h !! lr = Some (Some dr) ->
  rowsNumber d1 = rowsNumber d2 -> columnsNumber d1 = columnsNumber d2 ->
  let n := rowsNumber d1 * columnsNumber d1 in
  0 <= n < SIZE_MODULUS ->
  n <= Z.of_nat (length (data d1)) -> n <= Z.of_nat (length (data d2)) ->
  n <= Z.of_nat (length (data dr)) ->
  exists buf,
    Mat_Sum (Some l1) w1 (Some l2) w2 (Some lr) h =
      Done (Some lr)
        (<[lr := Some (mkMatrixData buf (rowsNumber d1) (columnsNumber d1))]> h) /\
    length buf = length (data dr) /\
    (forall i : nat, Z.of_nat i < n ->
       exists x y, data d1 !! i = Some x /\ data d2 !! i = Some y /\
                   buf !! i = Some (w1 * x + w2 * y)%float) /\
    (forall i : nat, n <= Z.of_nat i -> buf !! i = data dr !! i).
Proof.
  intros H1 H2 Hr Hrows Hcols n Hn Hn1 Hn2 Hnr.
  assert (Hsame1 : l1 = lr -> d1 = dr) by (intros ->; congruence).
  assert (Hsame2 : l2 = lr -> d2 = dr) by (intros ->; congruence).
  set (R := rowsNumber d1) in *. set (C := columnsNumber d1) in *.
  unfold Mat_Sum.
  step (get_rows_live _ _ _ H1). step (get_rows_live _ _ _ H2).
  step (get_columns_live _ _ _ H1). step (get_columns_live _ _ _ H2).
  fold R C. rewrite <- Hrows, <- Hcols, !Z.eqb_refl. cbn [negb orb].
  step (get_rows_live _ _ _ H1). fold R.
  step (set_rows_live _ _ _ _ Hr).
  assert (Hc1 : get_columns (Some l1)
            (<[lr := Some (mkMatrixData (data dr) R (columnsNumber dr))]> h) =
          Done C (<[lr := Some (mkMatrixData (data dr) R (columnsNumber dr))]> h)).
  { destruct (decide (l1 = lr)) as [->|Hne].
    - rewrite (get_columns_live _ _ _ (heap_insert_live _ _ _ _ Hr)). cbn.
      rewrite <- (Hsame1 eq_refl). reflexivity.
    - apply (get_columns_live _ _ d1).
      rewrite list_lookup_insert_ne by congruence. exact H1. }
  step Hc1.
  step (set_columns_live _ _ _ _ (heap_insert_live _ _ _ _ Hr)).
  rewrite list_insert_insert_eq. cbn [data rowsNumber].
  step (get_rows_live _ _ _ (heap_insert_live _ _ _ _ Hr)).
  step (get_columns_live _ _ _ (heap_insert_live _ _ _ _ Hr)).
  cbn [rowsNumber columnsNumber].
  change (size_mul R C) with (size_wrap n). rewrite (size_wrap_small n Hn).
  set (Inv := fun (i : Z) (_ : unit) (h1 : heap) =>
    exists buf, h1 = <[lr := Some (mkMatrixData buf R C)]> h /\
      length buf = length (data dr) /\
      (forall j : nat, Z.of_nat j < i ->
         exists x y, data d1 !! j = Some x /\ data d2 !! j = Some y /\
                     buf !! j = Some (w1 * x + w2 * y)%float) /\
      (forall j : nat, i <= Z.of_nat j -> buf !! j = data dr !! j)).
  destruct (for_size_inv Inv
              (fun elementIndex (_ : unit) =>
                 let* x := load (Some l1) elementIndex in
                 let* y := load (Some l2) elementIndex in
                 store (Some lr) elementIndex (w1 * x + w2 * y)%float)
              n tt (<[lr := Some (mkMatrixData (data dr) R C)]> h) ltac:(lia))
    as ([] & h' & Hrun & buf & -> & Hlenb & Hlo & Hhi).
  - exists (data dr). split; [reflexivity|]. split; [reflexivity|]. split.
    + intros j Hj. lia.
    + reflexivity.
  - intros i [] h1 Hi (buf & -> & Hlenb & Hlo & Hhi).
    destruct (lookup_lt_is_Some_2 (data d1) (Z.to_nat i) ltac:(lia)) as [x Hx].
    destruct (lookup_lt_is_Some_2 (data d2) (Z.to_nat i) ltac:(lia)) as [y Hy].
    set (hb := <[lr := Some (mkMatrixData buf R C)]> h).
    assert (Hb : hb !! lr = Some (Some (mkMatrixData buf R C)))
      by apply (heap_insert_live _ _ _ _ Hr).
    assert (Hload1 : load (Some l1) i hb = Done x hb).
    { destruct (decide (l1 = lr)) as [->|Hne].
      - apply (load_live _ _ _ _ _ Hb). cbn.
        rewrite Hhi by lia. rewrite <- (Hsame1 eq_refl). exact Hx.
      - apply (load_live _ _ d1); [|exact Hx]. unfold hb.
        rewrite list_lookup_insert_ne by congruence. exact H1. }
    assert (Hload2 : load (Some l2) i hb = Done y hb).
    { destruct (decide (l2 = lr)) as [->|Hne].
      - apply (load_live _ _ _ _ _ Hb). cbn.
        rewrite Hhi by lia. rewrite <- (Hsame2 eq_refl). exact Hy.
      - apply (load_live _ _ d2); [|exact Hy]. unfold hb.
        rewrite list_lookup_insert_ne by congruence. exact H2. }
    exists tt. eexists. split.
    + step Hload1. step Hload2.
      apply (store_live _ _ _ _ _ Hb). cbn. lia.
    + cbn [data rowsNumber columnsNumber].
      exists (<[Z.to_nat i := (w1 * x + w2 * y)%float]> buf).
      split; [apply list_insert_insert_eq|].
      split; [rewrite length_insert; exact Hlenb|]. split.
      * intros j Hj. destruct (decide (j = Z.to_nat i)) as [->|Hne].
        -- exists x, y. split; [exact Hx|]. split; [exact Hy|].
           apply list_lookup_insert_eq. lia.
        -- rewrite list_lookup_insert_ne by congruence. apply Hlo. lia.
      * intros j Hj. rewrite list_lookup_insert_ne by lia. apply Hhi. lia.
  - exists buf. split; [|split; [exact Hlenb|split; [exact Hlo|exact Hhi]]].
    step Hrun. reflexivity.
Qed.

(** X13: [Mat_Sum] of two live, well-formed matrices of one shape into a
    live result with room for it returns the result with that shape, every
    element being [weight_1 * a + weight_2 * b] of the operands' elements,
    and leaves every other matrix as it was; the result may be one of the
    operands. *)
Theorem Mat_Sum_adds :
  forall (h : heap) (l1 l2 lr : nat) (d1 d2 dr : MatrixData) (w1 w2 : float),
    h !! l1 = Some (Some d1) -> h !! l2 = Some (Some d2) ->
    h !! lr = Some (Some dr) -> well_formed d1 -> well_formed d2 ->
    rowsNumber d1 = rowsNumber d2 -> columnsNumber d1 = columnsNumber d2 ->
    rowsNumber d1 * columnsNumber d1 <= Z.of_nat (length (data dr)) ->
    exists h',
      Mat_Sum (Some l1) w1 (Some l2) w2 (Some lr) h = Done (Some lr) h' /\
      Mat_GetHeight (Some lr) h' = Done (rowsNumber d1) h' /\
      Mat_GetWidth (Some lr) h' = Done (columnsNumber d1) h' /\
      (forall l', l' <> lr -> h' !! l' = h !! l') /\
      forall r c, 0 <= r < rowsNumber d1 -> 0 <= c < columnsNumber d1 ->
        exists x y,
          Mat_GetElement (Some l1) r c h = Done x h /\
          Mat_GetElement (Some l2) r c h = Done y h /\
          Mat_GetElement (Some lr) r c h' = Done (w1 * x + w2 * y)%float h'.
Proof.
  intros h l1 l2 lr d1 d2 dr w1 w2 H1 H2 Hr Hwf1 Hwf2 Hrows Hcols Hroom.
  pose proof (well_formed_count d1 Hwf1) as Hlt.
  pose proof Hwf1 as (HR & HC & Hlen1 & _).
  pose proof Hwf2 as (_ & _ & Hlen2 & _).
  rewrite <- Hrows, <- Hcols in Hlen2.
  destruct (Mat_Sum_spec h l1 l2 lr d1 d2 dr w1 w2 H1 H2 Hr Hrows Hcols
              ltac:(cbn; nia) Hlen1 Hlen2 Hroom)
    as (buf & Hrun & _ & Hlo & _).
  set (d' := mkMatrixData buf (rowsNumber d1) (columnsNumber d1)) in *.
  assert (Hl' : <[lr := Some d']> h !! lr = Some (Some d'))
    by apply (heap_insert_live _ _ _ _ Hr).
  exists (<[lr := Some d']> h).
  split; [exact Hrun|].
  split; [apply (get_rows_live _ _ d' Hl')|].
  split; [apply (get_columns_live _ _ d' Hl')|].
  split; [intros l' Hne; apply list_lookup_insert_ne; congruence|].
  intros r c Hr' Hc'.
  pose proof (cell_index_bound r c _ _ Hr' Hc') as Hb.
  destruct (Hlo (Z.to_nat (c * rowsNumber d1 + r)) ltac:(lia))
    as (x & y & Hx & Hy & Hxy).
  exists x, y. split; [|split].
  - apply (Mat_GetElement_in_bounds _ _ d1 _ _ _ H1 Hwf1 Hr' Hc' Hx).
  - apply (Mat_GetElement_in_bounds _ _ d2 _ _ _ H2 Hwf2); [lia|lia|].
    rewrite <- Hrows. exact Hy.
  - apply (Mat_GetElement_reads _ _ d' _ _ _ Hl' Hlt Hr' Hc'). exact Hxy.
Qed.

(** The theorem at two 2 x 2 matrices summed onto the first. *)
Lemma Mat_Sum_adds_witness :
  let a := mkMatrixData [1; 2; 3; 4]%float 2 2 in
  let b := mkMatrixData [5; 6; 7; 8]%float 2 2 in
  exists h',
    Mat_Sum (Some 0%nat) 2%float (Some 1%nat) 3%float (Some 0%nat)
      [Some a; Some b] = Done (Some 0%nat) h' /\
    Mat_GetHeight (Some 0%nat) h' = Done 2 h' /\
    Mat_GetWidth (Some 0%nat) h' = Done 2 h' /\
    (forall l', l' <> 0%nat -> h' !! l' = [Some a; Some b] !! l') /\
    forall r c, 0 <= r < 2 -> 0 <= c < 2 ->
      exists x y,
        Mat_GetElement (Some 0%nat) r c [Some a; Some b] =
          Done x [Some a; Some b] /\
        Mat_GetElement (Some 1%nat) r c [Some a; Some b] =
          Done y [Some a; Some b] /\
        Mat_GetElement (Some 0%nat) r c h' = Done (2 * x + 3 * y)%float h'.
Proof.
  intros a b.
  apply (Mat_Sum_adds [Some a; Some b] 0%nat 1%nat 0%nat a b a 2%float 3%float).
  - reflexivity.
  - reflexivity.
  - reflexivity.
  - unfold well_formed. cbn. unfold SIZEOF_DOUBLE, SIZE_MODULUS. lia.
  - unfold well_formed. cbn. unfold SIZEOF_DOUBLE, SIZE_MODULUS. lia.
  - reflexivity.
  - reflexivity.
  - cbn. lia.
Defined.

(** ** The calls into BLAS and LAPACK *)

Lemma machine_bounds :
  INT_MODULUS / 2 = 2147483648 /\ SIZE_MODULUS = 18446744073709551616 /\
  SIZEOF_DOUBLE = 8.
Proof. repeat split. Qed.



(** X18: [Mat_Inverse] on a live square matrix of order [n] up to
    [MATRIX_SIZE_MAX], the number of pivots that [pivotArray] holds, and a
    live result with room for it, when the stack has room for [auxArray] and
    [pivotArray].  The result takes the matrix's shape and the buffer that
    was handed to [dgetrf_], the matrix's elements when the handles differ,
    is replaced by what the routines return.  [NULL] is returned exactly when
    [dgetrf_] or [dgetri_] reports a non-zero status, and then the result is
    left holding that routine's output; every other matrix, the source
    included when the handles differ, is as it was. *)
Theorem Mat_Inverse_outcome :
  forall dgetrf_ dgetri_ (stack : option Z) (h : heap) (l lr : nat)
         (d dr : MatrixData) (n : Z) (factors inverse : list float)
         (pivots : list Z) (info info' : Z),
    stack_has_room stack (sizeof_auxArray + sizeof_pivotArray) ->
    h !! l = Some (Some d) -> h !! lr = Some (Some dr) ->
    rowsNumber d = n -> columnsNumber d = n ->
    0 <= n <= MATRIX_SIZE_MAX ->
    n * n <= Z.of_nat (length (data d)) ->
    n * n <= Z.of_nat (length (data dr)) ->
    let buffer :=
      if decide (l = lr) then data d
      else take (Z.to_nat (n * n)) (data d) ++
           drop (Z.to_nat (n * n)) (data dr) in
    dgetrf_ n n buffer n = (factors, pivots, info) ->
    dgetri_ n factors n pivots (n * n) = (inverse, info') ->
    Mat_Inverse_within dgetrf_ dgetri_ stack (Some l) (Some lr) h =
    Done (if (info =? 0) && (info' =? 0) then Some lr else None)
      (<[lr := Some (mkMatrixData (if info =? 0 then inverse else factors)
                       n n)]> h).
Proof.
  intros dgetrf_ dgetri_ stack h l lr d dr n factors inverse pivots info info'
         Hstack Hl Hlr Hrows Hcols Hmax Hlen Hroom buffer Hlu Hinv.
  assert (Hsame : l = lr -> d = dr) by (intros ->; congruence).
  destruct machine_bounds as (Ehalf & Esize & Edouble).
  destruct (MATRIX_SIZE_MAX_bytes n n Hmax Hmax) as [Haux _].
  assert (Hn : 0 <= n) by lia.
  assert (Hnn : n * n < INT_MODULUS / 2)
    by (unfold AUX_CAPACITY, MATRIX_SIZE_MAX in Haux; lia).
  assert (Hn' : 0 <= n < INT_MODULUS / 2)
    by (unfold MATRIX_SIZE_MAX in Hmax; lia).
  assert (Hnn0 : 0 <= n * n) by nia.
  assert (Hbytes : n * n * SIZEOF_DOUBLE < SIZE_MODULUS) by lia.
  assert (Hcount : n * n < SIZE_MODULUS) by lia.
  unfold Mat_Inverse_within.
  step (claim_stack_room _ _ (stack_has_room_auxArray _ Hstack)).
  step (get_rows_live _ _ _ Hl). step (get_columns_live _ _ _ Hl).
  rewrite Hrows, Hcols, Z.eqb_refl. cbn [negb].
  set (h1 := <[lr := Some (mkMatrixData buffer n n)]> h).
  assert (Hcopy : (if decide (Some l = Some lr) then ret tt
                   else set_rows (Some lr) n;; set_columns (Some lr) n;;
                        memcpy_matrix (Some lr) (Some l) (bytes_of n n)) h =
                  Done tt h1).
  { unfold h1, buffer. destruct (decide (l = lr)) as [->|Hne].
    - destruct (decide (Some lr = Some lr)) as [_|Hbad]; [|contradiction].
      unfold ret. f_equal. symmetry. apply list_insert_id.
      rewrite Hl. destruct d; cbn in *. subst. reflexivity.
    - destruct (decide (Some l = Some lr)) as [Hbad|_]; [congruence|].
      step (set_rows_live _ _ _ _ Hlr).
      step (set_columns_live _ _ _ _ (heap_insert_live _ _ _ _ Hlr)).
      rewrite list_insert_insert_eq. cbn [data rowsNumber].
      set (h0 := <[lr := Some (mkMatrixData (data dr) n n)]> h).
      assert (Hsrc : get_data (Some l) h0 = Done (data d) h0).
      { apply (get_data_live _ _ d). unfold h0.
        rewrite list_lookup_insert_ne by congruence. exact Hl. }
      unfold memcpy_matrix. step Hsrc.
      rewrite (memcpy_from_array_live h0 lr _ _ _ _
                 (heap_insert_live _ _ _ _ Hlr)
                 (bytes_of_count n n Hnn0 Hbytes)).
      cbn [data rowsNumber columnsNumber].
      destruct (decide _) as [_|Hbad]; [|exfalso; lia].
      destruct (decide _) as [_|Hbad]; [|exfalso; lia].
      unfold h0. rewrite list_insert_insert_eq. reflexivity. }
  step Hcopy.
  assert (Hres : h1 !! lr = Some (Some (mkMatrixData buffer n n)))
    by apply (heap_insert_live _ _ _ _ Hlr).
  step (get_rows_live _ _ _ Hres). step (get_columns_live _ _ _ Hres).
  step (get_data_live _ _ _ Hres). cbn [data rowsNumber columnsNumber].
  step (claim_stack_room_pivots _ h1 Hstack).
  rewrite (int_of_size_small n Hn').
  destruct (decide (n * n <= Z.of_nat (length buffer) /\
                    Z.min n n <= MATRIX_SIZE_MAX)) as [_|Hbad].
  2:{ exfalso. apply Hbad. split; [|lia].
      unfold buffer. destruct (decide (l = lr)); [exact Hlen|].
      rewrite length_app, length_take, length_drop. lia. }
  rewrite Hlu.
  step (set_data_live _ _ _ _ Hres). cbn [rowsNumber columnsNumber].
  unfold h1. rewrite list_insert_insert_eq.
  destruct (Z.eqb_spec info 0) as [E|E]; cbn [negb andb]; [|reflexivity].
  unfold size_mul. rewrite (size_wrap_small (n * n)) by lia.
  rewrite (int_of_size_small (n * n)) by lia.
  destruct (decide (n * n <= AUX_CAPACITY)) as [_|Hbad]; [|exfalso; lia].
  rewrite Hinv.
  step (set_data_live _ _ _ _ (heap_insert_live _ _ _ _ Hlr)).
  rewrite list_insert_insert_eq. cbn [rowsNumber columnsNumber].
  destruct (Z.eqb_spec info' 0); reflexivity.
Qed.

(** The theorem at a 2 x 2 matrix and a routine that reports a zero pivot,
    under a stack limit of 64 MiB: [NULL] is returned and the result is
    overwritten. *)
Lemma Mat_Inverse_outcome_witness :
  let failing := fun (_ _ : Z) (a : list float) (_ : Z) =>
                   (a, [1; 2], 2) in
  let unused := fun (_ : Z) (a : list float) (_ : Z) (_ : list Z) (_ : Z) =>
                  (a, 0) in
  let a := mkMatrixData [1; 2; 2; 4]%float 2 2 in
  let r := mkMatrixData [0; 0; 0; 0; 9]%float 1 5 in
  Mat_Inverse_within failing unused (Some RAISED_STACK) (Some 0%nat)
    (Some 1%nat) [Some a; Some r] =
  Done None [Some a; Some (mkMatrixData [1; 2; 2; 4; 9]%float 2 2)].
Proof.
  intros failing unused a r.
  apply (Mat_Inverse_outcome failing unused (Some RAISED_STACK)
           [Some a; Some r] 0%nat 1%nat a r 2
           [1; 2; 2; 4; 9]%float [1; 2; 2; 4; 9]%float [1; 2] 2 0);
    try reflexivity; try (vm_compute; discriminate);
    try (vm_compute; split; discriminate).
Defined.

(** ** Queries *)

Lemma preserves_ret {A} (a : A) : preserves_heap (ret a).
Proof. intros h x h' E. inversion E. reflexivity. Qed.

Lemma preserves_fault {A} : preserves_heap (@fault A).
Proof. intros h x h' E. discriminate E. Qed.

Lemma preserves_bind {A B} (c : M A) (k : A -> M B) :
  preserves_heap c -> (forall a, preserves_heap (k a)) ->
  preserves_heap (bind c k).
Proof.
  intros Hc Hk h b h' E. unfold bind in E.
  destruct (c h) as [a h1|] eqn:Ec; [|discriminate E].
  rewrite <- (Hc _ _ _ Ec). apply (Hk a _ _ _ E).
Qed.

Lemma preserves_deref m : preserves_heap (deref m).
Proof.
  intros h d h' E. unfold deref in E. destruct m as [l|]; [|discriminate E].
  destruct (h !! l) as [[d'|]|]; inversion E. reflexivity.
Qed.

Lemma preserves_get_rows m : preserves_heap (get_rows m).
Proof.
  apply preserves_bind; [apply preserves_deref|intros; apply preserves_ret].
Qed.

Lemma preserves_get_columns m : preserves_heap (get_columns m).
Proof.
  apply preserves_bind; [apply preserves_deref|intros; apply preserves_ret].
Qed.

Lemma preserves_load m i : preserves_heap (load m i).
Proof.
  apply preserves_bind; [apply preserves_deref|]. intros d.
  destruct (data d !! Z.to_nat i); [apply preserves_ret|apply preserves_fault].
Qed.

Lemma preserves_read_array {A} (a : list A) i : preserves_heap (read_array a i).
Proof.
  unfold read_array.
  destruct (a !! Z.to_nat i); [apply preserves_ret|apply preserves_fault].
Qed.

Lemma preserves_write_array {A} (a : list A) i x :
  preserves_heap (write_array a i x).
Proof.
  unfold write_array.
  destruct (decide _); [apply preserves_ret|apply preserves_fault].
Qed.

Lemma preserves_claim_stack stack bytes :
  preserves_heap (claim_stack stack bytes).
Proof.
  unfold claim_stack. destruct stack as [limit|]; [|apply preserves_ret].
  destruct (decide _); [apply preserves_ret|apply preserves_fault].
Qed.

Lemma preserves_loop_from {S} (body : Z -> S -> M S) n :
  (forall i s, preserves_heap (body i s)) ->
  forall i s, preserves_heap (loop_from n i body s).
Proof.
  intros Hbody. induction n as [|n IH]; intros i s; cbn [loop_from].
  - apply preserves_ret.
  - apply preserves_bind; [apply Hbody|]. intros s'. apply IH.
Qed.

Lemma preserves_for_size {S} (body : Z -> S -> M S) bound s :
  (forall i s, preserves_heap (body i s)) ->
  preserves_heap (for_size bound body s).
Proof. intros Hbody. apply preserves_loop_from, Hbody. Qed.

(** X19: the queries never change a matrix.  Whenever [Mat_GetWidth],
    [Mat_GetHeight], [Mat_GetElement], [Mat_GetData] or [Mat_Determinant]
    completes, on any handle and with any [dgetrf_], the heap is the one it
    started from. *)
Theorem queries_preserve_heap :
  forall dgetrf_ (m : Matrix) (row column : Z) (buffer : list float),
    preserves_heap (Mat_GetWidth m) /\
    preserves_heap (Mat_GetHeight m) /\
    preserves_heap (Mat_GetElement m row column) /\
    preserves_heap (Mat_GetData m buffer) /\
    preserves_heap (Mat_Determinant dgetrf_ m).
Proof.
  intros dgetrf_ m row column buffer.
  split; [|split; [|split; [|split]]].
  - destruct m; [apply preserves_get_columns|apply preserves_ret].
  - destruct m; [apply preserves_get_rows|apply preserves_ret].
  - destruct m as [l|]; [|apply preserves_ret]. unfold Mat_GetElement.
    apply preserves_bind; [apply preserves_get_rows|]. intros rows.
    apply preserves_bind; [apply preserves_get_columns|]. intros columns.
    destruct (_ || _); [apply preserves_ret|apply preserves_load].
  - destruct m as [l|]; [|apply preserves_ret]. unfold Mat_GetData.
    apply preserves_bind; [apply preserves_get_rows|]. intros rows.
    apply preserves_bind; [apply preserves_get_columns|]. intros columns.
    apply preserves_bind; [|intros; apply preserves_ret].
    apply preserves_for_size. intros r b.
    apply preserves_for_size. intros c b'.
    apply preserves_bind; [apply preserves_load|]. intros x.
    apply preserves_write_array.
  - destruct m as [l|]; [|apply preserves_ret].
    unfold Mat_Determinant, Mat_Determinant_within.
    apply preserves_bind; [apply preserves_get_rows|]. intros rows.
    apply preserves_bind; [apply preserves_get_columns|]. intros columns.
    destruct (negb _); [apply preserves_ret|].
    apply preserves_bind; [apply preserves_claim_stack|]. intros _.
    apply preserves_bind.
    2:{ intros copied.
        apply preserves_bind; [apply preserves_claim_stack|]. intros _.
        destruct (dgetrf_ _ _ _ _) as [[aux piv] info].
        apply preserves_for_size. intros i det.
        apply preserves_bind; [apply preserves_read_array|]. intros x.
        apply preserves_bind; [apply preserves_read_array|]. intros p.
        destruct (negb _); apply preserves_ret. }
    unfold memcpy_to_array.
    apply preserves_bind.
    + apply preserves_bind; [apply preserves_deref|intros; apply preserves_ret].
    + intros d. destruct (decide _); [|apply preserves_fault].
      destruct (decide _); [apply preserves_ret|apply preserves_fault].
Qed.

(** X20: the sign rule of [Mat_Determinant], when the stack has room for
    [auxArray] and [pivotArray].  For a live square matrix of order [n], when
    every pivot that [dgetrf_] returns exceeds its 0-based index, as LAPACK's
    1-based pivots always do, the sign is flipped once per diagonal element
    whether or not rows were interchanged: the result is the product of the
    diagonal of the factors with [n] changes of sign. *)
Theorem Mat_Determinant_flips_every_pivot :
  forall dgetrf_ (stack : option Z) (h : heap) (l : nat) (d : MatrixData)
         (n : Z) (factors : list float) (pivots : list Z) (info : Z),
    stack_has_room stack (sizeof_auxArray + sizeof_pivotArray) ->
    h !! l = Some (Some d) -> well_formed d ->
    rowsNumber d = n -> columnsNumber d = n ->
    n < INT_MODULUS / 2 -> n * n <= AUX_CAPACITY ->
    dgetrf_ n n (take (Z.to_nat (n * n)) (data d)) n =
      (factors, pivots, info) ->
    n * n <= Z.of_nat (length factors) ->
    (forall i, 0 <= i < n ->
       exists p, pivots !! Z.to_nat i = Some p /\ i < p < SIZE_MODULUS) ->
    Mat_Determinant_within dgetrf_ stack (Some l) h =
    Done (flipped_diagonal_product factors n (Z.to_nat n)) h.
Proof.
  intros dgetrf_ stack h l d n factors pivots info Hstack Hl Hwf Hrows Hcols
         Hint Haux Hlu Hlen Hpiv.
  destruct (well_formed_bytes d Hwf) as (H0 & H1 & Hbytes).
  pose proof (well_formed_count d Hwf) as Hcount.
  pose proof Hwf as (HR & _ & Hroom & _).
  rewrite Hrows, Hcols in *.
  unfold Mat_Determinant_within.
  step (get_rows_live _ _ _ Hl). step (get_columns_live _ _ _ Hl).
  rewrite Hrows, Hcols, Z.eqb_refl. cbn [negb].
  step (claim_stack_room _ h (stack_has_room_auxArray _ Hstack)).
  assert (Hroom' : (Z.to_nat (n * n) <= length (data d))%nat) by lia.
  step (memcpy_to_array_live _ _ _ AUX_CAPACITY _ (n * n) Hl Hbytes Hroom'
          (conj H0 Haux)).
  step (claim_stack_room_pivots _ h Hstack).
  rewrite (int_of_size_small n) by lia. rewrite Hlu.
  destruct (for_size_inv
              (fun i det h1 =>
                 h1 = h /\ det = flipped_diagonal_product factors n (Z.to_nat i))
              (fun pivotIndex determinant =>
                 let* x :=
                   read_array factors
                     (size_add (size_mul pivotIndex n) pivotIndex) in
                 let determinant := (determinant * x)%float in
                 let* pivot := read_array pivots pivotIndex in
                 if negb (size_of_int pivot =? pivotIndex)
                 then ret (determinant * -1)%float
                 else ret determinant)
              n 1%float h HR) as (det & h' & Hrun & -> & ->).
  - split; reflexivity.
  - intros i det h1 Hi (-> & ->).
    pose proof (cell_index_bound i i n n Hi Hi) as Hb.
    rewrite (cell_index_wrap i i n n Hi Hi Hcount).
    destruct (lookup_lt_is_Some_2 factors (Z.to_nat (i * n + i)) ltac:(lia))
      as [x Hx].
    destruct (Hpiv i Hi) as (p & Hp & Hpi).
    step (read_array_Some _ _ _ Hx _). step (read_array_Some _ _ _ Hp _).
    unfold size_of_int. rewrite size_wrap_small by lia.
    replace (p =? i) with false by lia. cbn [negb].
    eexists. exists h. split; [reflexivity|]. split; [reflexivity|].
    replace (Z.to_nat (i + 1)) with (S (Z.to_nat i)) by lia.
    cbn [flipped_diagonal_product].
    rewrite !Z2Nat.id by lia. rewrite Hx. reflexivity.
  - exact Hrun.
Qed.

(** The theorem at a 2 x 2 matrix and a routine that reports one row
    interchange through the pivots [2; 2], under a stack limit of 64 MiB:
    two changes of sign. *)
Lemma Mat_Determinant_flips_every_pivot_witness :
  let factors := [3; 0.5; 4; 2]%float in
  let lapack := fun (_ _ : Z) (_ : list float) (_ : Z) =>
                  (factors, [2; 2], 0) in
  let a := mkMatrixData [1; 3; 2; 4]%float 2 2 in
  Mat_Determinant_within lapack (Some RAISED_STACK) (Some 0%nat) [Some a] =
  Done (flipped_diagonal_product factors 2 2) [Some a].
Proof.
  intros factors lapack a.
  apply (Mat_Determinant_flips_every_pivot lapack (Some RAISED_STACK) [Some a]
           0%nat a 2 factors [2; 2] 0); try reflexivity.
  - vm_compute. discriminate.
  - unfold well_formed. cbn. destruct machine_bounds as (_ & -> & ->). lia.
  - vm_compute. discriminate.
  - intros i Hi. destruct machine_bounds as (_ & -> & _).
    assert (i = 0 \/ i = 1) as [-> | ->] by lia.
    + exists 2. split; [reflexivity|lia].
    + exists 2. split; [reflexivity|lia].
Defined.

(** ** Release *)

(** X21: [Mat_Discard] does nothing on [NULL]; on a live handle it frees
    the matrix and leaves every other matrix as it was, after which the
    handle is dangling: discarding it again, or reading an element through
    it, is undefined. *)
Theorem Mat_Discard_frees :
  forall (h : heap) (l : nat) (d : MatrixData) (row column : Z),
    Mat_Discard None h = Done tt h /\
    (h !! l = Some (Some d) ->
     exists h',
       Mat_Discard (Some l) h = Done tt h' /\
       (forall l', l' <> l -> h' !! l' = h !! l') /\
       Mat_Discard (Some l) h' = Fault /\
       Mat_GetElement (Some l) row column h' = Fault).
Proof.
  intros h l d row column. split; [reflexivity|]. intros Hl.
  assert (Hfree : <[l := None]> h !! l = Some None).
  { apply list_lookup_insert_eq. eapply lookup_lt_Some, Hl. }
  exists (<[l := None]> h). split; [|split; [|split]].
  - unfold Mat_Discard, free_MatrixData. rewrite Hl. reflexivity.
  - intros l' Hne. apply list_lookup_insert_ne. congruence.
  - unfold Mat_Discard, free_MatrixData. rewrite Hfree. reflexivity.
  - unfold Mat_GetElement, get_rows, bind, deref. rewrite Hfree. reflexivity.
Qed.

(** The theorem at a heap of two matrices. *)
Lemma Mat_Discard_frees_witness :
  let a := mkMatrixData [1; 2; 3; 4]%float 2 2 in
  let b := mkMatrixData [5%float] 1 1 in
  exists h',
    Mat_Discard (Some 0%nat) [Some a; Some b] = Done tt h' /\
    (forall l', l' <> 0%nat -> h' !! l' = [Some a; Some b] !! l') /\
    Mat_Discard (Some 0%nat) h' = Fault /\
    Mat_GetElement (Some 0%nat) 0 0 h' = Fault.
Proof.
  intros a b.
  apply (Mat_Discard_frees [Some a; Some b] 0%nat a 0 0).
  reflexivity.
Defined.

(** A loop faults when one of its iterations faults in every state that the
    iterations before it can leave behind. *)
Lemma loop_from_faults {S : Type} (I : S -> heap -> Prop)
    (body : Z -> S -> M S) (j : Z) :
  (forall k s h s' h', I s h -> body k s h = Done s' h' -> I s' h') ->
  (forall s h, I s h -> body j s h = Fault) ->
  forall n i s h, I s h -> i <= j < i + Z.of_nat n ->
    loop_from n i body s h = Fault.
Proof.
  intros Hkeep Hfault. induction n as [|n IH]; intros i s h Hi Hj; [lia|].
  cbn [loop_from]. unfold bind.
  destruct (body i s h) as [s' h'|] eqn:E; [|reflexivity].
  destruct (decide (i = j)) as [->|Hne].
  - rewrite (Hfault s h Hi) in E. discriminate E.
  - apply IH; [apply (Hkeep i s h s' h' Hi E)|lia].
Qed.

Lemma loop_from_keeps {S : Type} (I : S -> heap -> Prop)
    (body : Z -> S -> M S) :
  (forall k s h s' h', I s h -> body k s h = Done s' h' -> I s' h') ->
  forall n i s h s' h', I s h -> loop_from n i body s h = Done s' h' ->
    I s' h'.
Proof.
  intros Hkeep. induction n as [|n IH]; intros i s h s' h' Hi E.
  - inversion E; subst. exact Hi.
  - cbn [loop_from] in E. unfold bind in E.
    destruct (body i s h) as [s1 h1|] eqn:E1; [|discriminate E].
    apply (IH (i + 1) s1 h1 s' h' (Hkeep i s h s1 h1 Hi E1) E).
Qed.

(** X22: [Mat_Resize] of a live, well-formed matrix that raises the element
    count, so that the buffer is reallocated to exactly the new count, while
    dropping a column writes past the reallocated buffer: the copy loop
    still runs over the old columns. *)
Theorem Mat_Resize_overflows :
  forall (h : heap) (l : nat) (d : MatrixData) (R C : Z),
    h !! l = Some (Some d) -> well_formed d ->
    0 <= R -> 0 <= C -> R * C * SIZEOF_DOUBLE < SIZE_MODULUS ->
    rowsNumber d * columnsNumber d <= AUX_CAPACITY ->
    columnsNumber d * R < SIZE_MODULUS ->
    rowsNumber d * columnsNumber d < R * C ->
    C < columnsNumber d -> 1 <= rowsNumber d ->
    Mat_Resize (Some l) R C h = Fault.
Proof.
  intros h l d R C Hl Hwf HR HC Hnew Haux Hwrap Hgrows Hdrop Hrow.
  destruct (Mat_Resize_prepares None h l d R C Logic.I Hl Hwf HR HC Hnew Haux)
    as (zeroed & aux & Hprep & _ & _ & _ & Hexact & _ & _).
  specialize (Hexact Hgrows).
  pose proof Hwf as (HR0 & HC0 & _ & _).
  set (R0 := rowsNumber d) in *. set (C0 := columnsNumber d) in *.
  set (I := fun (_ : unit) (h1 : heap) =>
    exists buf, h1 = <[l := Some (mkMatrixData buf R0 C0)]> h /\
                Z.of_nat (length buf) = R * C).
  assert (Hstep : forall column k (s : unit) h1 s' h',
            I s h1 ->
            (let* x := read_array aux (size_add (size_mul column R0) k) in
             store (Some l) (size_add (size_mul column R) k) x) h1 = Done s' h' ->
            I s' h').
  { intros column k s h1 s' h' (buf & -> & Hlenb) E. unfold bind in E.
    destruct (read_array aux _ _) as [x h2|] eqn:Er; [|discriminate E].
    apply preserves_read_array in Er. subst h2. unfold store in E.
    rewrite (bind_Done _ _ _ _ _
               (deref_live _ _ _ (heap_insert_live _ _ _ _ Hl))) in E.
    cbn [data] in E.
    destruct (decide _) as [Hin|]; [|discriminate E].
    rewrite (set_data_live _ _ _ _ (heap_insert_live _ _ _ _ Hl)) in E.
    inversion E; subst. rewrite list_insert_insert_eq.
    eexists. split; [reflexivity|]. rewrite length_insert. exact Hlenb. }
  assert (Hinner : forall column (s : unit) h1 s' h',
            I s h1 ->
            for_size R0 (fun row (_ : unit) =>
              let* x := read_array aux (size_add (size_mul column R0) row) in
              store (Some l) (size_add (size_mul column R) row) x) tt h1 =
              Done s' h' ->
            I s' h').
  { intros column [] h1 s' h' Hi E.
    unfold for_size in E.
    eapply (loop_from_keeps I); [|exact Hi|exact E].
    intros k s0 h0 s1 h2 Hi0 E0. apply (Hstep column k s0 h0 s1 h2 Hi0 E0). }
  unfold Mat_Resize, Mat_Resize_within.
  step (get_rows_live _ _ _ Hl). step (get_columns_live _ _ _ Hl).
  fold R0 C0. rewrite Hprep.
  assert (Hloop : for_size C0 (fun column (_ : unit) =>
            for_size R0 (fun row (_ : unit) =>
              let* x := read_array aux (size_add (size_mul column R0) row) in
              store (Some l) (size_add (size_mul column R) row) x) tt) tt
            (<[l := Some (mkMatrixData zeroed R0 C0)]> h) = Fault).
  { unfold for_size at 1. eapply (loop_from_faults I _ (C0 - 1)).
    - intros k s h1 s' h' Hi E. apply (Hinner k s h1 s' h' Hi E).
    - intros [] h1 Hi.
      unfold for_size. eapply (loop_from_faults I _ (R0 - 1)).
      + intros k s h2 s' h' Hi' E. apply (Hstep (C0 - 1) k s h2 s' h' Hi' E).
      + intros [] h2 (buf & -> & Hlenb). unfold bind.
        destruct (read_array aux _ _) as [x h3|] eqn:Er; [|reflexivity].
        apply preserves_read_array in Er. subst h3.
        assert (Hlow : 0 <= (C0 - 1) * R) by (apply Z.mul_nonneg_nonneg; lia).
        assert (Hhigh : C * R <= (C0 - 1) * R)
          by (apply Z.mul_le_mono_nonneg_r; lia).
        rewrite (store_index_wrap (C0 - 1) (R0 - 1) R SIZE_MODULUS)
          by (try lia; nia).
        unfold store.
        rewrite (bind_Done _ _ _ _ _
                   (deref_live _ _ _ (heap_insert_live _ _ _ _ Hl))).
        cbn [data].
        destruct (decide _) as [Hin|]; [exfalso; lia|reflexivity].
      + exact Hi.
      + lia.
    - exists zeroed. split; [reflexivity|exact Hexact].
    - lia. }
  unfold bind at 1. rewrite Hloop. reflexivity.
Qed.

(** The theorem at a 1 x 3 matrix resized to 2 x 2. *)
Lemma Mat_Resize_overflows_witness :
  Mat_Resize (Some 0%nat) 2 2 [Some (mkMatrixData [1; 2; 3]%float 1 3)] = Fault.
Proof.
  apply (Mat_Resize_overflows _ 0%nat (mkMatrixData [1; 2; 3]%float 1 3) 2 2);
    try reflexivity; try (vm_compute; discriminate).
  unfold well_formed. cbn. destruct machine_bounds as (_ & -> & ->). lia.
Defined.

(** ** Witnesses of the aliasing lemmas *)

(** [Mat_Transpose_twice] at a 2 x 3 matrix and two distinct results, under
    a stack limit of 64 MiB. *)
Lemma Mat_Transpose_twice_witness :
  let a := mkMatrixData [1; 4; 2; 5; 3; 6]%float 2 3 in
  let b := mkMatrixData (replicate 6 0%float) 1 1 in
  let c := mkMatrixData (replicate 6 0%float) 6 1 in
  exists h' buf,
    (let* t := Mat_Transpose_within (Some RAISED_STACK) (Some 0%nat)
                 (Some 1%nat) in
     Mat_Transpose_within (Some RAISED_STACK) t (Some 2%nat))
      [Some a; Some b; Some c] = Done (Some 2%nat) h' /\
    h' !! 2%nat = Some (Some (mkMatrixData buf 2 3)) /\
    forall r c0, 0 <= r < 2 -> 0 <= c0 < 3 ->
      buf !! Z.to_nat (c0 * 2 + r) =
      [1; 4; 2; 5; 3; 6]%float !! Z.to_nat (c0 * 2 + r).
Proof.
  intros a b c.
  apply (Mat_Transpose_twice (Some RAISED_STACK) [Some a; Some b; Some c]
           0%nat 1%nat 2%nat a b c);
    try reflexivity; try (intros E; discriminate E);
    try (vm_compute; discriminate).
Defined.

(** [aliased_result_agrees] at a 2 x 2 matrix and a distinct 2 x 2 result,
    under a stack limit of 64 MiB. *)
Lemma aliased_result_agrees_witness :
  let a := mkMatrixData [1; 2; 3; 4]%float 2 2 in
  let b := mkMatrixData [0; 0; 0; 0]%float 2 2 in
  (exists ha hb bufa bufb,
     Mat_Scale (Some 0%nat) 2%float (Some 0%nat) [Some a; Some b] =
       Done (Some 0%nat) ha /\
     Mat_Scale (Some 0%nat) 2%float (Some 1%nat) [Some a; Some b] =
       Done (Some 1%nat) hb /\
     ha !! 0%nat = Some (Some (mkMatrixData bufa 2 2)) /\
     hb !! 1%nat = Some (Some (mkMatrixData bufb 2 2)) /\
     forall i : nat, Z.of_nat i < 2 * 2 -> bufa !! i = bufb !! i) /\
  (exists ha hb bufa bufb,
     Mat_Transpose_within (Some RAISED_STACK) (Some 0%nat) (Some 0%nat)
       [Some a; Some b] = Done (Some 0%nat) ha /\
     Mat_Transpose_within (Some RAISED_STACK) (Some 0%nat) (Some 1%nat)
       [Some a; Some b] = Done (Some 1%nat) hb /\
     ha !! 0%nat = Some (Some (mkMatrixData bufa 2 2)) /\
     hb !! 1%nat = Some (Some (mkMatrixData bufb 2 2)) /\
     forall i : nat, Z.of_nat i < 2 * 2 -> bufa !! i = bufb !! i).
Proof.
  intros a b.
  destruct (aliased_result_agrees (Some RAISED_STACK) [Some a; Some b]
              0%nat 1%nat a b 2%float) as [Hscale Htranspose].
  - reflexivity.
  - reflexivity.
  - unfold well_formed. cbn. destruct machine_bounds as (_ & -> & ->). lia.
  - reflexivity.
  - cbn. lia.
  - split; [exact Hscale|]. apply Htranspose.
    + vm_compute. discriminate.
    + reflexivity.
    + vm_compute. discriminate.
Defined.
